(** * InsightX / PayFlow pipeline: scorer, validator, executor, router,
      signal detector and orchestrator.

    Shallow embedding of the Python sources
      - [src/analytics.py]                       (InsightEngine)
      - [src/executor.py]                        (SQLExecutor)
      - [src/payflow.ai.v1/data_manager.py]      (DataManager.validate_query)
      - [src/payflow.ai.v2/backend/app/services/router.py]  (QueryRouter)
      - [src/payflow.ai.v2/backend/app/services/engine.py]  (InsightXEngine)
    Python [set] and [dict] values are stdpp [gset] and [gmap]; Python
    [float] values are the exact rational values of IEEE-754 binary64
    numbers, every arithmetic operation being followed by the binary64
    rounding [B64.rn64]. *)

From Stdlib Require Import ZArith QArith Qround Qpower Qabs Lia Lqa List Bool Ascii
  String Permutation Sorted.
From Stdlib Require Import Floats.SpecFloat.
From stdpp Require Import gmap strings list fin_maps pretty.

(** ** Binary64 arithmetic on exact rational values *)

Module B64.

Local Open Scope Q_scope.

(** Round a rational to the nearest integer, ties to the even one. *)
Definition rne (x : Q) : Z :=
  let f := Qfloor x in
  match Qcompare (x - inject_Z f) (1 # 2) with
  | Lt => f
  | Gt => (f + 1)%Z
  | Eq => if Z.even f then f else (f + 1)%Z
  end.

(** [mag x] is the binary exponent of [x > 0]: [2^mag x <= x < 2^(mag x + 1)]. *)
Definition mag (x : Q) : Z :=
  let k := (Z.log2 (Qnum x) - Z.log2 (Zpos (Qden x)))%Z in
  if Qle_bool (2 ^ k) x then k else (k - 1)%Z.

(** Exponent of the unit in the last place: 53 significant bits, and the
    subnormal floor [2^-1074]. *)
Definition fexp (x : Q) : Z := Z.max (mag x - 52) (-1074).

Definition rn_pos (x : Q) : Q :=
  let e := fexp x in inject_Z (rne (x / 2 ^ e)) * 2 ^ e.

(** Round-to-nearest-even onto the binary64 grid (the exponent range is
    not bounded above: no quantity of this development leaves it). *)
Definition rn64 (x : Q) : Q :=
  match Qcompare x 0 with
  | Eq => 0
  | Gt => Qred (rn_pos x)
  | Lt => Qred (- rn_pos (- x))
  end.

(** Python [a * b], [a + b], [a - b], [a / b] on floats. *)
Definition fmul (a b : Q) : Q := rn64 (a * b).
Definition fadd (a b : Q) : Q := rn64 (a + b).
Definition fsub (a b : Q) : Q := rn64 (a - b).
Definition fdiv (a b : Q) : Q := rn64 (a / b).

(** A float literal written in decimal, e.g. [0.7] is [lit 7 10]. *)
Definition lit (n : Z) (d : positive) : Q := rn64 (n # d).

(** Python [a / b] on two [int]s (true division, correctly rounded). *)
Definition int_truediv (a b : nat) : Q :=
  rn64 (inject_Z (Z.of_nat a) / inject_Z (Z.of_nat b)).

(** Python [round(x, ndigits)] on a float: the exact value is rounded to
    [ndigits] decimals, ties to even, and the decimal is read back as the
    nearest binary64. *)
Definition py_round (x : Q) (ndigits : nat) : Q :=
  let p := inject_Z (10 ^ Z.of_nat ndigits) in
  rn64 (inject_Z (rne (x * p)) / p).

End B64.

(** ** The same operations in the IEEE-754 specification of the Standard
       Library ([SpecFloat], precision 53, maximal exponent 1024), for
       comparison with [B64] *)

Module IEEE.
Import B64.

(** The exact value of a finite float. *)
Definition SF2Q (f : spec_float) : option Q :=
  match f with
  | S754_zero _ => Some 0%Q
  | S754_finite s m e =>
      Some (Qred (inject_Z (if s then Z.neg m else Z.pos m) * 2 ^ e))
  | _ => None
  end.

Definition sf_of_nat (n : nat) : spec_float :=
  binary_normalize 53 1024 (Z.of_nat n) 0 false.

(** [0.7 * (a / n) + 0.3 * (b / m)] by the specification ... *)
Definition sf_score (a n b m : nat) : spec_float :=
  SFadd 53 1024
    (SFmul 53 1024 (SFdiv 53 1024 (sf_of_nat 7) (sf_of_nat 10))
                   (SFdiv 53 1024 (sf_of_nat a) (sf_of_nat n)))
    (SFmul 53 1024 (SFdiv 53 1024 (sf_of_nat 3) (sf_of_nat 10))
                   (SFdiv 53 1024 (sf_of_nat b) (sf_of_nat m))).

(** ... and by [B64]. *)
Definition q_score (a n b m : nat) : Q :=
  fadd (fmul (lit 7 10) (int_truediv a n)) (fmul (lit 3 10) (int_truediv b m)).

(** All match counts [a <= n], [b <= m] for set sizes [n], [m] from 1 to 6. *)
Definition grid : list (nat * nat * nat * nat) :=
  flat_map (fun n =>
    flat_map (fun a =>
      flat_map (fun m => map (fun b => (a, n, b, m)) (seq 0 (S m))) (seq 1 6))
      (seq 0 (S n)))
    (seq 1 6).

Definition agree (t : nat * nat * nat * nat) : bool :=
  let '(a, n, b, m) := t in
  match SF2Q (sf_score a n b m) with
  | Some q => Qeq_bool q (q_score a n b m)
  | None => false
  end.

End IEEE.

(** ** Hypothesis scorer: [InsightEngine.score_hypotheses] (src/analytics.py) *)

Module Scorer.
Import B64.

(** One entry of the hypothesis library ([hypotheses.json]); a missing
    ['required_signals'] or ['supporting_signals'] key reads as [[]]. *)
Record HypothesisEntry := {
  id : string;
  name : string;
  description : string;
  business_implication : string;
  required_signals : list string;
  supporting_signals : list string
}.

(** The body of the [for hypothesis in self.hypotheses] loop, for a
    hypothesis that passed the [if not required: continue] guard. *)
Definition hypothesis_score (hypothesis : HypothesisEntry) (signals : gset string) : Q :=
  let required : gset string := list_to_set (required_signals hypothesis) in
  let supporting : gset string := list_to_set (supporting_signals hypothesis) in
  let required_score := int_truediv (size (required ∩ signals)) (size required) in
  let supporting_score :=
    if decide (supporting = ∅) then 0%Q
    else int_truediv (size (supporting ∩ signals)) (size supporting) in
  let score := fadd (fmul (lit 7 10) required_score) (fmul (lit 3 10) supporting_score) in
  py_round score 3.

Fixpoint score_loop (hypotheses : list HypothesisEntry) (signals : gset string)
  : list (HypothesisEntry * Q) :=
  match hypotheses with
  | [] => []
  | hypothesis :: rest =>
      let required : gset string := list_to_set (required_signals hypothesis) in
      if decide (required = ∅) then score_loop rest signals
      else (hypothesis, hypothesis_score hypothesis signals) :: score_loop rest signals
  end.

(** [scored.sort(key=lambda x: x[1], reverse=True)]: a stable sort, larger
    scores first, equal scores in their original order. *)
Fixpoint insert_desc (x : HypothesisEntry * Q) (l : list (HypothesisEntry * Q))
  : list (HypothesisEntry * Q) :=
  match l with
  | [] => [x]
  | y :: ys =>
      if Qle_bool (snd y) (snd x) then x :: y :: ys
      else y :: insert_desc x ys
  end.

Definition sort_desc (l : list (HypothesisEntry * Q)) : list (HypothesisEntry * Q) :=
  foldr insert_desc [] l.

Definition score_hypotheses (hypotheses : list HypothesisEntry) (signals : gset string)
  : list (HypothesisEntry * Q) :=
  sort_desc (score_loop hypotheses signals).

End Scorer.

(** ** Python [str] methods

    Text is ASCII: case mapping acts on the letters [a-z] / [A-Z], the
    whitespace characters are those of [str.isspace] below code point 128,
    and the regular-expression class [\w] is [[A-Za-z0-9_]]. *)

Module PyStr.

Local Open Scope string_scope.
Local Open Scope N_scope.

Definition upper_char (c : ascii) : ascii :=
  let n := N_of_ascii c in
  if (97 <=? n) && (n <=? 122) then ascii_of_N (n - 32) else c.

Definition lower_char (c : ascii) : ascii :=
  let n := N_of_ascii c in
  if (65 <=? n) && (n <=? 90) then ascii_of_N (n + 32) else c.

Fixpoint upper (s : string) : string :=
  match s with
  | EmptyString => EmptyString
  | String c s' => String (upper_char c) (upper s')
  end.

Fixpoint lower (s : string) : string :=
  match s with
  | EmptyString => EmptyString
  | String c s' => String (lower_char c) (lower s')
  end.

(** [str.isspace] on one character: TAB, LF, VT, FF, CR, FS, GS, RS, US, SPACE. *)
Definition is_space (c : ascii) : bool :=
  let n := N_of_ascii c in
  ((9 <=? n) && (n <=? 13)) || ((28 <=? n) && (n <=? 32)).

Definition is_empty (s : string) : bool :=
  match s with EmptyString => true | _ => false end.

Fixpoint lstrip (s : string) : string :=
  match s with
  | EmptyString => EmptyString
  | String c s' => if is_space c then lstrip s' else s
  end.

Fixpoint rstrip (s : string) : string :=
  match s with
  | EmptyString => EmptyString
  | String c s' =>
      let r := rstrip s' in
      if is_space c && is_empty r then EmptyString else String c r
  end.

(** [s.strip()] *)
Definition strip (s : string) : string := lstrip (rstrip s).

Definition flush (cur : string) : list string :=
  if is_empty cur then [] else [cur].

(** [split_from cur s]: the tokens of [s], [cur] being the characters of
    the token under construction. *)
Fixpoint split_from (cur : string) (s : string) : list string :=
  match s with
  | EmptyString => flush cur
  | String c s' =>
      if is_space c then flush cur ++ split_from EmptyString s'
      else split_from (cur ++ String c EmptyString) s'
  end.

(** [s.split()]: maximal runs of non-whitespace characters. *)
Definition split (s : string) : list string := split_from EmptyString s.

(** [s.startswith(p)] *)
Definition startswith (s p : string) : bool := String.prefix p s.

(** [sub in s] *)
Fixpoint contains (sub s : string) : bool :=
  String.prefix sub s ||
  match s with
  | EmptyString => false
  | String _ s' => contains sub s'
  end.

(** [x in l] for a list of strings. *)
Definition mem (x : string) (l : list string) : bool :=
  existsb (String.eqb x) l.

(** The class [\w]. *)
Definition is_word (c : ascii) : bool :=
  let n := N_of_ascii c in
  ((48 <=? n) && (n <=? 57)) || ((65 <=? n) && (n <=? 90))
  || ((97 <=? n) && (n <=? 122)) || (n =? 95).

Definition is_word_opt (c : option ascii) : bool :=
  match c with Some c => is_word c | None => false end.

(** [\b] between the character before and the character after a position. *)
Definition word_boundary (before after : option ascii) : bool :=
  xorb (is_word_opt before) (is_word_opt after).

Definition head_char (s : string) : option ascii :=
  match s with EmptyString => None | String c _ => Some c end.

Fixpoint last_char (default : option ascii) (s : string) : option ascii :=
  match s with
  | EmptyString => default
  | String c s' => last_char (Some c) s'
  end.

Fixpoint drop (n : nat) (s : string) : string :=
  match n, s with
  | O, _ => s
  | S n', String _ s' => drop n' s'
  | S _, EmptyString => EmptyString
  end.

(** Does [\b kw \b] match at the start of [s], [before] being the
    character that precedes [s] in the searched text? *)
Definition word_match_here (before : option ascii) (kw s : string) : bool :=
  String.prefix kw s
  && word_boundary before (head_char s)
  && word_boundary (last_char before kw) (head_char (drop (String.length kw) s)).

Fixpoint word_search_from (before : option ascii) (kw s : string) : bool :=
  word_match_here before kw s ||
  match s with
  | EmptyString => false
  | String c s' => word_search_from (Some c) kw s'
  end.

(** [re.search(r'\b' + re.escape(kw) + r'\b', s)] is not [None]. *)
Definition re_search_word (kw s : string) : bool := word_search_from None kw s.

End PyStr.

(** ** Safety validator: [DataManager.validate_query]
       (src/payflow.ai.v1/data_manager.py) *)

Module Validator.
Import PyStr.
Local Open Scope string_scope.

Definition DANGEROUS_KEYWORDS : list string :=
  ["DROP"; "DELETE"; "UPDATE"; "INSERT"; "ALTER"; "TRUNCATE"; "CREATE"; "REPLACE"].

Definition validate_query (sql : string) : bool :=
  let sql_upper := strip (upper sql) in
  if existsb (fun keyword => mem keyword (split sql_upper)) DANGEROUS_KEYWORDS
  then false
  else if negb (startswith sql_upper "SELECT") && negb (startswith sql_upper "WITH")
  then false
  else true.

End Validator.

(** ** Query router: [QueryRouter]
       (src/payflow.ai.v2/backend/app/services/router.py) *)

Module Router.
Import PyStr.
Local Open Scope string_scope.

(** The two verdicts, ["data"] and ["general"]. *)
Inductive QueryType := data | general.

Definition DATA_KEYWORDS : list string :=
  ["how many"; "count"; "total"; "average"; "mean"; "median";
   "sum"; "max"; "min"; "highest"; "lowest"; "top"; "bottom";
   "rate"; "percentage"; "percent"; "ratio"; "trend"; "growth";
   "compare"; "comparison"; "breakdown"; "distribution";
   "transaction"; "transactions"; "payment"; "payments";
   "fraud"; "failure"; "success"; "failed"; "upi";
   "merchant"; "bank"; "state"; "device"; "network";
   "p2p"; "p2m"; "bill"; "recharge"; "amount";
   "revenue"; "volume"; "frequency"; "monthly"; "weekly";
   "daily"; "hourly"; "weekend"; "weekday";
   "sender"; "receiver"; "age group"; "age_group";
   "android"; "ios"; "wifi"; "3g"; "4g"; "5g";
   "show me"; "list"; "find"; "fetch"; "get";
   "which"; "what is the"; "what are the"; "what's the";
   "calculate"; "analyse"; "analyze"; "query";
   "chart"; "graph"; "plot"; "visualize";
   "group by"; "sort by"; "order by"; "filter"].

Definition GENERAL_KEYWORDS : list string :=
  ["hello"; "hi"; "hey"; "thanks"; "thank you"; "bye";
   "good morning"; "good evening"; "good night";
   "who are you"; "what are you"; "your name";
   "help me"; "what can you do"; "how do you work";
   "explain"; "tell me about yourself"; "introduce"].

Definition FOLLOWUP_INDICATORS : list string :=
  ["both"; "either"; "which one"; "out of"; "between them";
   "the first"; "the second"; "the same"; "those"; "these";
   "that"; "them"; "it"; "its"; "their"; "they";
   "more"; "less"; "better"; "worse"; "higher"; "lower";
   "instead"; "also"; "as well"; "too"; "again";
   "now show"; "now compare"; "now filter"; "what about";
   "and what"; "and how"; "but what"; "but how";
   "same thing"; "same query"; "same data";
   "break it down"; "drill down"; "go deeper";
   "previous"; "last question"; "earlier"].

Definition _is_followup (query_lower : string) : bool :=
  existsb (fun indicator => contains indicator query_lower) FOLLOWUP_INDICATORS.

(** The number of DATA phrases found in the text. *)
Definition data_score (query_lower : string) : nat :=
  length (List.filter (fun kw => re_search_word kw query_lower) DATA_KEYWORDS).

(** [None] is the ambiguous outcome. *)
Definition _keyword_classify (query_lower : string) : option QueryType :=
  if existsb (fun kw => re_search_word kw query_lower) GENERAL_KEYWORDS
  then Some general
  else
    if (2 <=? data_score query_lower)%nat then Some data
    else if (data_score query_lower =? 1)%nat && contains "?" query_lower
    then Some data
    else None.

(** [completion] is the text returned by the classification service for
    this request, [None] when the call raises. *)
Definition _llm_classify (completion : option string) : QueryType :=
  match completion with
  | None => data
  | Some content =>
      let classification := upper (strip content) in
      if contains "DATA" classification then data
      else if contains "GENERAL" classification then general
      else data
  end.

Definition classify (completion : option string)
    (user_query : string) (has_data_history : bool) : QueryType :=
  let query_lower := strip (lower user_query) in
  if has_data_history && _is_followup query_lower then data
  else
    match _keyword_classify query_lower with
    | Some keyword_result =>
        if (match keyword_result with general => true | data => false end)
           && has_data_history
           && (length (split query_lower) <=? 10)%nat
           && contains "?" query_lower
        then data
        else keyword_result
    | None => _llm_classify completion
    end.

End Router.

(** ** Result tables: pandas [DataFrame]s as delivered by [fetchdf] *)

Module Frame.

(** Column dtypes; [other_numeric] stands for the numeric dtypes that the
    detector never names ([int32], [int16], ...), [other_dtype] for the
    non-numeric ones besides [object] and [bool] ([datetime64], ...). *)
Inductive dtype :=
  float64 | int64 | float32 | other_numeric | object | bool_ | other_dtype.

(** One cell: a number (by its exact value; [True] and [False] are 1 and
    0), a string, or a missing value ([NaN] / [None]). *)
Inductive cell :=
  | Num (v : Q)
  | Str (s : string)
  | NaN.

(** A column: label, dtype and cells, top to bottom. Labels of one table
    are pairwise different. *)
Record Series := {
  label : string;
  dtype_of : dtype;
  values : list cell
}.

(** [n_rows] is [len(df)], the length of the index; every column holds
    [n_rows] cells. *)
Record DataFrame := {
  columns : list Series;
  n_rows : nat
}.

(** [df.empty]: no rows or no columns. *)
Definition empty (df : DataFrame) : bool :=
  (n_rows df =? 0)%nat || (length (columns df) =? 0)%nat.

(** [df[name]]: [None] is [KeyError]. *)
Definition getitem (df : DataFrame) (name : string) : option Series :=
  List.find (fun c => String.eqb (label c) name) (columns df).

End Frame.

(** ** SQL executor: [SQLExecutor] (src/executor.py) *)

Module Executor.
Import Frame B64.

(** What [self.conn.execute(sql)] followed by [fetchdf()] does: deliver a
    table, or raise. [elapsed_ms] is [(time.perf_counter() - start_time)
    * 1000] as read by the executor after the attempt; [is_duckdb_error]
    tells a [duckdb.Error] from any other exception. *)
Inductive EngineReply :=
  | Fetched (df : DataFrame) (elapsed_ms : Q)
  | Failed (is_duckdb_error : bool) (e : string) (elapsed_ms : Q).

(** The analytical engine: the reply to the [n]-th statement it receives. *)
Definition Engine := nat -> string -> EngineReply.

Record SQLExecutor := {
  (** number of statements sent to [self.conn] so far *)
  conn_calls : nat;
  _last_execution_time_ms : Q;
  _last_rows_returned : nat;
  _query_cache : gmap string DataFrame
}.

(** [self._cache_max_size], set once by [__init__]. *)
Definition _cache_max_size : nat := 50.

(** [SQLExecutor.__init__] *)
Definition init : SQLExecutor := {|
  conn_calls := 0;
  _last_execution_time_ms := 0;
  _last_rows_returned := 0;
  _query_cache := ∅
|}.

Inductive QueryExecutionError := QueryExecutionError_ (message : string).

(** [execute]: the new executor state and either the raised
    [QueryExecutionError] or the returned table. [df.copy()] is the
    identity on values. *)
Definition execute (conn : Engine) (self : SQLExecutor) (sql : string) (use_cache : bool)
  : SQLExecutor * (QueryExecutionError + DataFrame) :=
  match (if use_cache then _query_cache self !! sql else None) with
  | Some cached =>
      ({| conn_calls := conn_calls self;
          _last_execution_time_ms := 0;
          _last_rows_returned := n_rows cached;
          _query_cache := _query_cache self |},
       inr cached)
  | None =>
      match conn (conn_calls self) sql with
      | Failed is_duckdb_error e elapsed =>
          ({| conn_calls := S (conn_calls self);
              _last_execution_time_ms := elapsed;
              _last_rows_returned := _last_rows_returned self;
              _query_cache := _query_cache self |},
           inl (QueryExecutionError_
                  ((if is_duckdb_error then "Query execution failed: "
                    else "Unexpected error during query execution: ") ++ e)%string))
      | Fetched df elapsed_ms =>
          ({| conn_calls := S (conn_calls self);
              _last_execution_time_ms := elapsed_ms;
              _last_rows_returned := n_rows df;
              _query_cache :=
                if use_cache && (size (_query_cache self) <? _cache_max_size)%nat
                then <[sql := df]> (_query_cache self)
                else _query_cache self |},
           inr df)
      end
  end.

Record ExecutionStats := {
  time_ms : Q;
  rows_returned : nat;
  cache_size : nat
}.

Definition get_execution_stats (self : SQLExecutor) : ExecutionStats := {|
  time_ms := py_round (_last_execution_time_ms self) 2;
  rows_returned := _last_rows_returned self;
  cache_size := size (_query_cache self)
|}.

End Executor.

(** ** Signal detector: [InsightEngine.extract_signals] (src/analytics.py)

    Scalar float arithmetic is binary64. The reductions of a column
    ([mean], [median]) are the correctly rounded value of the exact
    reduction, and [std] enters only through the exact sample variance:
    the rounding error that pandas accumulates inside one reduction is
    not part of the model. *)

Module Detector.
Import PyStr Frame B64.
Local Open Scope string_scope.

Definition Qlt_bool (a b : Q) : bool := negb (Qle_bool b a).

(** [dtype in ['float64', 'int64', 'float32']] and [dtype in ['float64', 'int64']] *)
Definition is_f64_i64_f32 (d : dtype) : bool :=
  match d with float64 | int64 | float32 => true | _ => false end.

Definition is_f64_i64 (d : dtype) : bool :=
  match d with float64 | int64 => true | _ => false end.

(** [name in columns] where [columns = set(df.columns.str.lower())]. *)
Definition in_columns (df : DataFrame) (name : string) : bool :=
  existsb (fun c => String.eqb (lower (label c)) name) (Frame.columns df).

(** The numbers of a list of cells, missing values dropped. *)
Fixpoint numbers (vals : list cell) : list Q :=
  match vals with
  | [] => []
  | Num v :: rest => v :: numbers rest
  | _ :: rest => numbers rest
  end.

Definition total (ns : list Q) : Q := foldr Qplus 0%Q ns.

Definition exact_mean (ns : list Q) : Q :=
  (total ns / inject_Z (Z.of_nat (length ns)))%Q.

(** [Series.max()], [None] standing for [NaN]. *)
Definition series_max (vals : list cell) : option Q :=
  match numbers vals with
  | [] => None
  | n :: ns => Some (foldr (fun x m => if Qle_bool m x then x else m) n ns)
  end.

(** [Series.mean()] *)
Definition series_mean (vals : list cell) : option Q :=
  match numbers vals with
  | [] => None
  | ns => Some (rn64 (exact_mean ns))
  end.

(** Sample variance (ddof = 1) of at least two numbers. *)
Definition exact_var (ns : list Q) : Q :=
  (total (map (fun x => (x - exact_mean ns) * (x - exact_mean ns)) ns)
   / inject_Z (Z.of_nat (length ns - 1)))%Q.

Fixpoint insert_asc (x : Q) (l : list Q) : list Q :=
  match l with
  | [] => [x]
  | y :: ys => if Qle_bool x y then x :: y :: ys else y :: insert_asc x ys
  end.

(** [Series.median()] *)
Definition series_median (vals : list cell) : option Q :=
  let sorted := foldr insert_asc [] (numbers vals) in
  let n := length sorted in
  if (n =? 0)%nat then None
  else if Nat.odd n then nth_error sorted (n / 2)
  else match nth_error sorted (n / 2 - 1), nth_error sorted (n / 2) with
       | Some a, Some b => Some (fdiv (fadd a b) 2)
       | _, _ => None
       end.

(** [opt > bound], false on [NaN]. *)
Definition exceeds (opt : option Q) (bound : Q) : bool :=
  match opt with Some v => Qlt_bool bound v | None => false end.

(** [vals.std() > 0] for [vals] of length above one. *)
Definition std_positive (ns : list Q) : bool := Qlt_bool 0 (exact_var ns).

(** [vals.std() / vals.mean() > bound]: the quotient is [inf] when the
    mean is zero and the deviation is not, and is not positive when the
    mean is negative. *)
Definition cv_exceeds (ns : list Q) (bound : Q) : bool :=
  let m := exact_mean ns in
  if Qlt_bool 0 m then Qlt_bool (bound * m * (bound * m)) (exact_var ns)
  else Qeq_bool m 0 && Qlt_bool 0 (exact_var ns).

(** *** HIGH_FAILURE_RATE *)

Definition failure_rate_column (col : Series) : bool :=
  let col_lower := lower (label col) in
  (contains "failure" col_lower || contains "fail" col_lower)
  && (contains "rate" col_lower || contains "pct" col_lower || contains "percent" col_lower)
  && is_f64_i64_f32 (dtype_of col)
  && exceeds (series_max (values col)) 5.

(** [(df['transaction_status'].str.upper() == 'FAILED').sum()], with
    [None] for the [KeyError] of a label spelled in another case and for
    the [AttributeError] of [.str] on a column that holds no strings. *)
Definition failed_count (df : DataFrame) : option nat :=
  match getitem df "transaction_status" with
  | None => None
  | Some col =>
      match dtype_of col with
      | object =>
          Some (length (List.filter
                  (fun c => match c with
                            | Str s => String.eqb (upper s) "FAILED"
                            | _ => false
                            end) (values col)))
      | _ => None
      end
  end.

Definition status_rate_high (df : DataFrame) : option bool :=
  let total := n_rows df in
  if (0 <? total)%nat then
    match failed_count df with
    | None => None
    | Some failed =>
        let rate := fmul (int_truediv failed total) 100 in
        Some (Qlt_bool 5 rate)
    end
  else Some false.

(** One element of [df[col] / df[total_col] * 100] above [5.0]. *)
Definition rate_cell_high (a b : cell) : bool :=
  match a, b with
  | Num x, Num y =>
      if Qeq_bool y 0 then Qlt_bool 0 x
      else Qlt_bool 5 (fmul (fdiv (rn64 x) (rn64 y)) 100)
  | _, _ => false
  end.

Fixpoint rates_high (xs ys : list cell) : bool :=
  match xs, ys with
  | a :: xs', b :: ys' => rate_cell_high a b || rates_high xs' ys'
  | _, _ => false
  end.

Definition total_col (df : DataFrame) : option Series :=
  List.find (fun tc => contains "total" (lower (label tc))
                       || contains "count" (lower (label tc)))
            (Frame.columns df).

Definition failed_count_column (df : DataFrame) (col : Series) : bool :=
  let col_lower := lower (label col) in
  (contains "failed" col_lower || contains "failures" col_lower)
  && is_f64_i64 (dtype_of col)
  && match total_col df with
     | Some tc =>
         negb (is_empty (label tc)) && is_f64_i64 (dtype_of tc)
         && rates_high (values col) (values tc)
     | None => false
     end.

(** *** PEAK_SENSITIVE *)

Definition peak_column (col : Series) : bool :=
  is_f64_i64 (dtype_of col)
  && negb (String.eqb (lower (label col)) "hour_of_day")
  && (1 <? length (numbers (values col)))%nat
  && match series_mean (values col), series_max (values col) with
     | Some mean_val, Some max_val =>
         Qlt_bool 0 mean_val
         && Qlt_bool (lit 5 10) (fdiv (fsub max_val mean_val) mean_val)
     | _, _ => false
     end.

(** *** Columns named after a failure or a rate *)

Definition fail_or_rate_column (col : Series) : bool :=
  let val_lower := lower (label col) in
  (contains "fail" val_lower || contains "rate" val_lower)
  && is_f64_i64 (dtype_of col).

(** *** DEVICE_SENSITIVITY *)

Definition device_column (col : Series) : bool :=
  fail_or_rate_column col
  && (1 <? length (numbers (values col)))%nat
  && std_positive (numbers (values col)).

(** *** MAINTENANCE_WINDOW_PATTERN *)

(** The cells of [vals] on the rows where the flag cell equals [k]. *)
Fixpoint rows_where (k : Q) (flags vals : list cell) : list cell :=
  match flags, vals with
  | f :: flags', v :: vals' =>
      match f with
      | Num x => if Qeq_bool x k then v :: rows_where k flags' vals'
                 else rows_where k flags' vals'
      | _ => rows_where k flags' vals'
      end
  | _, _ => []
  end.

Definition weekend_column (df : DataFrame) (col : Series) : bool :=
  fail_or_rate_column col
  && match getitem df "is_weekend" with
     | None => false
     | Some flags =>
         let weekend_rows := rows_where 1 (values flags) (values col) in
         let weekday_rows := rows_where 0 (values flags) (values col) in
         negb (length weekend_rows =? 0)%nat && negb (length weekday_rows =? 0)%nat
         && match series_mean weekend_rows, series_mean weekday_rows with
            | Some weekend_rate, Some weekday_rate =>
                Qlt_bool 0 weekday_rate
                && Qlt_bool (fmul weekday_rate (lit 15 10)) weekend_rate
            | _, _ => false
            end
     end.

(** *** EXTERNAL_DEPENDENCY / HEAVY_VALIDATION *)

(** [types_in_data & {'Bill Payment', 'Recharge'}], [None] for the
    [KeyError] of [df['transaction_type']]. *)
Definition external_types (df : DataFrame) : option bool :=
  match getitem df "transaction_type" with
  | None => None
  | Some col =>
      Some (existsb (fun c => match c with
                              | Str s => String.eqb s "Bill Payment"
                                         || String.eqb s "Recharge"
                              | _ => false
                              end) (values col))
  end.

(** *** HIGH_RETRIES *)

Definition retry_column (col : Series) : bool :=
  contains "retry" (lower (label col))
  && is_f64_i64 (dtype_of col)
  && exceeds (series_max (values col)) 2.

(** *** HIGH_VALUE_RISK *)

Definition is_reducible (d : dtype) : bool :=
  match d with object | other_dtype => false | _ => true end.

(** The cells of [vals] on the rows where the amount is above [median]. *)
Fixpoint rows_above (median : Q) (amounts vals : list cell) : list cell :=
  match amounts, vals with
  | a :: amounts', v :: vals' =>
      match a with
      | Num x => if Qlt_bool median x then v :: rows_above median amounts' vals'
                 else rows_above median amounts' vals'
      | _ => rows_above median amounts' vals'
      end
  | _, _ => []
  end.

Definition high_value_risk (df : DataFrame) : bool :=
  match getitem df "amount_inr", getitem df "fraud_flag" with
  | Some amount, Some flag =>
      is_reducible (dtype_of amount) && is_reducible (dtype_of flag)
      && match series_median (values amount) with
         | None => false
         | Some median =>
             let high_val := rows_above median (values amount) (values flag) in
             negb (length high_val =? 0)%nat
             && exceeds (series_mean high_val) (lit 5 100)
         end
  | _, _ => false
  end.

(** *** BANK_CONCENTRATION *)

Definition bank_column (col : Series) : bool :=
  fail_or_rate_column col
  && (1 <? length (numbers (values col)))%nat
  && cv_exceeds (numbers (values col)) (lit 3 10).

(** [signals.add(name)] when [cond] holds. *)
Definition add_if (cond : bool) (name : string) (signals : gset string) : gset string :=
  if cond then {[ name ]} ∪ signals else signals.

(** [extract_signals]: [None] when the call raises. *)
Definition extract_signals (df : DataFrame) (query_context : string)
  : option (gset string) :=
  let signals : gset string := ∅ in
  if empty df then Some signals
  else
    let failure_detected := existsb failure_rate_column (Frame.columns df) in
    let signals := add_if failure_detected "HIGH_FAILURE_RATE" signals in
    status ← (if negb failure_detected && in_columns df "transaction_status"
              then status_rate_high df else Some false);
    let signals := add_if status "HIGH_FAILURE_RATE" signals in
    let signals :=
      add_if (negb failure_detected
              && existsb (failed_count_column df) (Frame.columns df))
             "HIGH_FAILURE_RATE" signals in
    let signals :=
      add_if (in_columns df "hour_of_day" && existsb peak_column (Frame.columns df))
             "PEAK_SENSITIVE" signals in
    let signals := add_if (in_columns df "network_type") "NETWORK_FRAGILITY" signals in
    let signals :=
      add_if (in_columns df "device_type" && existsb device_column (Frame.columns df))
             "DEVICE_SENSITIVITY" signals in
    let signals :=
      add_if (in_columns df "is_weekend"
              && existsb (weekend_column df) (Frame.columns df))
             "MAINTENANCE_WINDOW_PATTERN" signals in
    external ← (if in_columns df "transaction_type"
                then external_types df else Some false);
    let signals := add_if external "EXTERNAL_DEPENDENCY" signals in
    let query_lower := lower query_context in
    let billing := contains "bill" query_lower || contains "recharge" query_lower
                   || contains "biller" query_lower in
    let signals := add_if billing "EXTERNAL_DEPENDENCY" signals in
    let signals := add_if billing "HEAVY_VALIDATION" signals in
    let signals := add_if external "HEAVY_VALIDATION" signals in
    let signals :=
      add_if (existsb retry_column (Frame.columns df)) "HIGH_RETRIES" signals in
    let signals :=
      add_if (bool_decide ("HIGH_FAILURE_RATE" ∈ signals)
              && bool_decide ("EXTERNAL_DEPENDENCY" ∈ signals))
             "HIGH_RETRIES" signals in
    let signals :=
      add_if (in_columns df "amount_inr" && in_columns df "fraud_flag"
              && high_value_risk df)
             "HIGH_VALUE_RISK" signals in
    let signals :=
      add_if (contains "fraud" query_lower || contains "flag" query_lower
              || contains "risk" query_lower)
             "FRAUD_CONCENTRATION" signals in
    let signals :=
      add_if ((in_columns df "sender_bank" || in_columns df "receiver_bank")
              && existsb bank_column (Frame.columns df))
             "BANK_CONCENTRATION" signals in
    Some signals.

End Detector.

(** ** Orchestrator: [InsightXEngine]
       (src/payflow.ai.v2/backend/app/services/engine.py)

    The router and the validator are the ones above; the executor is
    [Executor.execute]. The translator, the analytics engine, the two
    completion services and the clock are collaborators held by the
    orchestrator, given here by what they answer. *)

Module Orchestrator.
Import PyStr Frame Executor.
Local Open Scope string_scope.

(** One entry of the data track, [{"user_query": ..., "sql": ...}]. *)
Record HistoryTurn := { user_query : string; sql : string }.

(** One entry of the general track, [{"user": ..., "assistant": ...}]. *)
Record GeneralTurn := { user : string; assistant : string }.

Record Message := { role : string; content : string }.

Inductive TranslationError := TranslationError_ (message : string).
Inductive InsightGenerationError := InsightGenerationError_ (message : string).

Record Collaborators := {
  (** the completion the router's classifier gets for (message, history flag) *)
  classifier_completion : string -> bool -> option string;
  (** [self.translator.translate_with_retry(user_query, conversation_history=history)] *)
  translate_with_retry : string -> list HistoryTurn -> TranslationError + string;
  (** [self.executor.conn] *)
  conn : Engine;
  (** [self.analytics.extract_signals(df, user_query)], [None] when it raises *)
  extract_signals : DataFrame -> string -> option (gset string);
  (** [self.analytics.score_hypotheses(signals)], [None] when it raises *)
  score_hypotheses : gset string -> option (list (Scorer.HypothesisEntry * Q));
  (** [self.analytics.generate_insight(user_query, df, scored[:2])] *)
  generate_insight : string -> DataFrame -> list (Scorer.HypothesisEntry * Q)
                     -> InsightGenerationError + string;
  (** [self.analytics.generate_fallback_insight(df)] *)
  generate_fallback_insight : DataFrame -> string;
  (** [self._groq_client.chat.completions.create(...)], [None] when it raises *)
  chat_completion : list Message -> option string;
  (** [self._elapsed(start)] at the return statement *)
  elapsed : Q
}.

Record InsightXEngine := {
  executor : SQLExecutor;
  _conversations : gmap string (list HistoryTurn);
  _general_conversations : gmap string (list GeneralTurn)
}.

(** [self._max_history], set once by [__init__]. *)
Definition _max_history : nat := 100.

(** One item of [result['hypotheses']]. *)
Record HypothesisSummary := {
  h_id : string;
  h_name : string;
  h_description : string;
  h_score : Q
}.

(** The caller-facing result record. *)
Record QueryResult := {
  r_query : string;
  r_sql : option string;
  r_data : list (list (string * cell));
  r_data_summary : string;
  r_signals : list string;
  r_hypotheses : list HypothesisSummary;
  r_insight : string;
  r_execution_time_ms : Q;
  r_rows_returned : nat;
  r_error : option string
}.

(** The return statement through which [process_query] leaves. *)
Inductive Terminal :=
  | SUCCESS
  | TRANSLATION_FAILED
  | VALIDATION_BLOCKED
  | EXECUTION_FAILED
  | GENERAL_ANSWERED.

(** The truth value of [conversation_id]: [None] and [''] are false. *)
Definition truthy (conversation_id : option string) : bool :=
  match conversation_id with
  | None => false
  | Some id => negb (is_empty id)
  end.

Definition _get_history (self : InsightXEngine) (conversation_id : option string)
  : list HistoryTurn :=
  match conversation_id with
  | Some id => if truthy conversation_id then default [] (_conversations self !! id) else []
  | None => []
  end.

(** [l.append(x)] followed by [if len(l) > max_history: l.pop(0)]. *)
Definition append_bounded {A} (max_history : nat) (l : list A) (x : A) : list A :=
  let l' := (l ++ [x])%list in
  if (max_history <? length l')%nat then tail l' else l'.

Definition _save_to_history (self : InsightXEngine) (conversation_id : option string)
    (user_query sql : string) : InsightXEngine :=
  match conversation_id with
  | Some id =>
      if truthy conversation_id then
        {| executor := executor self;
           _conversations :=
             <[id := append_bounded _max_history
                       (default [] (_conversations self !! id))
                       {| user_query := user_query; sql := sql |}]>
               (_conversations self);
           _general_conversations := _general_conversations self |}
      else self
  | None => self
  end.

(** [df.to_dict('records')] *)
Definition to_dict_records (df : DataFrame) : list (list (string * cell)) :=
  map (fun i => map (fun c => (label c, nth i (values c) NaN)) (Frame.columns df))
      (seq 0 (n_rows df)).

(** [history[-n:]] *)
Definition last_n {A} (n : nat) (l : list A) : list A :=
  skipn (length l - n) l.

Definition GENERAL_SYSTEM_PROMPT : string :=
  "You are PayFlow AI, a friendly and knowledgeable assistant specialised in UPI digital payments analytics. You can analyse UPI transaction data including volumes, success/failure rates, fraud patterns, merchant categories, bank performance, and more.

When users greet you or ask general questions, respond warmly and helpfully. If they ask what you can do, explain your data analysis capabilities. Keep responses concise but friendly.

If the user seems to want data analysis but phrased it casually, guide them toward asking a data question.give the response in tabular format only if the user quesry is explicitly asking for a table. Do not collapse rows onto a single line.If the response contains tabular data, always format it as a markdown table using | column | syntax.".

Definition GENERAL_FALLBACK : string :=
  "Hey! I'm PayFlow AI, your UPI payments analytics assistant. I can help you explore transaction data — try asking something like 'What's the failure rate by bank?' or 'Show top merchants by volume'.".

Definition blank_result (user_query : string) : QueryResult := {|
  r_query := user_query;
  r_sql := None;
  r_data := [];
  r_data_summary := "";
  r_signals := [];
  r_hypotheses := [];
  r_insight := "";
  r_execution_time_ms := 0;
  r_rows_returned := 0;
  r_error := None
|}.

Definition with_outcome (result : QueryResult) (error : option string)
    (insight : string) (ms : Q) : QueryResult := {|
  r_query := r_query result;
  r_sql := r_sql result;
  r_data := r_data result;
  r_data_summary := r_data_summary result;
  r_signals := r_signals result;
  r_hypotheses := r_hypotheses result;
  r_insight := insight;
  r_execution_time_ms := ms;
  r_rows_returned := r_rows_returned result;
  r_error := error
|}.

Definition with_sql (result : QueryResult) (sql : string) : QueryResult := {|
  r_query := r_query result;
  r_sql := Some sql;
  r_data := r_data result;
  r_data_summary := r_data_summary result;
  r_signals := r_signals result;
  r_hypotheses := r_hypotheses result;
  r_insight := r_insight result;
  r_execution_time_ms := r_execution_time_ms result;
  r_rows_returned := r_rows_returned result;
  r_error := r_error result
|}.

Definition _handle_general_query (w : Collaborators) (self : InsightXEngine)
    (user_query : string) (conversation_id : option string)
  : InsightXEngine * QueryResult :=
  let result := blank_result user_query in
  let history :=
    match conversation_id with
    | Some id => if truthy conversation_id
                 then default [] (_general_conversations self !! id) else []
    | None => []
    end in
  let messages :=
    ([{| role := "system"; content := GENERAL_SYSTEM_PROMPT |}]
     ++ flat_map (fun turn => [{| role := "user"; content := user turn |};
                               {| role := "assistant"; content := assistant turn |}])
                 (last_n 50 history)
     ++ [{| role := "user"; content := user_query |}])%list in
  match chat_completion w messages with
  | Some text =>
      let insight := strip text in
      let self' :=
        match conversation_id with
        | Some id =>
            if truthy conversation_id then
              {| executor := executor self;
                 _conversations := _conversations self;
                 _general_conversations :=
                   <[id := append_bounded _max_history
                             (default [] (_general_conversations self !! id))
                             {| user := user_query; assistant := insight |}]>
                     (_general_conversations self) |}
            else self
        | None => self
        end in
      (self', with_outcome result None insight (elapsed w))
  | None => (self, with_outcome result None GENERAL_FALLBACK (elapsed w))
  end.

Definition with_executor (self : InsightXEngine) (ex : SQLExecutor) : InsightXEngine := {|
  executor := ex;
  _conversations := _conversations self;
  _general_conversations := _general_conversations self
|}.

Definition summarize (p : Scorer.HypothesisEntry * Q) : HypothesisSummary := {|
  h_id := Scorer.id (fst p);
  h_name := Scorer.name (fst p);
  h_description := Scorer.description (fst p);
  h_score := snd p
|}.

(** [bool(conversation_id and self._conversations.get(conversation_id))] *)
Definition has_data_history (self : InsightXEngine) (conversation_id : option string)
  : bool :=
  truthy conversation_id
  && match conversation_id with
     | Some id => negb (length (default [] (_conversations self !! id)) =? 0)%nat
     | None => false
     end.

(** Step 0 of [process_query]: [self.router.classify(user_query,
    has_data_history=has_data_history)]. *)
Definition route (w : Collaborators) (self : InsightXEngine)
    (user_query : string) (conversation_id : option string) : Router.QueryType :=
  let has_data_history := has_data_history self conversation_id in
  Router.classify (classifier_completion w user_query has_data_history)
                  user_query has_data_history.

Definition process_query (w : Collaborators) (self : InsightXEngine)
    (user_query : string) (conversation_id : option string)
  : InsightXEngine * QueryResult * Terminal :=
  match route w self user_query conversation_id with
  | Router.general =>
      let '(self', result) := _handle_general_query w self user_query conversation_id in
      (self', result, GENERAL_ANSWERED)
  | Router.data =>
      let result := blank_result user_query in
      (* Step 1: translate *)
      let history := _get_history self conversation_id in
      match translate_with_retry w user_query history with
      | inl (TranslationError_ e) =>
          (self,
           with_outcome result (Some e)
             "I couldn't understand that query. Could you try rephrasing it? For example: 'What's the failure rate for bill payments?'"
             (elapsed w),
           TRANSLATION_FAILED)
      | inr sql =>
          let result := with_sql result sql in
          (* Step 1.5: validate *)
          if negb (Validator.validate_query sql) then
            (self,
             with_outcome result (Some "SQL failed safety validation.")
               "The generated query was blocked by safety filters." (elapsed w),
             VALIDATION_BLOCKED)
          else
            (* Step 2: execute *)
            match execute (conn w) (executor self) sql true with
            | (ex, inl (QueryExecutionError_ e)) =>
                (with_executor self ex,
                 with_outcome result (Some e)
                   "The data query encountered an error. Try breaking it into simpler parts."
                   (elapsed w),
                 EXECUTION_FAILED)
            | (ex, inr df) =>
                let self := with_executor self ex in
                (* Step 3: signals *)
                let '(signals, signal_list) :=
                  match extract_signals w df user_query with
                  | Some signals => (signals, elements signals)
                  | None => (∅, [])
                  end in
                (* Step 4: hypotheses *)
                let scored := default [] (score_hypotheses w signals) in
                (* Step 5: insight *)
                let insight :=
                  match generate_insight w user_query df (take 2 scored) with
                  | inr insight => insight
                  | inl _ => generate_fallback_insight w df
                  end in
                let result := {|
                  r_query := user_query;
                  r_sql := Some sql;
                  r_data := to_dict_records df;
                  r_data_summary := "";
                  r_signals := signal_list;
                  r_hypotheses := map summarize (take 5 scored);
                  r_insight := insight;
                  r_execution_time_ms := elapsed w;
                  r_rows_returned := n_rows df;
                  r_error := None
                |} in
                (_save_to_history self conversation_id user_query sql, result, SUCCESS)
            end
      end
  end.

(** The record returned on the validation-blocked path. *)
Definition blocked_result (w : Collaborators) (user_query sql : string) : QueryResult := {|
  r_query := user_query;
  r_sql := Some sql;
  r_data := [];
  r_data_summary := "";
  r_signals := [];
  r_hypotheses := [];
  r_insight := "The generated query was blocked by safety filters.";
  r_execution_time_ms := elapsed w;
  r_rows_returned := 0;
  r_error := Some "SQL failed safety validation."
|}.

(** The same collaborators around another analytical engine. *)
Definition with_conn (w : Collaborators) (conn' : Engine) : Collaborators := {|
  classifier_completion := classifier_completion w;
  translate_with_retry := translate_with_retry w;
  conn := conn';
  extract_signals := extract_signals w;
  score_hypotheses := score_hypotheses w;
  generate_insight := generate_insight w;
  generate_fallback_insight := generate_fallback_insight w;
  chat_completion := chat_completion w;
  elapsed := elapsed w
|}.

End Orchestrator.

(** ** Concrete inputs used by the examples below *)

Module Samples.
Import Frame Executor Orchestrator.
Local Open Scope string_scope.

(** The hypothesis of the scoring scenario. *)
Definition h_scenario : Scorer.HypothesisEntry := {|
  Scorer.id := "H1"; Scorer.name := "Scenario"; Scorer.description := "";
  Scorer.business_implication := "";
  Scorer.required_signals := ["A"; "B"];
  Scorer.supporting_signals := ["C"]
|}.

(** A table of one row and one text column. *)
Definition df_plain : DataFrame := {|
  columns := [{| label := "x"; dtype_of := object; values := [Str "a"] |}];
  n_rows := 1
|}.

(** Collaborators whose translator always answers [sql]. *)
Definition stub (sql : string) : Collaborators := {|
  classifier_completion := fun _ _ => Some "DATA";
  translate_with_retry := fun _ _ => inr sql;
  conn := fun _ _ => Fetched df_plain 1;
  extract_signals := Detector.extract_signals;
  score_hypotheses := fun signals => Some (Scorer.score_hypotheses [h_scenario] signals);
  generate_insight := fun _ _ _ => inr "insight";
  generate_fallback_insight := fun _ => "fallback";
  chat_completion := fun _ => Some "hello";
  elapsed := 1
|}.

(** Another table: the same column, another value. *)
Definition df_other : DataFrame := {|
  columns := [{| label := "x"; dtype_of := object; values := [Str "b"] |}];
  n_rows := 1
|}.

(** The table without rows and columns. *)
Definition df_empty : DataFrame := {| columns := []; n_rows := 0 |}.

(** An engine that needs 7 ms per statement and whose answer changes from
    one call to the next (a statement such as [SELECT random()]). *)
Definition engine_drift : Engine :=
  fun n _ => Fetched (if Nat.even n then df_plain else df_other) 7.

(** An engine that rejects every statement after 3 ms. *)
Definition engine_failing : Engine :=
  fun _ _ => Failed true "Parser Error: syntax error" 3.

Fixpoint ones (n : nat) : string :=
  match n with
  | O => ""
  | S k => String "1" (ones k)
  end.

(** The executor after fifty different statements: its cache is full. *)
Definition full_executor : SQLExecutor :=
  fold_left (fun ex n => (execute engine_drift ex ("SELECT " ++ ones n) true).1)
            (seq 1 50) Executor.init.

(** A freshly initialised orchestrator. *)
Definition engine0 : InsightXEngine := {|
  executor := Executor.init;
  _conversations := ∅;
  _general_conversations := ∅
|}.

End Samples.

(** ** Sequences of executor calls (src/executor.py) *)

Module ExecutorOps.
Import Frame Executor.

(** [clear_cache] *)
Definition clear_cache (self : SQLExecutor) : SQLExecutor := {|
  conn_calls := conn_calls self;
  _last_execution_time_ms := _last_execution_time_ms self;
  _last_rows_returned := _last_rows_returned self;
  _query_cache := ∅
|}.

(** [test_connection]: [self.conn.execute("SELECT 1").fetchone()] goes to
    the connection directly. *)
Definition test_connection (conn : Engine) (self : SQLExecutor) : SQLExecutor * bool :=
  ({| conn_calls := S (conn_calls self);
      _last_execution_time_ms := _last_execution_time_ms self;
      _last_rows_returned := _last_rows_returned self;
      _query_cache := _query_cache self |},
   match conn (conn_calls self) "SELECT 1" with
   | Fetched _ _ => true
   | Failed _ _ _ => false
   end).

(** One call made on an executor by its owner. *)
Inductive Call :=
  | Execute (sql : string) (use_cache : bool)
  | ClearCache
  | TestConnection.

Definition step (conn : Engine) (self : SQLExecutor) (c : Call) : SQLExecutor :=
  match c with
  | Execute sql use_cache => (execute conn self sql use_cache).1
  | ClearCache => clear_cache self
  | TestConnection => (test_connection conn self).1
  end.

(** The executor after a sequence of calls, raised errors being caught by
    the caller. *)
Definition run (conn : Engine) (self : SQLExecutor) (calls : list Call) : SQLExecutor :=
  fold_left (step conn) calls self.

Definition is_clear (c : Call) : bool :=
  match c with ClearCache => true | _ => false end.

End ExecutorOps.

(** ** Sessions of the orchestrator
       (src/payflow.ai.v2/backend/app/services/engine.py) *)

Module OrchestratorOps.
Import PyStr Frame Executor Orchestrator.

(** [clear_conversation]: a true id drops the two tracks of that
    conversation, [None] and [''] drop every conversation. *)
Definition clear_conversation (self : InsightXEngine) (conversation_id : option string)
  : InsightXEngine :=
  match conversation_id with
  | Some id =>
      if truthy conversation_id then
        {| executor := executor self;
           _conversations := delete id (_conversations self);
           _general_conversations := delete id (_general_conversations self) |}
      else
        {| executor := executor self;
           _conversations := ∅;
           _general_conversations := ∅ |}
  | None =>
      {| executor := executor self;
         _conversations := ∅;
         _general_conversations := ∅ |}
  end.

(** The request [_handle_general_query] sends to the completion service:
    the system prompt, the last 50 turns of the general track of the
    conversation, and the message. *)
Definition general_messages (self : InsightXEngine)
    (user_query : string) (conversation_id : option string) : list Message :=
  let history :=
    match conversation_id with
    | Some id => if truthy conversation_id
                 then default [] (_general_conversations self !! id) else []
    | None => []
    end in
  ([{| role := "system"; content := GENERAL_SYSTEM_PROMPT |}]
   ++ flat_map (fun turn => [{| role := "user"; content := user turn |};
                             {| role := "assistant"; content := assistant turn |}])
               (last_n 50 history)
   ++ [{| role := "user"; content := user_query |}])%list.

(** The hypotheses handed to [generate_insight] on a run that reaches the
    analysis stages with the table [df]: the two best of the ranking, or
    none when a stage before raised. *)
Definition top_hypotheses (w : Collaborators) (df : DataFrame) (user_query : string)
  : list (Scorer.HypothesisEntry * Q) :=
  take 2 (default [] (score_hypotheses w
                        (default ∅ (extract_signals w df user_query)))).

(** [InsightXEngine.__init__], as far as the state kept here goes. *)
Definition init : InsightXEngine := {|
  executor := Executor.init;
  _conversations := ∅;
  _general_conversations := ∅
|}.

(** One request served by the orchestrator, with what its collaborators
    answer while it is served. *)
Inductive Request :=
  | Query (w : Collaborators) (user_query : string) (conversation_id : option string)
  | Clear (conversation_id : option string).

Definition serve (self : InsightXEngine) (r : Request) : InsightXEngine :=
  match r with
  | Query w user_query conversation_id =>
      (process_query w self user_query conversation_id).1.1
  | Clear conversation_id => clear_conversation self conversation_id
  end.

(** The orchestrator after a sequence of requests. *)
Definition session (self : InsightXEngine) (requests : list Request) : InsightXEngine :=
  fold_left serve requests self.

(** Collaborators whose analysis stages all fail. *)
Definition stub_faulty (sql : string) : Collaborators := {|
  classifier_completion := fun _ _ => None;
  translate_with_retry := fun _ _ => inr sql;
  conn := fun _ _ => Fetched Samples.df_plain 1;
  extract_signals := fun _ _ => None;
  score_hypotheses := fun _ => None;
  generate_insight := fun _ _ _ => inl (InsightGenerationError_ "Failed to generate insight: timeout");
  generate_fallback_insight := fun _ => "Based on the data:";
  chat_completion := fun _ => None;
  elapsed := 1
|}.

(** Collaborators whose services fail on one request only: the insight
    service on the question ["total payments count?"], the completion
    service of the general track when the last message is ["hello"]. *)
Definition stub_selective (sql : string) : Collaborators := {|
  classifier_completion := fun _ _ => Some "DATA";
  translate_with_retry := fun _ _ => inr sql;
  conn := fun _ _ => Fetched Samples.df_plain 1;
  extract_signals := Detector.extract_signals;
  score_hypotheses := fun signals => Some (Scorer.score_hypotheses [Samples.h_scenario] signals);
  generate_insight := fun user_query _ _ =>
    if String.eqb user_query "total payments count?"
    then inl (InsightGenerationError_ "Failed to generate insight: timeout")
    else inr "insight";
  generate_fallback_insight := fun _ => "Based on the data:";
  chat_completion := fun messages =>
    match last messages with
    | Some m => if String.eqb (content m) "hello" then None
                else Some (String.append " re: " (content m))
    | None => None
    end;
  elapsed := 1
|}.

End OrchestratorOps.

(** ** The steps of [extract_signals] (src/analytics.py), named *)

Module DetectorSteps.
Import PyStr Frame Detector.
Local Open Scope string_scope.

(** The chain of [signals.add] statements, on the outcomes of the tests. *)
Definition signal_set (fd status fc peak net dev maint ext billing retry hvr fraud bank : bool)
  : gset string :=
  let signals : gset string := ∅ in
  let signals := add_if fd "HIGH_FAILURE_RATE" signals in
  let signals := add_if status "HIGH_FAILURE_RATE" signals in
  let signals := add_if (negb fd && fc) "HIGH_FAILURE_RATE" signals in
  let signals := add_if peak "PEAK_SENSITIVE" signals in
  let signals := add_if net "NETWORK_FRAGILITY" signals in
  let signals := add_if dev "DEVICE_SENSITIVITY" signals in
  let signals := add_if maint "MAINTENANCE_WINDOW_PATTERN" signals in
  let signals := add_if ext "EXTERNAL_DEPENDENCY" signals in
  let signals := add_if billing "EXTERNAL_DEPENDENCY" signals in
  let signals := add_if billing "HEAVY_VALIDATION" signals in
  let signals := add_if ext "HEAVY_VALIDATION" signals in
  let signals := add_if retry "HIGH_RETRIES" signals in
  let signals :=
    add_if (bool_decide ("HIGH_FAILURE_RATE" ∈ signals)
            && bool_decide ("EXTERNAL_DEPENDENCY" ∈ signals))
           "HIGH_RETRIES" signals in
  let signals := add_if hvr "HIGH_VALUE_RISK" signals in
  let signals := add_if fraud "FRAUD_CONCENTRATION" signals in
  add_if bank "BANK_CONCENTRATION" signals.

(** The two steps of [extract_signals] that may raise. *)
Definition status_step (df : DataFrame) : option bool :=
  if negb (existsb failure_rate_column (Frame.columns df))
     && in_columns df "transaction_status"
  then status_rate_high df else Some false.

Definition external_step (df : DataFrame) : option bool :=
  if in_columns df "transaction_type" then external_types df else Some false.

(** What pandas looks at before it gives a column its [.str] accessor:
    the inferred content. Of an object column it is text unless the
    column holds numbers and no string; a column of missing values only
    counts as text. *)
Definition holds_text (col : Series) : bool :=
  existsb (fun c => match c with Str _ => true | _ => false end) (values col)
  || forallb (fun c => match c with NaN => true | _ => false end) (values col).

(** The tables on which the dtype of the status column tells whether
    [.str] raises, as [failed_count] has it: numeric and boolean columns
    raise, object columns of text do not. Left out are the object
    columns of numbers (pandas raises on them) and the dtypes gathered
    in [other_dtype] (category and string columns have [.str], datetime
    columns do not). *)
Definition status_column_plain (df : DataFrame) : bool :=
  match getitem df "transaction_status" with
  | None => true
  | Some col =>
      match dtype_of col with
      | object => holds_text col
      | other_dtype => false
      | _ => true
      end
  end.

Definition billing_text (query_context : string) : bool :=
  contains "bill" (lower query_context) || contains "recharge" (lower query_context)
  || contains "biller" (lower query_context).

Definition fraud_text (query_context : string) : bool :=
  contains "fraud" (lower query_context) || contains "flag" (lower query_context)
  || contains "risk" (lower query_context).

(** The table of the failure-rate scenario: one column [failure_rate_pct]
    holding 2.1, 6.5 and 3.0. *)
Definition df_rates : DataFrame := {|
  columns := [{| label := "failure_rate_pct"; dtype_of := float64;
                 values := [Num (B64.lit 21 10); Num (B64.lit 65 10); Num (B64.lit 3 1)] |}];
  n_rows := 3
|}.

(** The table of the transaction-type scenario. *)
Definition df_types : DataFrame := {|
  columns := [{| label := "transaction_type"; dtype_of := object;
                 values := [Str "P2P"; Str "Bill Payment"] |}];
  n_rows := 2
|}.

(** Both columns in one table. *)
Definition df_rates_types : DataFrame := {|
  columns := [{| label := "transaction_type"; dtype_of := object;
                 values := [Str "P2P"; Str "Bill Payment"; Str "Recharge"] |};
              {| label := "failure_rate_pct"; dtype_of := float64;
                 values := [Num (B64.lit 21 10); Num (B64.lit 65 10); Num (B64.lit 3 1)] |}];
  n_rows := 3
|}.

(** A table whose type column is labelled in another case. *)
Definition df_mixed_case : DataFrame := {|
  columns := [{| label := "Transaction_Type"; dtype_of := object;
                 values := [Str "P2P"] |}];
  n_rows := 1
|}.

(** A table whose status column holds codes, not words. *)
Definition df_status_codes : DataFrame := {|
  columns := [{| label := "transaction_status"; dtype_of := int64;
                 values := [Num 1; Num 0] |}];
  n_rows := 2
|}.

End DetectorSteps.

(** ** The router inside the orchestrator
       (src/payflow.ai.v2/backend/app/services/router.py, engine.py) *)

Module RouterOps.
Import PyStr Router Orchestrator.

(** The same collaborators with another classification service. *)
Definition with_classifier (w : Collaborators)
    (classifier : string -> bool -> option string) : Collaborators := {|
  classifier_completion := classifier;
  translate_with_retry := translate_with_retry w;
  conn := conn w;
  extract_signals := extract_signals w;
  score_hypotheses := score_hypotheses w;
  generate_insight := generate_insight w;
  generate_fallback_insight := generate_fallback_insight w;
  chat_completion := chat_completion w;
  elapsed := elapsed w
|}.

(** The steps of [classify] that come before [_llm_classify] settle the
    verdict. *)
Definition decided_without_classifier (user_query : string) (has_data_history : bool)
  : bool :=
  let query_lower := strip (lower user_query) in
  (has_data_history && _is_followup query_lower)
  || match _keyword_classify query_lower with Some _ => true | None => false end.

End RouterOps.

(** ** SQL translator: [SQLTranslator]
       (src/payflow.ai.v2/backend/app/services/translator.py) *)

Module Translator.
Import PyStr Orchestrator.
Local Open Scope string_scope.

(** Two characters are equal under [re.IGNORECASE]. *)
Definition eqb_ci (a b : ascii) : bool := Ascii.eqb (upper_char a) (upper_char b).

(** [kw] matches at the start of [s], letter case ignored. *)
Fixpoint prefix_ci (kw s : string) : bool :=
  match kw, s with
  | EmptyString, _ => true
  | String a kw', String b s' => eqb_ci a b && prefix_ci kw' s'
  | String _ _, EmptyString => false
  end.

(** The first [n] characters of [s]. *)
Fixpoint take_chars (n : nat) (s : string) : string :=
  match n, s with
  | S n', String c s' => String c (take_chars n' s')
  | _, _ => EmptyString
  end.

(** Does [\b kw \b] with [re.IGNORECASE] match at the start of [s],
    [before] being the character that precedes [s]? *)
Definition word_match_here_ci (before : option ascii) (kw s : string) : bool :=
  prefix_ci kw s
  && word_boundary before (head_char s)
  && word_boundary (last_char before (take_chars (String.length kw) s))
                   (head_char (drop (String.length kw) s)).

Fixpoint word_search_ci_from (before : option ascii) (kws : list string) (s : string)
  : bool :=
  existsb (fun kw => word_match_here_ci before kw s) kws ||
  match s with
  | EmptyString => false
  | String c s' => word_search_ci_from (Some c) kws s'
  end.

(** [re.compile(r'\b(k1|k2|...)\b', re.IGNORECASE).search(s)] is not [None]. *)
Definition re_search_words_ci (kws : list string) (s : string) : bool :=
  word_search_ci_from None kws s.

(** The text from the first match of [\b(k1|k2|...)\b] on, if there is one:
    [s[match.start():]]. *)
Fixpoint from_first_match (before : option ascii) (kws : list string) (s : string)
  : option string :=
  if existsb (fun kw => word_match_here_ci before kw s) kws then Some s
  else match s with
       | EmptyString => None
       | String c s' => from_first_match (Some c) kws s'
       end.

(** [re.sub(lit + r'\s*', '', s)] for a literal [lit]: [skip] characters of
    a matched literal are still to be dropped, and [ws] tells that the
    white space following a literal is being dropped. *)
Fixpoint remove_lit_ws (lit : string) (skip : nat) (ws : bool) (s : string) : string :=
  match s with
  | EmptyString => EmptyString
  | String c s' =>
      match skip with
      | S k => remove_lit_ws lit k true s'
      | O =>
          if ws && is_space c then remove_lit_ws lit 0 true s'
          else if String.prefix lit s
               then remove_lit_ws lit (String.length lit - 1) true s'
               else String c (remove_lit_ws lit 0 false s')
      end
  end.

Definition re_sub_lit_ws (lit s : string) : string := remove_lit_ws lit 0 false s.

(** [s.rstrip(ch)] for one character. *)
Fixpoint rstrip_char (ch : ascii) (s : string) : string :=
  match s with
  | EmptyString => EmptyString
  | String c s' =>
      let r := rstrip_char ch s' in
      if Ascii.eqb c ch && is_empty r then EmptyString else String c r
  end.

(** The text holds ASCII characters only. On such text [re.IGNORECASE]
    and [str.upper] agree with [eqb_ci] and [upper]; beyond it they do
    not agree with each other ([re.IGNORECASE] lets U+0130 stand for I,
    [str.upper] leaves it as it is). *)
Definition is_ascii_text (s : string) : bool :=
  forallb (fun c => (N_of_ascii c <? 128)%N) (list_ascii_of_string s).

Definition DANGEROUS_PATTERNS : list string :=
  ["DROP"; "DELETE"; "UPDATE"; "INSERT"; "ALTER"; "TRUNCATE"; "CREATE"; "REPLACE";
   "EXEC"; "EXECUTE"].

Definition _clean_sql (sql : string) : string :=
  let sql := re_sub_lit_ws "```sql" sql in
  let sql := re_sub_lit_ws "```" sql in
  let sql := match from_first_match None ["SELECT"; "WITH"] sql with
             | Some rest => rest
             | None => sql
             end in
  strip (rstrip_char ";" sql).

Definition _validate_sql (sql : string) : bool :=
  if is_empty sql then false
  else if re_search_words_ci DANGEROUS_PATTERNS sql then false
  else
    let upper := strip (upper sql) in
    if negb (startswith upper "SELECT" || startswith upper "WITH") then false
    else if negb (contains "transactions" (lower sql)) then false
    else true.

Definition _ensure_limit (sql : string) (max_rows : Z) : string :=
  if negb (contains "LIMIT" (upper sql))
  then sql ++ String "010" ("LIMIT " ++ pretty max_rows)
  else sql.

(** The translator object: its system prompt, built once from the schema
    description. *)
Record SQLTranslator := { system_prompt : string }.

(** The completion service: its answer to the [n]-th request, the text of
    the exception ([inl]) or the content of the first choice ([inr]). *)
Definition Completion := nat -> list Message -> string + string.

Definition build_messages (self : SQLTranslator) (user_query : string)
    (conversation_history : list HistoryTurn) : list Message :=
  ([{| role := "system"; content := system_prompt self |}]
   ++ flat_map (fun turn => [{| role := "user"; content := Orchestrator.user_query turn |};
                             {| role := "assistant"; content := Orchestrator.sql turn |}])
               (last_n 50 conversation_history)
   ++ [{| role := "user"; content := user_query |}])%list.

(** [translate], its request being the [call]-th one the service gets. *)
Definition translate (chat : Completion) (self : SQLTranslator) (call : nat)
    (user_query : string) (conversation_history : list HistoryTurn)
  : TranslationError + string :=
  match chat call (build_messages self user_query conversation_history) with
  | inl e => inl (TranslationError_ ("Failed to generate SQL: " ++ e))
  | inr content =>
      let sql := _clean_sql (strip content) in
      if negb (_validate_sql sql)
      then inl (TranslationError_ ("SQL failed validation: " ++ take_chars 200 sql))
      else inr (_ensure_limit sql 10000%Z)
  end.

(** The [for attempt in range(max_retries + 1)] loop with [attempts]
    iterations left, [total] being [max_retries + 1]; the result comes
    with the number of requests made. *)
Fixpoint retry_loop (chat : Completion) (self : SQLTranslator) (call : nat)
    (user_query : string) (conversation_history : list HistoryTurn)
    (attempts : nat) (total : Z) (last_error : string)
  : nat * (TranslationError + string) :=
  match attempts with
  | O =>
      (call,
       inl (TranslationError_
              ("Translation failed after " ++ pretty total
               ++ " attempts. Last error: " ++ last_error)))
  | S attempts' =>
      match translate chat self call user_query conversation_history with
      | inr sql => (S call, inr sql)
      | inl (TranslationError_ e) =>
          retry_loop chat self (S call) user_query conversation_history
                     attempts' total e
      end
  end.

(** [translate_with_retry]; [(_).1] counts the requests made so far,
    [first_call] of them before this call.  [range(max_retries + 1)] is
    empty for a negative [max_retries], and [last_error] is then still
    [None]. *)
Definition translate_with_retry (chat : Completion) (self : SQLTranslator)
    (first_call : nat) (user_query : string) (max_retries : Z)
    (conversation_history : list HistoryTurn)
  : nat * (TranslationError + string) :=
  retry_loop chat self first_call user_query conversation_history
             (Z.to_nat (max_retries + 1)) (max_retries + 1)%Z "None".

(** The orchestrator's collaborators with the translation step played by
    this translator, as [InsightXEngine.__init__] wires it:
    [process_query] calls [translate_with_retry] with the default
    [max_retries = 2]. *)
Definition with_translator (w : Collaborators) (chat : Completion)
    (self : SQLTranslator) (first_call : nat) : Collaborators := {|
  classifier_completion := classifier_completion w;
  Orchestrator.translate_with_retry :=
    fun user_query history =>
      (translate_with_retry chat self first_call user_query 2%Z history).2;
  conn := conn w;
  extract_signals := extract_signals w;
  score_hypotheses := score_hypotheses w;
  generate_insight := generate_insight w;
  generate_fallback_insight := generate_fallback_insight w;
  chat_completion := chat_completion w;
  elapsed := elapsed w
|}.

(** A service that fails on its first request and then answers with a
    fenced statement, and one that always answers with a destructive
    statement. *)
Definition chat_second_try : Completion :=
  fun n _ =>
    if Nat.eqb n 0 then inl "timeout"
    else inr ("```sql" ++ String "010" ("SELECT bank FROM transactions;" ++ String "010" "```")).

Definition chat_destructive : Completion :=
  fun _ _ => inr "DROP TABLE transactions".

Definition translator0 : SQLTranslator := {| system_prompt := "You are an expert SQL translator." |}.

End Translator.

(** * Properties *)

#[local] Set Warnings "-clear-no-such-hyp".

(** ** Binary64 rounding is monotone *)

Module B64Facts.
Import B64.
Local Open Scope Q_scope.


Lemma rne_floor_le x : (Qfloor x <= rne x)%Z.
Proof.
  unfold rne. destruct (Qcompare _ _); [destruct (Z.even _)| |]; lia.
Qed.

Lemma rne_le_floor_succ x : (rne x <= Qfloor x + 1)%Z.
Proof.
  unfold rne. destruct (Qcompare _ _); [destruct (Z.even _)| |]; lia.
Qed.

Lemma rne_mono x y : x <= y -> (rne x <= rne y)%Z.
Proof.
  intros Hxy. pose proof (Qfloor_resp_le _ _ Hxy) as Hf.
  destruct (Z.eq_dec (Qfloor x) (Qfloor y)) as [E|N].
  - unfold rne. rewrite <- E.
    destruct (Qcompare_spec (x - inject_Z (Qfloor x)) (1 # 2)) as [Hx|Hx|Hx];
    destruct (Qcompare_spec (y - inject_Z (Qfloor x)) (1 # 2)) as [Hy|Hy|Hy];
    try destruct (Z.even _); try lia; exfalso; lra.
  - pose proof (rne_le_floor_succ x). pose proof (rne_floor_le y). lia.
Qed.

Lemma rne_inject_Z n : rne (inject_Z n) = n.
Proof.
  unfold rne. rewrite Qfloor_Z.
  destruct (Qcompare_spec (inject_Z n - inject_Z n) (1 # 2)) as [H|H|H]; try reflexivity; exfalso; lra.
Qed.

Lemma pow2_pos e : 0 < 2 ^ e.
Proof. apply Qpower_0_lt. reflexivity. Qed.

Lemma pow2_inject a : (0 <= a)%Z -> 2 ^ a == inject_Z (2 ^ a).
Proof. intros H. rewrite Zpower_Qpower by assumption. reflexivity. Qed.

Lemma pow2_le a b : (a <= b)%Z -> 2 ^ a <= 2 ^ b.
Proof. intros H. apply Qpower_le_compat_l; [assumption|]. discriminate. Qed.

Lemma pow2_lt a b : (a < b)%Z -> 2 ^ a < 2 ^ b.
Proof. intros H. apply Qpower_lt_compat_l; [assumption|]. reflexivity. Qed.

Lemma pow2_lt_inv a b : 2 ^ a < 2 ^ b -> (a < b)%Z.
Proof.
  intros H. destruct (Z_lt_le_dec a b) as [L|L]; [assumption|].
  apply pow2_le in L. exfalso. lra.
Qed.

Lemma pow2_add a b : 2 ^ (a + b) == 2 ^ a * 2 ^ b.
Proof. apply Qpower_plus. discriminate. Qed.

Lemma pow2_sub a b : 2 ^ (a - b) == 2 ^ a / 2 ^ b.
Proof. apply Qpower_minus. discriminate. Qed.

Lemma Q_as_div x : x == inject_Z (Qnum x) / inject_Z (Zpos (Qden x)).
Proof. destruct x as [p q]. simpl. apply Qmake_Qdiv. Qed.

Lemma mag_coarse x : 0 < x ->
  let k := (Z.log2 (Qnum x) - Z.log2 (Zpos (Qden x)))%Z in
  2 ^ (k - 1) < x /\ x < 2 ^ (k + 1).
Proof.
  intros Hx k.
  assert (Hp : (0 < Qnum x)%Z) by (destruct x as [p q]; unfold Qlt in Hx; simpl in *; lia).
  assert (Hq : (0 < Zpos (Qden x))%Z) by reflexivity.
  destruct (Z.log2_spec _ Hp) as [Hp1 Hp2].
  destruct (Z.log2_spec _ Hq) as [Hq1 Hq2].
  pose proof (Z.log2_nonneg (Qnum x)) as Lp.
  pose proof (Z.log2_nonneg (Zpos (Qden x))) as Lq.
  set (lp := Z.log2 (Qnum x)) in *. set (lq := Z.log2 (Zpos (Qden x))) in *.
  assert (Hq0 : 0 < inject_Z (Zpos (Qden x))) by reflexivity.
  pose proof (Q_as_div x) as Ex.
  set (p := Qnum x) in *. set (q := Zpos (Qden x)) in *.
  split; rewrite Ex.
  - replace (k - 1)%Z with (lp - (lq + 1))%Z by (unfold k; lia).
    rewrite pow2_sub.
    rewrite !pow2_inject by lia.
    assert (Hd : 0 < inject_Z (2 ^ (lq + 1))) by (rewrite <- pow2_inject by lia; apply pow2_pos).
    apply Qlt_shift_div_l; [assumption|].
    unfold Qdiv. rewrite <- Qmult_assoc, (Qmult_comm (/ _)), Qmult_assoc.
    apply Qlt_shift_div_r; [assumption|].
    rewrite <- !inject_Z_mult, <- Zlt_Qlt.
    replace (Z.succ lq) with (lq + 1)%Z in Hq2 by lia. nia.
  - replace (k + 1)%Z with ((lp + 1) - lq)%Z by (unfold k; lia).
    rewrite pow2_sub.
    rewrite !pow2_inject by lia.
    assert (Hd : 0 < inject_Z (2 ^ lq)) by (rewrite <- pow2_inject by lia; apply pow2_pos).
    apply Qlt_shift_div_r; [assumption|].
    unfold Qdiv. rewrite <- Qmult_assoc, (Qmult_comm (/ _)), Qmult_assoc.
    apply Qlt_shift_div_l; [assumption|].
    rewrite <- !inject_Z_mult, <- Zlt_Qlt.
    replace (Z.succ lp) with (lp + 1)%Z in Hp2 by lia. nia.
Qed.

Lemma mag_spec x : 0 < x -> 2 ^ mag x <= x /\ x < 2 ^ (mag x + 1).
Proof.
  intros Hx. destruct (mag_coarse x Hx) as [Hlo Hhi]. unfold mag.
  set (k := (Z.log2 (Qnum x) - Z.log2 (Zpos (Qden x)))%Z) in *.
  destruct (Qle_bool (2 ^ k) x) eqn:E.
  - apply Qle_bool_iff in E. split; assumption.
  - assert (~ 2 ^ k <= x) as N by (rewrite <- Qle_bool_iff; congruence).
    apply Qnot_le_lt in N. split.
    + apply Qlt_le_weak. assumption.
    + replace (k - 1 + 1)%Z with k by lia. assumption.
Qed.

Lemma mag_mono x y : 0 < x -> x <= y -> (mag x <= mag y)%Z.
Proof.
  intros Hx Hxy. assert (Hy : 0 < y) by lra.
  destruct (mag_spec x Hx) as [A _]. destruct (mag_spec y Hy) as [_ B].
  assert (2 ^ mag x < 2 ^ (mag y + 1)) as C by lra.
  apply pow2_lt_inv in C. lia.
Qed.

Lemma fexp_mono x y : 0 < x -> x <= y -> (fexp x <= fexp y)%Z.
Proof. intros Hx Hxy. pose proof (mag_mono x y Hx Hxy). unfold fexp. lia. Qed.

Lemma rne_le_int x n : x <= inject_Z n -> (rne x <= n)%Z.
Proof. intros H. rewrite <- (rne_inject_Z n). apply rne_mono. assumption. Qed.

Lemma rne_ge_int x n : inject_Z n <= x -> (n <= rne x)%Z.
Proof. intros H. rewrite <- (rne_inject_Z n). apply rne_mono. assumption. Qed.

Lemma scale_le x y e : x <= y -> x / 2 ^ e <= y / 2 ^ e.
Proof.
  intros H. unfold Qdiv. apply Qmult_le_compat_r; [assumption|].
  apply Qinv_le_0_compat. apply Qlt_le_weak, pow2_pos.
Qed.

Lemma rn_pos_mono x y : 0 < x -> x <= y -> rn_pos x <= rn_pos y.
Proof.
  intros Hx Hxy. assert (Hy : 0 < y) by lra.
  pose proof (fexp_mono x y Hx Hxy) as He.
  unfold rn_pos.
  destruct (Z.eq_dec (fexp x) (fexp y)) as [E|N].
  - rewrite E. apply Qmult_le_compat_r; [|apply Qlt_le_weak, pow2_pos].
    rewrite <- Zle_Qle. apply rne_mono, scale_le. assumption.
  - assert (Hlt : (fexp x < fexp y)%Z) by lia.
    assert (Ey : fexp y = (mag y - 52)%Z) by (unfold fexp in *; lia).
    assert (Emx : (mag x < mag y)%Z) by (unfold fexp in *; lia).
    destruct (mag_spec x Hx) as [_ Ux]. destruct (mag_spec y Hy) as [Ly _].
    (* both sides are compared with 2 ^ mag y *)
    apply Qle_trans with (2 ^ mag y).
    + assert (Hd : (0 <= mag y - fexp x)%Z) by lia.
      assert (B : (rne (x / 2 ^ fexp x) <= 2 ^ (mag y - fexp x))%Z).
      { apply rne_le_int. rewrite <- pow2_inject by assumption.
        rewrite pow2_sub. apply scale_le.
        apply Qle_trans with (2 ^ (mag x + 1)); [lra|]. apply pow2_le. lia. }
      rewrite Zle_Qle in B. rewrite <- pow2_inject in B by assumption.
      assert (S : 2 ^ mag y == 2 ^ (mag y - fexp x) * 2 ^ fexp x)
        by (rewrite <- pow2_add; f_equiv; lia).
      rewrite S. apply Qmult_le_compat_r; [assumption|].
      apply Qlt_le_weak, pow2_pos.
    + assert (B : (2 ^ 52 <= rne (y / 2 ^ fexp y))%Z).
      { apply rne_ge_int. rewrite <- pow2_inject by lia.
        replace 52%Z with (mag y - fexp y)%Z by lia.
        rewrite pow2_sub. apply scale_le. assumption. }
      rewrite Zle_Qle in B. rewrite <- pow2_inject in B by lia.
      assert (S : 2 ^ mag y == 2 ^ 52 * 2 ^ fexp y)
        by (rewrite <- pow2_add; f_equiv; lia).
      rewrite S. apply Qmult_le_compat_r; [assumption|].
      apply Qlt_le_weak, pow2_pos.
Qed.

Lemma rn_pos_nonneg x : 0 < x -> 0 <= rn_pos x.
Proof.
  intros Hx. unfold rn_pos. apply Qmult_le_0_compat.
  - change 0 with (inject_Z 0). rewrite <- Zle_Qle. apply rne_ge_int.
    apply Qle_shift_div_l; [apply pow2_pos|].
    change (inject_Z 0) with 0. rewrite Qmult_0_l. apply Qlt_le_weak. assumption.
  - apply Qlt_le_weak, pow2_pos.
Qed.

Lemma rn64_zero : rn64 0 = 0.
Proof. reflexivity. Qed.

Lemma rn64_nonneg x : 0 <= x -> 0 <= rn64 x.
Proof.
  intros Hx. unfold rn64.
  destruct (Qcompare_spec x 0) as [E|L|G].
  - apply Qle_refl.
  - exfalso. lra.
  - rewrite Qred_correct. apply rn_pos_nonneg. assumption.
Qed.

Lemma rn64_mono x y : 0 <= x -> x <= y -> rn64 x <= rn64 y.
Proof.
  intros Hx Hxy. unfold rn64 at 1.
  destruct (Qcompare_spec x 0) as [E|L|G].
  - apply rn64_nonneg. lra.
  - exfalso. lra.
  - unfold rn64. destruct (Qcompare_spec y 0) as [E'|L'|G']; try (exfalso; lra).
    rewrite !Qred_correct. apply rn_pos_mono; assumption.
Qed.


Lemma rne_nonneg x : 0 <= x -> (0 <= rne x)%Z.
Proof. intros H. apply rne_ge_int. assumption. Qed.

Lemma int_truediv_nonneg a b : 0 <= int_truediv a b.
Proof.
  apply rn64_nonneg. unfold Qdiv. apply Qmult_le_0_compat.
  - change 0 with (inject_Z 0). rewrite <- Zle_Qle. lia.
  - apply Qinv_le_0_compat. change 0 with (inject_Z 0). rewrite <- Zle_Qle. lia.
Qed.

Lemma int_truediv_mono a a' b : (a <= a')%nat -> int_truediv a b <= int_truediv a' b.
Proof.
  intros H. unfold int_truediv.
  assert (Hb : 0 <= / inject_Z (Z.of_nat b)).
  { apply Qinv_le_0_compat. change 0 with (inject_Z 0). rewrite <- Zle_Qle. lia. }
  apply rn64_mono.
  - unfold Qdiv. apply Qmult_le_0_compat; [|assumption].
    change 0 with (inject_Z 0). rewrite <- Zle_Qle. lia.
  - unfold Qdiv. apply Qmult_le_compat_r; [|assumption]. rewrite <- Zle_Qle. lia.
Qed.

Lemma int_truediv_zero b : int_truediv 0 b = 0.
Proof.
  unfold int_truediv, rn64.
  destruct (Qcompare_spec (inject_Z (Z.of_nat 0) / inject_Z (Z.of_nat b)) 0) as [E|L|G];
    [reflexivity| |]; exfalso; simpl in *; unfold Qdiv in *;
    rewrite Qmult_0_l in *; lra.
Qed.

Lemma lit_nonneg n d : (0 <= n)%Z -> 0 <= lit n d.
Proof. intros H. apply rn64_nonneg. unfold Qle. simpl. lia. Qed.

Lemma fmul_nonneg a b : 0 <= a -> 0 <= b -> 0 <= fmul a b.
Proof. intros. apply rn64_nonneg, Qmult_le_0_compat; assumption. Qed.

Lemma fmul_mono_r a b b' : 0 <= a -> 0 <= b -> b <= b' -> fmul a b <= fmul a b'.
Proof.
  intros Ha Hb H. apply rn64_mono.
  - apply Qmult_le_0_compat; assumption.
  - rewrite !(Qmult_comm a). apply Qmult_le_compat_r; assumption.
Qed.

Lemma fmul_zero_r a : fmul a 0 = 0.
Proof.
  unfold fmul, rn64.
  destruct (Qcompare_spec (a * 0) 0) as [E|L|G]; [reflexivity| |];
    exfalso; rewrite Qmult_0_r in *; lra.
Qed.

Lemma fadd_nonneg a b : 0 <= a -> 0 <= b -> 0 <= fadd a b.
Proof. intros. apply rn64_nonneg. lra. Qed.

Lemma fadd_mono a a' b b' :
  0 <= a -> 0 <= b -> a <= a' -> b <= b' -> fadd a b <= fadd a' b'.
Proof. intros. apply rn64_mono; lra. Qed.

Lemma fadd_zero : fadd 0 0 = 0.
Proof. reflexivity. Qed.

Lemma py_round_mono x y n : 0 <= x -> x <= y -> py_round x n <= py_round y n.
Proof.
  intros Hx Hxy. unfold py_round.
  set (p := inject_Z (10 ^ Z.of_nat n)).
  assert (Hp : 0 < p).
  { unfold p. change 0 with (inject_Z 0). rewrite <- Zlt_Qlt.
    apply Z.pow_pos_nonneg; lia. }
  assert (Hi : 0 <= / p) by (apply Qinv_le_0_compat; lra).
  apply rn64_mono.
  - unfold Qdiv. apply Qmult_le_0_compat; [|assumption].
    change 0 with (inject_Z 0). rewrite <- Zle_Qle. apply rne_nonneg.
    apply Qmult_le_0_compat; lra.
  - unfold Qdiv. apply Qmult_le_compat_r; [|assumption].
    rewrite <- Zle_Qle. apply rne_mono. apply Qmult_le_compat_r; lra.
Qed.

Lemma py_round_zero n : py_round 0 n = 0.
Proof.
  unfold py_round.
  assert (E : rne (0 * inject_Z (10 ^ Z.of_nat n)) = 0%Z).
  { unfold rne.
    assert (F : Qfloor (0 * inject_Z (10 ^ Z.of_nat n)) = 0%Z)
      by (rewrite Qmult_0_l; reflexivity).
    rewrite F.
    destruct (Qcompare_spec (0 * inject_Z (10 ^ Z.of_nat n) - inject_Z 0) (1 # 2))
      as [H|H|H]; try reflexivity; exfalso; rewrite Qmult_0_l in H;
      revert H; compute; congruence. }
  rewrite E. unfold rn64.
  destruct (Qcompare_spec (inject_Z 0 / inject_Z (10 ^ Z.of_nat n)) 0) as [H|H|H];
    [reflexivity| |]; exfalso; unfold Qdiv in H; change (inject_Z 0) with 0 in H;
    rewrite Qmult_0_l in H; lra.
Qed.


(** [rne x] is an integer nearest to [x]. *)
Lemma rne_near x : Qabs (inject_Z (rne x) - x) <= 1 # 2.
Proof.
  pose proof (Qfloor_le x) as Hlo. pose proof (Qlt_floor x) as Hhi.
  rewrite inject_Z_plus in Hhi. change (inject_Z 1) with 1 in Hhi.
  apply Qabs_Qle_condition. unfold rne.
  destruct (Qcompare_spec (x - inject_Z (Qfloor x)) (1 # 2)) as [E|L|G].
  - destruct (Z.even (Qfloor x)).
    + split; lra.
    + rewrite inject_Z_plus. change (inject_Z 1) with 1. split; lra.
  - split; lra.
  - rewrite inject_Z_plus. change (inject_Z 1) with 1. split; lra.
Qed.

(** The rounded value is a multiple [m * 2^e] of the unit in the last
    place with at most 53 significant bits, at most half a unit away. *)
Lemma rn_pos_spec x :
  0 < x ->
  exists m : Z,
    rn_pos x == inject_Z m * 2 ^ fexp x
    /\ (0 <= m <= 2 ^ 53)%Z
    /\ (-1074 <= fexp x)%Z
    /\ Qabs (rn_pos x - x) <= (1 # 2) * 2 ^ fexp x.
Proof.
  intros Hx. exists (rne (x / 2 ^ fexp x)).
  pose proof (pow2_pos (fexp x)) as Hp.
  destruct (mag_spec x Hx) as [_ Hhi].
  split; [reflexivity|]. split; [|split].
  - split.
    + apply rne_ge_int. apply Qle_shift_div_l; [assumption|].
      change (inject_Z 0) with 0. lra.
    + apply rne_le_int. rewrite <- pow2_inject by lia.
      apply Qle_shift_div_r; [assumption|]. rewrite <- pow2_add.
      apply Qle_trans with (2 ^ (mag x + 1)); [lra|].
      apply pow2_le. unfold fexp. lia.
  - unfold fexp. lia.
  - unfold rn_pos.
    pose proof (rne_near (x / 2 ^ fexp x)) as N.
    apply Qabs_Qle_condition in N. apply Qabs_Qle_condition.
    set (m := inject_Z (rne (x / 2 ^ fexp x))) in *.
    set (p := 2 ^ fexp x) in *.
    assert (E : x == x / p * p) by (field; lra).
    destruct N as [N1 N2].
    assert (A : (m - x / p) * p <= (1 # 2) * p)
      by (apply Qmult_le_compat_r; lra).
    assert (B : - (1 # 2) * p <= (m - x / p) * p)
      by (apply Qmult_le_compat_r; lra).
    split; lra.
Qed.

(** On every point of the grid, [B64] computes the value that the IEEE-754
    specification computes. *)
Lemma b64_agrees_with_ieee : forallb IEEE.agree IEEE.grid = true.
Proof. vm_compute. reflexivity. Qed.

(** The decimal [0.35] is read as [0x1.6666666666666p-2], that is
    [6305039478318694 * 2^-54]. *)
Lemma lit_35_100 : lit 35 100 = 3152519739159347 # 9007199254740992.
Proof. vm_compute. reflexivity. Qed.

End B64Facts.

(** ** The hypothesis scorer *)

Module ScorerFacts.
Import B64 B64Facts Scorer Samples.


Lemma insert_desc_perm x l : Permutation (insert_desc x l) (x :: l).
Proof.
  induction l as [|y ys IH]; simpl; [reflexivity|].
  destruct (Qle_bool (snd y) (snd x)); [reflexivity|].
  rewrite IH. apply perm_swap.
Qed.

Lemma sort_desc_perm l : Permutation (sort_desc l) l.
Proof.
  induction l as [|x xs IH]; simpl; [reflexivity|].
  rewrite insert_desc_perm. apply perm_skip, IH.
Qed.

Lemma score_loop_In hypotheses signals h c :
  In (h, c) (score_loop hypotheses signals) <->
  In h hypotheses /\ list_to_set (required_signals h) ≠ (∅ : gset string)
  /\ c = hypothesis_score h signals.
Proof.
  induction hypotheses as [|h0 rest IH]; simpl.
  - tauto.
  - destruct (decide (list_to_set (required_signals h0) = (∅ : gset string))) as [E|N]; simpl.
    + rewrite IH. split.
      * intros (A & B & C). auto.
      * intros ([->|A] & B & C); [contradiction|auto].
    + rewrite IH. split.
      * intros [Heq|(A & B & C)]; [inversion Heq; subst; auto|auto].
      * intros ([->|A] & B & C); [left; subst; reflexivity|right; auto].
Qed.

Lemma score_hypotheses_In hypotheses signals h c :
  In (h, c) (score_hypotheses hypotheses signals) <->
  In h hypotheses /\ list_to_set (required_signals h) ≠ (∅ : gset string)
  /\ c = hypothesis_score h signals.
Proof.
  rewrite <- score_loop_In. unfold score_hypotheses.
  split; apply Permutation_in; [|symmetry]; apply sort_desc_perm.
Qed.

Lemma score_loop_length hypotheses signals :
  length (score_loop hypotheses signals) =
  length (filter (fun h => list_to_set (required_signals h) ≠ (∅ : gset string)) hypotheses).
Proof.
  induction hypotheses as [|h0 rest IH]; simpl; [reflexivity|].
  rewrite filter_cons.
  destruct (decide (list_to_set (required_signals h0) = (∅ : gset string))) as [E|N].
  - rewrite decide_False by (intros X; apply X, E). exact IH.
  - rewrite decide_True by assumption. simpl. f_equal. exact IH.
Qed.

Lemma hypothesis_score_mono h (S S' : gset string) :
  S ⊆ S' -> (hypothesis_score h S <= hypothesis_score h S')%Q.
Proof.
  intros Hsub. unfold hypothesis_score.
  set (required := list_to_set (required_signals h) : gset string).
  set (supporting := list_to_set (supporting_signals h) : gset string).
  assert (Hr : size (required ∩ S) <= size (required ∩ S')).
  { apply subseteq_size, intersection_mono_l, Hsub. }
  assert (Hs : size (supporting ∩ S) <= size (supporting ∩ S')).
  { apply subseteq_size, intersection_mono_l, Hsub. }
  assert (H7 : (0 <= lit 7 10)%Q) by (apply lit_nonneg; lia).
  assert (H3 : (0 <= lit 3 10)%Q) by (apply lit_nonneg; lia).
  apply py_round_mono.
  - apply fadd_nonneg; apply fmul_nonneg; try assumption.
    + apply int_truediv_nonneg.
    + destruct (decide (supporting = ∅)); [apply Qle_refl|apply int_truediv_nonneg].
  - apply fadd_mono.
    + apply fmul_nonneg; [assumption|apply int_truediv_nonneg].
    + apply fmul_nonneg; [assumption|].
      destruct (decide (supporting = ∅)); [apply Qle_refl|apply int_truediv_nonneg].
    + apply fmul_mono_r; [assumption|apply int_truediv_nonneg|].
      apply int_truediv_mono. assumption.
    + apply fmul_mono_r; [assumption| |].
      * destruct (decide (supporting = ∅)); [apply Qle_refl|apply int_truediv_nonneg].
      * destruct (decide (supporting = ∅)); [apply Qle_refl|].
        apply int_truediv_mono. assumption.
Qed.

Lemma hypothesis_score_unmatched h (S : gset string) :
  list_to_set (required_signals h) ∩ S = (∅ : gset string) ->
  list_to_set (supporting_signals h) ∩ S = (∅ : gset string) ->
  hypothesis_score h S = 0%Q.
Proof.
  intros Hr Hs. unfold hypothesis_score. rewrite Hr, Hs, size_empty.
  rewrite !int_truediv_zero.
  assert (E : (if decide (list_to_set (supporting_signals h) = (∅ : gset string))
               then 0%Q else 0%Q) = 0%Q) by (destruct (decide _); reflexivity).
  rewrite E, !fmul_zero_r, fadd_zero. apply py_round_zero.
Qed.

Local Open Scope string_scope.

(** C1. For every signal set and every hypothesis [h] of the library,
    [score_hypotheses] returns an entry for [h] exactly when the
    required-signal set of [h] is not empty, and the confidence of every
    such entry is [0.7 * (|required ∩ S| / |required|) + 0.3 *
    (|supporting ∩ S| / |supporting|, or 0 when supporting is empty)]
    rounded to 3 decimals. In particular, with required signals [{A, B}],
    supporting signals [{C}] and observed signals [{A}] the confidence is
    the float [0.35]. *)
Theorem C1_score_hypotheses_formula
    (hypotheses : list HypothesisEntry) (signals : gset string) (h : HypothesisEntry) :
  In h hypotheses ->
  let required : gset string := list_to_set (required_signals h) in
  let supporting : gset string := list_to_set (supporting_signals h) in
  ((exists c, In (h, c) (score_hypotheses hypotheses signals)) <-> required ≠ ∅)
  /\ (forall c, In (h, c) (score_hypotheses hypotheses signals) ->
        c = py_round
              (fadd (fmul (lit 7 10)
                          (int_truediv (size (required ∩ signals)) (size required)))
                    (fmul (lit 3 10)
                          (if decide (supporting = ∅) then 0%Q
                           else int_truediv (size (supporting ∩ signals))
                                            (size supporting))))
              3)
  /\ (forall A B C : string,
        A <> B -> C <> A -> required = {[A; B]} -> supporting = {[C]} ->
        In (h, lit 35 100) (score_hypotheses hypotheses {[A]})).
Proof.
  intros Hin required supporting. repeat split.
  - intros [c Hc]. apply score_hypotheses_In in Hc. tauto.
  - intros Hne. exists (hypothesis_score h signals).
    apply score_hypotheses_In. auto.
  - intros c Hc. apply score_hypotheses_In in Hc.
    destruct Hc as (_ & _ & ->). reflexivity.
  - intros A B C HAB HCA Hr Hs. apply score_hypotheses_In.
    split; [assumption|]. split.
    + fold required. rewrite Hr. set_solver.
    + unfold hypothesis_score. fold required. fold supporting. rewrite Hr, Hs.
      assert (E1 : ({[A; B]} : gset string) ∩ {[A]} = {[A]}) by set_solver.
      assert (E2 : ({[C]} : gset string) ∩ {[A]} = ∅) by set_solver.
      rewrite E1, E2, size_empty, !size_singleton.
      rewrite size_union by set_solver. rewrite !size_singleton.
      destruct (decide (({[C]} : gset string) = ∅)) as [E|_]; [set_solver|].
      vm_compute. reflexivity.
Qed.

Lemma C1_score_hypotheses_formula_witness :
  In h_scenario [h_scenario]
  /\ In (h_scenario, lit 35 100) (score_hypotheses [h_scenario] {["A"]}).
Proof.
  assert (Hin : In h_scenario [h_scenario]) by (left; reflexivity).
  split; [exact Hin|].
  destruct (C1_score_hypotheses_formula [h_scenario] ∅ h_scenario Hin) as (_ & _ & H).
  apply (H "A" "B" "C"); [discriminate | discriminate | |]; simpl; set_solver.
Defined.

(** C7. Scoring is monotone in the observed signal set: for every signal
    set [S], every signal [x] outside [S] and every hypothesis [h] of the
    library, the confidence given to [h] under [S ∪ {x}] is at least the
    confidence given to it under [S] (and [h] is scored under the one
    exactly when it is scored under the other). *)
Theorem C7_score_hypotheses_monotone
    (hypotheses : list HypothesisEntry) (S : gset string) (x : string)
    (h : HypothesisEntry) :
  x ∉ S -> In h hypotheses ->
  ((exists c, In (h, c) (score_hypotheses hypotheses S)) <->
   (exists c', In (h, c') (score_hypotheses hypotheses ({[x]} ∪ S))))
  /\ (forall c c',
        In (h, c) (score_hypotheses hypotheses S) ->
        In (h, c') (score_hypotheses hypotheses ({[x]} ∪ S)) ->
        (c <= c')%Q).
Proof.
  intros _ Hin. split.
  - split; intros [c Hc]; apply score_hypotheses_In in Hc;
      destruct Hc as (_ & Hne & _); eexists; apply score_hypotheses_In; eauto.
  - intros c c' Hc Hc'.
    apply score_hypotheses_In in Hc. apply score_hypotheses_In in Hc'.
    destruct Hc as (_ & _ & ->). destruct Hc' as (_ & _ & ->).
    apply hypothesis_score_mono. apply union_subseteq_r.
Qed.

Lemma C7_score_hypotheses_monotone_witness :
  ("B" ∉ ({["A"]} : gset string)) /\ In h_scenario [h_scenario]
  /\ (lit 35 100 <= lit 7 10)%Q.
Proof.
  assert (Hx : "B" ∉ ({["A"]} : gset string)) by set_solver.
  assert (Hin : In h_scenario [h_scenario]) by (left; reflexivity).
  split; [exact Hx|]. split; [exact Hin|].
  destruct (C7_score_hypotheses_monotone [h_scenario] {["A"]} "B" h_scenario Hx Hin)
    as [_ H].
  apply H; apply score_hypotheses_In; (split; [exact Hin|]);
    (split; [simpl; set_solver|]).
  - vm_compute. reflexivity.
  - unfold hypothesis_score. simpl.
    assert (E1 : ({["A"; "B"]} ∪ ∅ : gset string) ∩ ({["B"]} ∪ {["A"]}) = {["A"; "B"]})
      by set_solver.
    assert (E2 : ({["C"]} ∪ ∅ : gset string) ∩ ({["B"]} ∪ {["A"]}) = ∅) by set_solver.
    vm_compute. reflexivity.
Defined.

(** C9. For every signal set, the empty one included, [score_hypotheses]
    returns one entry per library hypothesis whose required-signal set is
    not empty: the output is as long as the list of those hypotheses, and
    a hypothesis none of whose signals is observed is returned with
    confidence [0.0] rather than dropped. *)
Theorem C9_score_hypotheses_length
    (hypotheses : list HypothesisEntry) (signals : gset string) :
  length (score_hypotheses hypotheses signals)
  = length (filter (fun h => list_to_set (required_signals h) ≠ (∅ : gset string))
                   hypotheses)
  /\ (forall h,
        In h hypotheses ->
        list_to_set (required_signals h) ≠ (∅ : gset string) ->
        list_to_set (required_signals h) ∩ signals = ∅ ->
        list_to_set (supporting_signals h) ∩ signals = ∅ ->
        In (h, 0%Q) (score_hypotheses hypotheses signals))
  /\ (forall h,
        In h hypotheses ->
        list_to_set (required_signals h) ≠ (∅ : gset string) ->
        In (h, 0%Q) (score_hypotheses hypotheses ∅)).
Proof.
  repeat split.
  - unfold score_hypotheses.
    rewrite (Permutation_length (sort_desc_perm _)). apply score_loop_length.
  - intros h Hin Hne Hr Hs. apply score_hypotheses_In.
    repeat split; try assumption. symmetry. apply hypothesis_score_unmatched; assumption.
  - intros h Hin Hne. apply score_hypotheses_In.
    repeat split; try assumption. symmetry.
    apply hypothesis_score_unmatched; apply intersection_empty_r_L.
Qed.

Lemma C9_score_hypotheses_length_witness :
  length (score_hypotheses [h_scenario] {["Z"]}) = 1
  /\ In (h_scenario, 0%Q) (score_hypotheses [h_scenario] {["Z"]}).
Proof.
  destruct (C9_score_hypotheses_length [h_scenario] {["Z"]}) as (Hlen & H & _).
  split.
  - rewrite Hlen. reflexivity.
  - apply H; [left; reflexivity | | |]; simpl; set_solver.
Defined.

End ScorerFacts.

(** ** The safety validator *)

Module ValidatorFacts.
Import PyStr Validator.
Local Open Scope string_scope.


Lemma is_space_upper_char c : is_space (upper_char c) = is_space c.
Proof. destruct c as [[] [] [] [] [] [] [] []]; reflexivity. Qed.

Lemma upper_app a b : upper (a ++ b) = upper a ++ upper b.
Proof. induction a as [|c a IH]; simpl; [reflexivity|]. rewrite IH. reflexivity. Qed.

Lemma is_empty_upper s : is_empty (upper s) = is_empty s.
Proof. destruct s; reflexivity. Qed.

Lemma flush_upper cur : flush (upper cur) = map upper (flush cur).
Proof. unfold flush. rewrite is_empty_upper. destruct (is_empty cur); reflexivity. Qed.

Lemma split_from_upper s : forall cur,
  split_from (upper cur) (upper s) = map upper (split_from cur s).
Proof.
  induction s as [|c s IH]; intros cur; simpl.
  - apply flush_upper.
  - rewrite is_space_upper_char. destruct (is_space c).
    + rewrite map_app, flush_upper. f_equal. apply (IH "").
    + rewrite <- IH, upper_app. reflexivity.
Qed.

Lemma split_upper s : split (upper s) = map upper (split s).
Proof. apply (split_from_upper s ""). Qed.

Lemma split_from_rstrip s : forall cur, split_from cur (rstrip s) = split_from cur s.
Proof.
  induction s as [|c s IH]; intros cur; simpl; [reflexivity|].
  destruct (is_space c) eqn:Hc; simpl.
  - destruct (is_empty (rstrip s)) eqn:He; simpl.
    + rewrite <- (IH ""). destruct (rstrip s); [|discriminate].
      simpl. rewrite app_nil_r. reflexivity.
    + rewrite Hc, IH. reflexivity.
  - rewrite Hc. apply IH.
Qed.

Lemma split_lstrip s : split (lstrip s) = split s.
Proof.
  unfold split. induction s as [|c s IH]; simpl; [reflexivity|].
  destruct (is_space c) eqn:Hc; simpl.
  - exact IH.
  - rewrite Hc. reflexivity.
Qed.

Lemma split_strip s : split (strip s) = split s.
Proof. unfold strip. rewrite split_lstrip. apply (split_from_rstrip s ""). Qed.

Lemma mem_In x l : mem x l = true <-> In x l.
Proof.
  unfold mem. rewrite existsb_exists. split.
  - intros (y & Hy & E). apply String.eqb_eq in E. subst. assumption.
  - intros H. exists x. split; [assumption|apply String.eqb_refl].
Qed.

Lemma dangerous_upper keyword : In keyword DANGEROUS_KEYWORDS -> upper keyword = keyword.
Proof.
  unfold DANGEROUS_KEYWORDS. simpl.
  intros H. repeat (destruct H as [<-|H]; [reflexivity|]). contradiction.
Qed.

(** [validate_query] accepts exactly the statements without a dangerous
    token that begin with SELECT or WITH. *)
Lemma validate_query_spec sql :
  validate_query sql = true <->
  (forall keyword, In keyword DANGEROUS_KEYWORDS ->
                   ~ In keyword (split (strip (upper sql))))
  /\ (startswith (strip (upper sql)) "SELECT" = true
      \/ startswith (strip (upper sql)) "WITH" = true).
Proof.
  unfold validate_query.
  destruct (existsb _ DANGEROUS_KEYWORDS) eqn:Ek.
  - split; [discriminate|]. intros [Hno _]. exfalso.
    apply existsb_exists in Ek. destruct Ek as (k & Hk & Hm).
    apply mem_In in Hm. exact (Hno k Hk Hm).
  - assert (Hno : forall keyword, In keyword DANGEROUS_KEYWORDS ->
                    ~ In keyword (split (strip (upper sql)))).
    { intros k Hk Hin. apply mem_In in Hin.
      assert (existsb (fun keyword => mem keyword (split (strip (upper sql))))
                DANGEROUS_KEYWORDS = true) as X
        by (apply existsb_exists; exists k; auto).
      congruence. }
    destruct (startswith (strip (upper sql)) "SELECT");
      destruct (startswith (strip (upper sql)) "WITH"); simpl;
      split; auto; try discriminate; intros [_ [?|?]]; discriminate.
Qed.

Lemma validate_query_token sql keyword :
  In keyword DANGEROUS_KEYWORDS -> In keyword (split (strip (upper sql))) ->
  validate_query sql = false.
Proof.
  intros Hk Hin. destruct (validate_query sql) eqn:E; [|reflexivity].
  apply validate_query_spec in E. destruct E as [Hno _]. exfalso. exact (Hno _ Hk Hin).
Qed.

Lemma validate_query_raw_token sql keyword :
  In keyword DANGEROUS_KEYWORDS -> In keyword (split sql) ->
  validate_query sql = false.
Proof.
  intros Hk Hin. apply (validate_query_token sql keyword Hk).
  rewrite split_strip, split_upper, <- (dangerous_upper keyword Hk).
  apply in_map. assumption.
Qed.

Lemma validate_query_prefix sql :
  startswith (strip (upper sql)) "SELECT" = false ->
  startswith (strip (upper sql)) "WITH" = false ->
  validate_query sql = false.
Proof.
  intros H1 H2. destruct (validate_query sql) eqn:E; [|reflexivity].
  apply validate_query_spec in E. destruct E as [_ [E|E]]; congruence.
Qed.

End ValidatorFacts.

(** ** The orchestrator *)

Module OrchestratorFacts.
Import PyStr Frame Executor Validator ValidatorFacts Orchestrator Samples.
Local Open Scope string_scope.


Lemma process_query_blocked w self user_query conversation_id sql :
  route w self user_query conversation_id = Router.data ->
  translate_with_retry w user_query (_get_history self conversation_id) = inr sql ->
  validate_query sql = false ->
  process_query w self user_query conversation_id
  = (self, blocked_result w user_query sql, VALIDATION_BLOCKED).
Proof.
  intros Hr Ht Hv. unfold process_query. rewrite Hr, Ht, Hv. reflexivity.
Qed.

(** What the gate does reject: [validate_query] returns [False] whenever
    a destructive keyword (DROP, DELETE, UPDATE, INSERT, ALTER, TRUNCATE,
    CREATE, REPLACE) is one of the white-space separated tokens of the
    upper-cased statement, or of the statement as written, and whenever
    the statement does not begin with SELECT or WITH. In particular it
    rejects ["DROP TABLE transactions"], and when the translation step
    hands that text to the orchestrator, [process_query] returns the
    validation-blocked result with the engine state untouched and
    whatever the analytical engine would have answered. *)
Lemma validation_gate_on_tokens :
  (forall sql,
     (exists keyword, In keyword DANGEROUS_KEYWORDS
                      /\ In keyword (split (strip (upper sql))))
     \/ (startswith (strip (upper sql)) "SELECT" = false
         /\ startswith (strip (upper sql)) "WITH" = false) ->
     validate_query sql = false)
  /\ (forall sql keyword,
        In keyword DANGEROUS_KEYWORDS -> In keyword (split sql) ->
        validate_query sql = false)
  /\ validate_query "DROP TABLE transactions" = false
  /\ (forall w self user_query conversation_id,
        route w self user_query conversation_id = Router.data ->
        translate_with_retry w user_query (_get_history self conversation_id)
        = inr "DROP TABLE transactions" ->
        process_query w self user_query conversation_id
        = (self, blocked_result w user_query "DROP TABLE transactions",
           VALIDATION_BLOCKED)
        /\ forall conn',
            process_query (with_conn w conn') self user_query conversation_id
            = process_query w self user_query conversation_id).
Proof.
  split; [|split; [|split]].
  - intros sql [(k & Hk & Hin)|[H1 H2]].
    + exact (validate_query_token sql k Hk Hin).
    + exact (validate_query_prefix sql H1 H2).
  - intros sql k Hk Hin. exact (validate_query_raw_token sql k Hk Hin).
  - reflexivity.
  - intros w self user_query conversation_id Hr Ht.
    assert (E := process_query_blocked w self user_query conversation_id _ Hr Ht eq_refl).
    split; [exact E|].
    intros conn'. rewrite E.
    apply (process_query_blocked (with_conn w conn')); [exact Hr | exact Ht | reflexivity].
Qed.

Lemma validation_gate_on_tokens_example :
  (process_query (stub "DROP TABLE transactions") engine0 "total payments count?" None).2
  = VALIDATION_BLOCKED
  /\ validate_query "select * from t where DROP = 1" = false.
Proof.
  destruct validation_gate_on_tokens as (_ & Htok & _ & Hrun). split.
  - destruct (Hrun (stub "DROP TABLE transactions") engine0 "total payments count?" None)
      as [E _]; [reflexivity | reflexivity |].
    rewrite E. reflexivity.
  - apply (Htok _ "DROP"); [left; reflexivity|].
    vm_compute. tauto.
Defined.


Lemma append_bounded_last {A} (l : list A) (x : A) :
  last (append_bounded _max_history l x) = Some x.
Proof.
  unfold append_bounded.
  destruct (_max_history <? length (l ++ [x]))%nat eqn:E.
  - apply Nat.ltb_lt in E. rewrite length_app in E. simpl in E.
    destruct l as [|y l]; [unfold _max_history in E; simpl in E; lia|].
    simpl. apply last_snoc.
  - apply last_snoc.
Qed.

Lemma handle_general_conversations w self user_query conversation_id :
  _conversations (_handle_general_query w self user_query conversation_id).1
  = _conversations self.
Proof.
  unfold _handle_general_query.
  destruct (chat_completion w _); [|reflexivity].
  destruct conversation_id as [id|]; [|reflexivity].
  simpl. destruct (negb (is_empty id)); reflexivity.
Qed.

Lemma save_to_history_falsy self conversation_id user_query sql :
  truthy conversation_id = false ->
  _save_to_history self conversation_id user_query sql = self.
Proof.
  intros H. unfold _save_to_history.
  destruct conversation_id as [id|]; [|reflexivity]. rewrite H. reflexivity.
Qed.

(** C6 (amended). The data-track history of a conversation gains the
    [{user_query, sql}] entry exactly when the run reaches SUCCESS and a
    non-empty conversation id was passed: on every other terminal, and
    whenever the id is missing or empty, the data history map is left as
    it was. *)
Theorem C6_history_on_success
    (w : Collaborators) (self : InsightXEngine)
    (user_query : string) (conversation_id : option string) :
  let out := process_query w self user_query conversation_id in
  let self' := out.1.1 in
  let result := out.1.2 in
  let terminal := out.2 in
  (terminal <> SUCCESS -> _conversations self' = _conversations self)
  /\ (truthy conversation_id = false -> _conversations self' = _conversations self)
  /\ (forall id,
        terminal = SUCCESS -> conversation_id = Some id -> id <> "" ->
        exists sql entries,
          r_sql result = Some sql
          /\ _conversations self' = <[id := entries]> (_conversations self)
          /\ entries = append_bounded _max_history
                         (default [] (_conversations self !! id))
                         {| user_query := user_query; sql := sql |}
          /\ last entries = Some {| user_query := user_query; sql := sql |}).
Proof.
  unfold process_query.
  destruct (route w self user_query conversation_id).
  2:{ pose proof (handle_general_conversations w self user_query conversation_id) as G.
      destruct (_handle_general_query w self user_query conversation_id) as [s r].
      simpl in *. repeat split; auto. discriminate. }
  destruct (translate_with_retry w user_query (_get_history self conversation_id))
    as [[e]|sql].
  { simpl. repeat split; auto. discriminate. }
  destruct (validate_query sql); simpl.
  2:{ repeat split; auto. discriminate. }
  destruct (execute (conn w) (executor self) sql true) as [ex [[e]|df]].
  { simpl. repeat split; auto. discriminate. }
  destruct (extract_signals w df user_query) as [signals|]; simpl.
  - split; [intros H; contradiction|]. split.
    + intros F. rewrite save_to_history_falsy by assumption. reflexivity.
    + intros id _ -> Hid. exists sql. eexists. split; [reflexivity|].
      unfold _save_to_history.
      assert (T : truthy (Some id) = true) by (destruct id; [contradiction|reflexivity]).
      rewrite T. simpl. split; [reflexivity|]. split; [reflexivity|].
      apply append_bounded_last.
  - split; [intros H; contradiction|]. split.
    + intros F. rewrite save_to_history_falsy by assumption. reflexivity.
    + intros id _ -> Hid. exists sql. eexists. split; [reflexivity|].
      unfold _save_to_history.
      assert (T : truthy (Some id) = true) by (destruct id; [contradiction|reflexivity]).
      rewrite T. simpl. split; [reflexivity|]. split; [reflexivity|].
      apply append_bounded_last.
Qed.

Lemma C6_history_on_success_witness :
  exists entries,
    _conversations
      (process_query (stub "SELECT 1") engine0 "total payments count?" (Some "c1")).1.1
    = <[ "c1" := entries ]> (_conversations engine0)
    /\ last entries = Some {| user_query := "total payments count?"; sql := "SELECT 1" |}.
Proof.
  destruct (C6_history_on_success (stub "SELECT 1") engine0 "total payments count?"
              (Some "c1")) as (_ & _ & H).
  destruct (H "c1") as (sql & entries & Hsql & Hconv & _ & Hlast);
    [reflexivity | reflexivity | discriminate |].
  exists entries. split; [exact Hconv|].
  assert (sql = "SELECT 1") as <- by (vm_compute in Hsql; congruence).
  exact Hlast.
Defined.

(** C6 as stated fails: a run without conversation id reaches SUCCESS and
    no history gains an entry. *)
Lemma C6_counterexample :
  let out := process_query (stub "SELECT 1") engine0 "total payments count?" None in
  out.2 = SUCCESS /\ _conversations out.1.1 = _conversations engine0.
Proof. vm_compute. split; reflexivity. Qed.

End OrchestratorFacts.

(** ** The router *)

Module RouterFacts.
Import PyStr Router.
Local Open Scope string_scope.


(** A GENERAL verdict of the keyword step is overridden whenever the
    conversation has data history and the message is a short question. *)
Lemma classify_general_with_history completion user_query :
  _keyword_classify (strip (lower user_query)) = Some general ->
  (length (split (strip (lower user_query))) <= 10)%nat ->
  contains "?" (strip (lower user_query)) = true ->
  classify completion user_query true = data.
Proof.
  intros Hk Hlen Hq. unfold classify. rewrite Hk, Hq.
  destruct (_is_followup (strip (lower user_query))); simpl; [reflexivity|].
  apply Nat.leb_le in Hlen. rewrite Hlen. reflexivity.
Qed.

(** C5. When the keyword step of the router reaches a GENERAL verdict
    although at least one DATA phrase occurs in the message, prior data
    context exists, the message has at most 10 words and contains a
    question mark, [classify] returns DATA. *)
Theorem C5_general_verdict_overridden (completion : option string) (user_query : string) :
  let query_lower := strip (lower user_query) in
  _keyword_classify query_lower = Some general ->
  (1 <= data_score query_lower)%nat ->
  (length (split query_lower) <= 10)%nat ->
  contains "?" query_lower = true ->
  classify completion user_query true = data.
Proof.
  intros query_lower Hk _ Hlen Hq.
  apply classify_general_with_history; assumption.
Qed.

Lemma C5_general_verdict_overridden_witness :
  classify (Some "GENERAL") "Hello, total?" true = data
  /\ classify (Some "GENERAL") "Hello, total?" false = general.
Proof.
  split.
  - apply C5_general_verdict_overridden.
    + reflexivity.
    + vm_compute. lia.
    + vm_compute. lia.
    + reflexivity.
  - reflexivity.
Defined.

End RouterFacts.

(** ** The executor *)

Module ExecutorFacts.
Import Frame Executor B64 Samples.
Local Open Scope string_scope.


(** C10. When [execute] raises, the recorded last-execution latency is
    the elapsed time of the failed attempt while the recorded row count
    and the cache are the ones from before the call, so that
    [get_execution_stats] reports the latency of the failed attempt next
    to the row count of the last execution that returned a table. *)
Theorem C10_failed_execution_frame
    (conn : Engine) (self self' : SQLExecutor) (sql : string) (use_cache : bool)
    (err : QueryExecutionError) :
  execute conn self sql use_cache = (self', inl err) ->
  exists is_duckdb_error e elapsed_ms,
    conn (conn_calls self) sql = Failed is_duckdb_error e elapsed_ms
    /\ _last_execution_time_ms self' = elapsed_ms
    /\ _last_rows_returned self' = _last_rows_returned self
    /\ _query_cache self' = _query_cache self
    /\ get_execution_stats self'
       = {| time_ms := py_round elapsed_ms 2;
            rows_returned := _last_rows_returned self;
            cache_size := size (_query_cache self) |}.
Proof.
  unfold execute. intros H.
  destruct (if use_cache then _query_cache self !! sql else None); [discriminate|].
  destruct (conn (conn_calls self) sql) as [df ms|d e ms]; [discriminate|].
  inversion H; subst. exists d, e, ms. repeat split; reflexivity.
Qed.

(** C4 (amended). With caching enabled, if the first execution of a SQL
    text returns a table and, when it starts, the text is already cached
    or the cache holds fewer than 50 entries, then the second execution
    returns the same table, records latency zero and the row count of
    that table, and does not reach the analytical engine. *)
Theorem C4_cache_round_trip
    (conn : Engine) (self self1 : SQLExecutor) (sql : string) (df1 : DataFrame) :
  execute conn self sql true = (self1, inr df1) ->
  is_Some (_query_cache self !! sql) \/ (size (_query_cache self) < _cache_max_size)%nat ->
  exists self2,
    execute conn self1 sql true = (self2, inr df1)
    /\ _last_execution_time_ms self2 = 0%Q
    /\ _last_rows_returned self2 = n_rows df1
    /\ conn_calls self2 = conn_calls self1
    /\ _query_cache self2 = _query_cache self1.
Proof.
  unfold execute at 1. simpl. intros H Hroom.
  destruct (_query_cache self !! sql) as [cached|] eqn:Hc.
  - inversion H; subst. unfold execute. simpl. rewrite Hc.
    eexists. repeat split; reflexivity.
  - destruct Hroom as [[x Hx]|Hroom]; [discriminate|].
    destruct (conn (conn_calls self) sql) as [df ms|d e ms]; [|discriminate].
    apply Nat.ltb_lt in Hroom. rewrite Hroom in H.
    inversion H; subst. unfold execute. simpl. rewrite lookup_insert_eq.
    eexists. repeat split; reflexivity.
Qed.


Lemma C4_cache_round_trip_witness :
  exists self1 self2,
    execute engine_drift Executor.init "SELECT 1" true = (self1, inr df_plain)
    /\ execute engine_drift self1 "SELECT 1" true = (self2, inr df_plain)
    /\ _last_execution_time_ms self2 = 0%Q.
Proof.
  eexists. 
  assert (H1 : execute engine_drift Executor.init "SELECT 1" true
               = ((execute engine_drift Executor.init "SELECT 1" true).1, inr df_plain))
    by reflexivity.
  destruct (C4_cache_round_trip engine_drift Executor.init _ "SELECT 1" df_plain H1)
    as (self2 & H2 & Ht & _).
  { right. vm_compute. lia. }
  exists self2. split; [exact H1|]. split; [exact H2|exact Ht].
Defined.

(** C4 as stated fails once the cache is full: the second execution of
    the text goes to the engine again, may return another table, and
    records the latency of that run. *)
Lemma C4_counterexample :
  let first := execute engine_drift full_executor "SELECT 0" true in
  let second := execute engine_drift first.1 "SELECT 0" true in
  size (_query_cache full_executor) = 50
  /\ first.2 = inr df_plain
  /\ second.2 = inr df_other
  /\ df_plain <> df_other
  /\ _last_execution_time_ms second.1 = 7%Q
  /\ ~ (7 == 0)%Q
  /\ conn_calls second.1 = S (conn_calls first.1).
Proof.
  vm_compute. repeat split; try reflexivity; discriminate.
Qed.

Lemma C10_failed_execution_frame_witness :
  get_execution_stats (execute engine_failing full_executor "SELECT 0" true).1
  = {| time_ms := 3; rows_returned := 1; cache_size := 50 |}.
Proof.
  destruct (C10_failed_execution_frame engine_failing full_executor
              (execute engine_failing full_executor "SELECT 0" true).1
              "SELECT 0" true
              (QueryExecutionError_ "Query execution failed: Parser Error: syntax error")
              eq_refl)
    as (d & e & ms & Hc & _ & _ & _ & Hs).
  rewrite Hs. inversion Hc; subst. vm_compute. reflexivity.
Defined.

End ExecutorFacts.

(** ** The signal detector *)

Module DetectorFacts.
Import PyStr Frame Detector Samples.
Local Open Scope string_scope.


Lemma add_if_true name (signals : gset string) : name ∈ add_if true name signals.
Proof. unfold add_if. apply elem_of_union_l, elem_of_singleton. reflexivity. Qed.

Lemma add_if_keeps cond name x (signals : gset string) :
  x ∈ signals -> x ∈ add_if cond name signals.
Proof. intros H. unfold add_if. destruct cond; [apply elem_of_union_r|]; exact H. Qed.

Lemma extract_signals_empty df query_context :
  empty df = true -> extract_signals df query_context = Some ∅.
Proof. intros H. unfold extract_signals. rewrite H. reflexivity. Qed.

(** C3 (amended). For every query text, an empty result table yields the
    empty signal set. *)
Theorem C3_empty_table_no_signal (df : DataFrame) (query_context : string) :
  empty df = true -> extract_signals df query_context = Some ∅.
Proof. apply extract_signals_empty. Qed.

Lemma C3_empty_table_no_signal_witness :
  extract_signals df_empty "which bank has the highest fraud risk?" = Some ∅.
Proof. apply C3_empty_table_no_signal. reflexivity. Defined.

(** C3 as stated fails from right to left: a table with one row on which
    no rule fires yields the empty signal set. *)
Lemma C3_counterexample :
  extract_signals df_plain "hello" = Some ∅ /\ empty df_plain = false.
Proof. vm_compute. split; reflexivity. Qed.

(** C8 (amended). For every non-empty result table on which detection
    returns, and every query text whose lower-cased form contains
    ['fraud'], ['flag'] or ['risk'], the detected signal set contains
    FRAUD_CONCENTRATION. *)
Theorem C8_fraud_vocabulary (df : DataFrame) (query_context : string)
    (signals : gset string) :
  empty df = false ->
  contains "fraud" (lower query_context) || contains "flag" (lower query_context)
  || contains "risk" (lower query_context) = true ->
  extract_signals df query_context = Some signals ->
  "FRAUD_CONCENTRATION" ∈ signals.
Proof.
  intros Hne Hq. unfold extract_signals. rewrite Hne, Hq.
  destruct (if negb _ && in_columns df "transaction_status" then _ else _)
    as [status|]; simpl; [|discriminate].
  destruct (if in_columns df "transaction_type" then _ else _)
    as [external|]; simpl; [|discriminate].
  intros E. inversion E; subst. apply add_if_keeps, add_if_true.
Qed.

Lemma C8_fraud_vocabulary_witness :
  extract_signals df_plain "Any FRAUD here?" = Some {[ "FRAUD_CONCENTRATION" ]}
  /\ "FRAUD_CONCENTRATION" ∈ ({[ "FRAUD_CONCENTRATION" ]} : gset string).
Proof.
  assert (E : extract_signals df_plain "Any FRAUD here?" = Some {[ "FRAUD_CONCENTRATION" ]})
    by (vm_compute; reflexivity).
  split; [exact E|].
  apply (C8_fraud_vocabulary df_plain "Any FRAUD here?"); [reflexivity | reflexivity | exact E].
Defined.

(** C8 as stated fails on the empty table: the guard on [df.empty]
    returns the empty set before the text is looked at. *)
Lemma C8_counterexample :
  contains "fraud" (lower "fraud by bank") = true
  /\ extract_signals df_empty "fraud by bank" = Some ∅
  /\ "FRAUD_CONCENTRATION" ∉ (∅ : gset string).
Proof.
  split; [reflexivity|]. split; [reflexivity|]. apply not_elem_of_empty.
Qed.

End DetectorFacts.

(** ** More on the hypothesis scorer *)

Module ScorerExtra.
Import B64 B64Facts Scorer ScorerFacts.
Local Open Scope Q_scope.

(** *** [rn64] depends on the value only *)

Lemma mag_unique x k : 0 < x -> 2 ^ k <= x -> x < 2 ^ (k + 1) -> mag x = k.
Proof.
  intros Hx Hlo Hhi. destruct (mag_spec x Hx) as [Mlo Mhi].
  assert (A : 2 ^ k < 2 ^ (mag x + 1)) by lra.
  assert (B : 2 ^ mag x < 2 ^ (k + 1)) by lra.
  apply pow2_lt_inv in A. apply pow2_lt_inv in B. lia.
Qed.

Lemma mag_comp x y : 0 < x -> x == y -> mag x = mag y.
Proof.
  intros Hx E. symmetry. destruct (mag_spec x Hx) as [Mlo Mhi].
  apply mag_unique; rewrite <- E; assumption.
Qed.

Lemma rne_comp x y : x == y -> rne x = rne y.
Proof.
  intros E. unfold rne.
  assert (F : Qfloor x = Qfloor y) by (rewrite E; reflexivity).
  rewrite F.
  assert (C : Qcompare (x - inject_Z (Qfloor y)) (1 # 2)
              = Qcompare (y - inject_Z (Qfloor y)) (1 # 2)) by (rewrite E; reflexivity).
  rewrite C. reflexivity.
Qed.

Lemma rn_pos_comp x y : 0 < x -> x == y -> rn_pos x == rn_pos y.
Proof.
  intros Hx E. unfold rn_pos, fexp. rewrite (mag_comp x y Hx E).
  assert (R : rne (x / 2 ^ Z.max (mag y - 52) (-1074))
              = rne (y / 2 ^ Z.max (mag y - 52) (-1074)))
    by (apply rne_comp; rewrite E; reflexivity).
  rewrite R. reflexivity.
Qed.

Lemma rn64_comp x y : x == y -> rn64 x = rn64 y.
Proof.
  intros E. unfold rn64.
  assert (C : Qcompare x 0 = Qcompare y 0) by (rewrite E; reflexivity).
  rewrite <- C.
  destruct (Qcompare_spec x 0) as [Z|L|G].
  - reflexivity.
  - apply Qred_complete. apply Qopp_comp. apply rn_pos_comp; [lra|]. rewrite E. reflexivity.
  - apply Qred_complete. apply rn_pos_comp; assumption.
Qed.

Lemma int_truediv_same n : (0 < n)%nat -> int_truediv n n = 1.
Proof.
  intros H. unfold int_truediv.
  assert (E : inject_Z (Z.of_nat n) / inject_Z (Z.of_nat n) == 1).
  { field. intros Z. assert (X : inject_Z (Z.of_nat n) == inject_Z 0) by exact Z.
    apply eq_Qeq_inject_Z in X || (unfold Qeq in X; simpl in X; lia). }
  rewrite (rn64_comp _ _ E). reflexivity.
Qed.

Lemma int_truediv_le_1 a n : (a <= n)%nat -> int_truediv a n <= 1.
Proof.
  intros H. destruct (Nat.eq_dec n 0%nat) as [->|Hn].
  - assert (a = 0%nat) as -> by lia. rewrite int_truediv_zero. lra.
  - rewrite <- (int_truediv_same n) by lia. apply int_truediv_mono. assumption.
Qed.

(** *** Range of the confidence *)

Lemma hypothesis_score_range h (S : gset string) :
  0 <= hypothesis_score h S /\ hypothesis_score h S <= 1.
Proof.
  unfold hypothesis_score.
  set (required := list_to_set (required_signals h) : gset string).
  set (supporting := list_to_set (supporting_signals h) : gset string).
  set (r := int_truediv (size (required ∩ S)) (size required)).
  set (s := if decide (supporting = ∅) then 0
            else int_truediv (size (supporting ∩ S)) (size supporting)).
  assert (Hr0 : 0 <= r) by apply int_truediv_nonneg.
  assert (Hr1 : r <= 1).
  { apply int_truediv_le_1, subseteq_size, intersection_subseteq_l. }
  assert (Hs0 : 0 <= s).
  { unfold s. destruct (decide _); [lra|apply int_truediv_nonneg]. }
  assert (Hs1 : s <= 1).
  { unfold s. destruct (decide _); [lra|].
    apply int_truediv_le_1, subseteq_size, intersection_subseteq_l. }
  assert (H7 : 0 <= lit 7 10) by (apply lit_nonneg; lia).
  assert (H3 : 0 <= lit 3 10) by (apply lit_nonneg; lia).
  assert (Hlo : 0 <= fadd (fmul (lit 7 10) r) (fmul (lit 3 10) s))
    by (apply fadd_nonneg; apply fmul_nonneg; assumption).
  split.
  - rewrite <- (py_round_zero 3). apply py_round_mono; [lra|assumption].
  - assert (T : py_round (fadd (fmul (lit 7 10) 1) (fmul (lit 3 10) 1)) 3 = 1)
      by (vm_compute; reflexivity).
    assert (B : py_round (fadd (fmul (lit 7 10) r) (fmul (lit 3 10) s)) 3
                <= py_round (fadd (fmul (lit 7 10) 1) (fmul (lit 3 10) 1)) 3).
    { apply py_round_mono; [assumption|].
      apply fadd_mono.
      - apply fmul_nonneg; assumption.
      - apply fmul_nonneg; assumption.
      - apply fmul_mono_r; assumption.
      - apply fmul_mono_r; assumption. }
    rewrite T in B. exact B.
Qed.

(** *** Order of the output *)

Definition ge_score (p q : HypothesisEntry * Q) : Prop := snd q <= snd p.

Lemma insert_desc_HdRel a x l :
  ge_score a x -> HdRel ge_score a l -> HdRel ge_score a (insert_desc x l).
Proof.
  intros Hax Hl. destruct l as [|y ys]; simpl.
  - constructor. assumption.
  - destruct (Qle_bool (snd y) (snd x)); constructor; [assumption|].
    inversion Hl; assumption.
Qed.

Lemma insert_desc_sorted x l :
  Sorted ge_score l -> Sorted ge_score (insert_desc x l).
Proof.
  induction l as [|y ys IH]; intros Hs; simpl.
  - repeat constructor.
  - destruct (Qle_bool (snd y) (snd x)) eqn:E.
    + apply Qle_bool_iff in E. constructor; [assumption|]. constructor. exact E.
    + assert (L : snd x < snd y).
      { apply Qnot_le_lt. intros C. apply Qle_bool_iff in C. congruence. }
      inversion Hs; subst. constructor; [apply IH; assumption|].
      apply insert_desc_HdRel; [|assumption]. apply Qlt_le_weak. exact L.
Qed.

Lemma sort_desc_sorted l : Sorted ge_score (sort_desc l).
Proof.
  induction l as [|x xs IH]; simpl; [constructor|].
  apply insert_desc_sorted, IH.
Qed.

(** X1. The list returned by [score_hypotheses] is sorted by confidence, largest first. *)
Theorem X_score_sorted (hypotheses : list HypothesisEntry) (S : gset string) :
  StronglySorted (fun p q => snd q <= snd p) (score_hypotheses hypotheses S).
Proof.
  apply Sorted_StronglySorted.
  - intros a b c Hab Hbc. unfold ge_score in *. lra.
  - apply sort_desc_sorted.
Qed.

(** *** Stability *)

Lemma filter_insert_desc c x l :
  List.filter (fun p => Qeq_bool (snd p) c) (insert_desc x l)
  = List.filter (fun p => Qeq_bool (snd p) c) (x :: l).
Proof.
  induction l as [|y ys IH]; [reflexivity|].
  simpl insert_desc. destruct (Qle_bool (snd y) (snd x)) eqn:E; [reflexivity|].
  assert (L : snd x < snd y).
  { apply Qnot_le_lt. intros C. apply Qle_bool_iff in C. congruence. }
  change (List.filter (fun p => Qeq_bool (snd p) c) (y :: insert_desc x ys))
    with (if Qeq_bool (snd y) c
          then y :: List.filter (fun p => Qeq_bool (snd p) c) (insert_desc x ys)
          else List.filter (fun p => Qeq_bool (snd p) c) (insert_desc x ys)).
  rewrite IH. cbn [List.filter].
  destruct (Qeq_bool (snd x) c) eqn:Ex; destruct (Qeq_bool (snd y) c) eqn:Ey;
    try reflexivity.
  apply Qeq_bool_iff in Ex. apply Qeq_bool_iff in Ey. exfalso. lra.
Qed.

Lemma filter_sort_desc c l :
  List.filter (fun p => Qeq_bool (snd p) c) (sort_desc l)
  = List.filter (fun p => Qeq_bool (snd p) c) l.
Proof.
  induction l as [|x xs IH]; [reflexivity|].
  cbn [sort_desc foldr]. rewrite filter_insert_desc. cbn [List.filter].
  fold (sort_desc xs). rewrite IH. reflexivity.
Qed.

Lemma score_loop_filter c hypotheses (S : gset string) :
  map fst (List.filter (fun p => Qeq_bool (snd p) c) (score_loop hypotheses S))
  = List.filter
      (fun h => negb (bool_decide (list_to_set (required_signals h) = (∅ : gset string)))
                && Qeq_bool (hypothesis_score h S) c)
      hypotheses.
Proof.
  induction hypotheses as [|h rest IH]; [reflexivity|].
  cbn [score_loop List.filter].
  destruct (decide (list_to_set (required_signals h) = (∅ : gset string))) as [E|N].
  - rewrite bool_decide_eq_true_2 by assumption. cbn [negb andb]. exact IH.
  - rewrite bool_decide_eq_false_2 by assumption. cbn [negb andb List.filter snd].
    destruct (Qeq_bool (hypothesis_score h S) c); cbn [map fst]; rewrite IH; reflexivity.
Qed.

(** X2. The sort of [score_hypotheses] is stable: for every confidence value, the hypotheses scored with it appear in the output in the order of the library. *)
Theorem X_score_stable (hypotheses : list HypothesisEntry) (S : gset string) (c : Q) :
  map fst (List.filter (fun p => Qeq_bool (snd p) c) (score_hypotheses hypotheses S))
  = List.filter
      (fun h => negb (bool_decide (list_to_set (required_signals h) = (∅ : gset string)))
                && Qeq_bool (hypothesis_score h S) c)
      hypotheses.
Proof.
  unfold score_hypotheses. rewrite filter_sort_desc. apply score_loop_filter.
Qed.

(** X3. Every confidence returned by [score_hypotheses] lies between 0 and 1, the binary64 roundings of the formula included. *)
Theorem X_score_range (hypotheses : list HypothesisEntry) (S : gset string)
    (h : HypothesisEntry) (c : Q) :
  In (h, c) (score_hypotheses hypotheses S) -> 0 <= c /\ c <= 1.
Proof.
  intros H. apply score_hypotheses_In in H. destruct H as (_ & _ & ->).
  apply hypothesis_score_range.
Qed.

(** *** Full matches *)

(** X4. A returned hypothesis all of whose required signals are observed has confidence at least [0.7]; it has exactly [0.7] when none of its supporting signals is observed, and exactly [1.0] when it has supporting signals and all of them are observed. *)
Theorem X_score_full_match (hypotheses : list HypothesisEntry) (S : gset string)
    (h : HypothesisEntry) (c : Q) :
  In (h, c) (score_hypotheses hypotheses S) ->
  list_to_set (required_signals h) ⊆ S ->
  lit 7 10 <= c
  /\ (list_to_set (supporting_signals h) ∩ S = (∅ : gset string) -> c = lit 7 10)
  /\ (list_to_set (supporting_signals h) ≠ (∅ : gset string) ->
      list_to_set (supporting_signals h) ⊆ S -> c = 1).
Proof.
  intros Hin Hsub. apply score_hypotheses_In in Hin. destruct Hin as (_ & Hne & ->).
  unfold hypothesis_score.
  set (required := list_to_set (required_signals h) : gset string) in *.
  set (supporting := list_to_set (supporting_signals h) : gset string).
  assert (Er : required ∩ S = required) by (apply subseteq_intersection_1_L; exact Hsub).
  assert (Hn : (0 < size required)%nat).
  { destruct (size required) eqn:Z; [|lia]. apply size_empty_inv in Z.
    apply leibniz_equiv in Z. contradiction. }
  rewrite Er, (int_truediv_same _ Hn).
  assert (E7 : fmul (lit 7 10) 1 = lit 7 10) by (vm_compute; reflexivity).
  rewrite E7.
  assert (H7 : 0 <= lit 7 10) by (apply lit_nonneg; lia).
  assert (H3 : 0 <= lit 3 10) by (apply lit_nonneg; lia).
  split; [|split].
  - assert (B : py_round (fadd (lit 7 10) 0) 3 = lit 7 10) by (vm_compute; reflexivity).
    rewrite <- B at 1. apply py_round_mono.
    + apply fadd_nonneg; [assumption|lra].
    + apply fadd_mono; [assumption | lra | lra |].
      apply fmul_nonneg; [assumption|].
      destruct (decide (supporting = ∅)); [lra|apply int_truediv_nonneg].
  - intros Hs. rewrite Hs, size_empty, int_truediv_zero.
    assert (Z : (if decide (supporting = ∅) then 0 else 0) = 0)
      by (destruct (decide _); reflexivity).
    rewrite Z, fmul_zero_r. vm_compute. reflexivity.
  - intros Hs Hss.
    assert (Es : supporting ∩ S = supporting)
      by (apply subseteq_intersection_1_L; exact Hss).
    assert (Hm : (0 < size supporting)%nat).
    { destruct (size supporting) eqn:Z; [|lia]. apply size_empty_inv in Z.
      apply leibniz_equiv in Z. contradiction. }
    rewrite decide_False by assumption.
    rewrite Es, (int_truediv_same _ Hm). vm_compute. reflexivity.
Qed.

Import Samples.
Local Open Scope string_scope.

Lemma X_score_range_witness :
  In (h_scenario, lit 35 100) (score_hypotheses [h_scenario] {["A"]})
  /\ 0 <= lit 35 100 /\ lit 35 100 <= 1.
Proof.
  assert (H : In (h_scenario, lit 35 100) (score_hypotheses [h_scenario] {["A"]})).
  { apply score_hypotheses_In. split; [left; reflexivity|].
    split; [simpl; set_solver|]. vm_compute. reflexivity. }
  split; [exact H|].
  exact (X_score_range [h_scenario] {["A"]} h_scenario (lit 35 100) H).
Defined.

Lemma X_score_full_match_witness :
  In (h_scenario, 1) (score_hypotheses [h_scenario] {["A"; "B"; "C"]})
  /\ lit 7 10 <= 1.
Proof.
  assert (H : In (h_scenario, 1) (score_hypotheses [h_scenario] {["A"; "B"; "C"]})).
  { apply score_hypotheses_In. split; [left; reflexivity|].
    split; [simpl; set_solver|]. vm_compute. reflexivity. }
  split; [exact H|].
  refine (proj1 (X_score_full_match [h_scenario] {["A"; "B"; "C"]} h_scenario 1 H _)).
  simpl. set_solver.
Defined.

End ScorerExtra.

(** ** More on the executor *)

Module ExecutorExtra.
Import Frame Executor ExecutorOps.
Local Open Scope string_scope.

(** The cache after one [execute]: unchanged, or grown by the executed
    text, which was absent, with the table just fetched. *)
Lemma execute_cache conn self sql use_cache :
  let out := execute conn self sql use_cache in
  _query_cache out.1 = _query_cache self
  \/ (exists df ms,
        _query_cache self !! sql = None
        /\ (size (_query_cache self) < _cache_max_size)%nat
        /\ conn (conn_calls self) sql = Fetched df ms
        /\ out.2 = inr df
        /\ _query_cache out.1 = <[sql := df]> (_query_cache self)).
Proof.
  unfold execute. destruct use_cache.
  - destruct (_query_cache self !! sql) as [cached|] eqn:Hc; [left; reflexivity|].
    destruct (conn (conn_calls self) sql) as [df ms|d e ms]; [|left; reflexivity].
    cbn [fst snd _query_cache andb].
    destruct (size (_query_cache self) <? _cache_max_size)%nat eqn:Hs.
    + right. exists df, ms. apply Nat.ltb_lt in Hs. repeat split; assumption || reflexivity.
    + left. reflexivity.
  - destruct (conn (conn_calls self) sql) as [df ms|d e ms]; left; reflexivity.
Qed.

Lemma step_cache_bound conn self c :
  (size (_query_cache self) <= _cache_max_size)%nat ->
  (size (_query_cache (step conn self c)) <= _cache_max_size)%nat.
Proof.
  intros H. destruct c as [sql uc| |]; cbn [step].
  - destruct (execute_cache conn self sql uc) as [E|(df & ms & Hn & Hs & _ & _ & E)];
      rewrite E; [assumption|].
    rewrite map_size_insert_None by assumption. lia.
  - cbn. rewrite map_size_empty. lia.
  - exact H.
Qed.

(** X5. Whatever sequence of [execute], [clear_cache] and [test_connection] calls a fresh executor goes through, its cache never holds more than 50 tables. *)
Theorem X_cache_bounded (conn : Engine) (calls : list Call) :
  (size (_query_cache (run conn Executor.init calls)) <= 50)%nat.
Proof.
  unfold run.
  assert (G : forall self, (size (_query_cache self) <= _cache_max_size)%nat ->
              (size (_query_cache (fold_left (step conn) calls self)) <= _cache_max_size)%nat).
  { induction calls as [|c cs IH]; intros self H; cbn [fold_left]; [exact H|].
    apply IH, step_cache_bound, H. }
  apply G. cbn. rewrite map_size_empty. unfold _cache_max_size. lia.
Qed.

Lemma step_cache_keeps conn self c sql df :
  is_clear c = false ->
  _query_cache self !! sql = Some df ->
  _query_cache (step conn self c) !! sql = Some df.
Proof.
  intros Hc H. destruct c as [sql' uc| |]; cbn [step]; [|discriminate|exact H].
  destruct (execute_cache conn self sql' uc) as [E|(df' & ms & Hn & _ & _ & _ & E)];
    rewrite E; [assumption|].
  rewrite lookup_insert_ne; [assumption|]. intros ->. congruence.
Qed.

Lemma run_cache_keeps conn calls : forall self sql df,
  forallb (fun c => negb (is_clear c)) calls = true ->
  _query_cache self !! sql = Some df ->
  _query_cache (run conn self calls) !! sql = Some df.
Proof.
  unfold run. induction calls as [|c cs IH]; intros self sql df Hc H; cbn [fold_left].
  - exact H.
  - cbn [forallb] in Hc. apply andb_true_iff in Hc. destruct Hc as [Hc1 Hc2].
    apply IH; [assumption|]. apply step_cache_keeps; [|assumption].
    destruct (is_clear c); [discriminate|reflexivity].
Qed.

(** X6. A cached table is never evicted nor replaced by later executions: as long as [clear_cache] is not called, executing the cached text with caching enabled returns that same table, records latency zero and does not reach the engine. *)
Theorem X_cache_entries_persist
    (conn : Engine) (self : SQLExecutor) (calls : list Call) (sql : string)
    (df : DataFrame) :
  _query_cache self !! sql = Some df ->
  forallb (fun c => negb (is_clear c)) calls = true ->
  let later := run conn self calls in
  let out := execute conn later sql true in
  out.2 = inr df
  /\ _last_execution_time_ms out.1 = 0%Q
  /\ conn_calls out.1 = conn_calls later.
Proof.
  intros H Hc later out.
  pose proof (run_cache_keeps conn calls self sql df Hc H) as K.
  fold later in K. unfold out, execute. cbn [orb].
  destruct (_query_cache later !! sql) as [d|]; [|discriminate].
  inversion K; subst. repeat split; reflexivity.
Qed.

(** X7. [clear_cache] empties the cache and keeps the recorded latency and row count; the first cached execution after it goes to the engine, and if it returns a table, the next execution of the same text is served from the cache. *)
Theorem X_clear_cache_round_trip
    (conn : Engine) (self s1 : SQLExecutor) (sql : string) (df : DataFrame) :
  cache_size (get_execution_stats (clear_cache self)) = 0%nat
  /\ rows_returned (get_execution_stats (clear_cache self))
     = rows_returned (get_execution_stats self)
  /\ time_ms (get_execution_stats (clear_cache self)) = time_ms (get_execution_stats self)
  /\ (execute conn (clear_cache self) sql true = (s1, inr df) ->
      conn (conn_calls self) sql = Fetched df (_last_execution_time_ms s1)
      /\ exists s2, execute conn s1 sql true = (s2, inr df)
                    /\ _last_execution_time_ms s2 = 0%Q
                    /\ conn_calls s2 = conn_calls s1).
Proof.
  split; [cbn; apply map_size_empty|]. split; [reflexivity|]. split; [reflexivity|].
  unfold execute at 1. cbn [clear_cache _query_cache conn_calls].
  rewrite lookup_empty.
  destruct (conn (conn_calls self) sql) as [df' ms|d e ms]; [|discriminate].
  rewrite map_size_empty. cbn [andb Nat.ltb Nat.leb _cache_max_size].
  intros E. inversion E; subst. cbn [_last_execution_time_ms].
  split; [reflexivity|].
  unfold execute. cbn [_query_cache]. rewrite lookup_insert_eq.
  eexists. repeat split; reflexivity.
Qed.

Lemma execute_conn_calls conn self sql use_cache :
  (conn_calls self <= conn_calls (execute conn self sql use_cache).1)%nat.
Proof.
  unfold execute.
  destruct (if use_cache then _query_cache self !! sql else None); [cbn; lia|].
  destruct (conn (conn_calls self) sql); cbn; lia.
Qed.

Lemma execute_insert_calls conn self sql use_cache :
  _query_cache self !! sql = None ->
  conn_calls (execute conn self sql use_cache).1 = S (conn_calls self).
Proof.
  intros H. unfold execute. rewrite H.
  assert (E : (if use_cache then None else None) = (None : option DataFrame))
    by (destruct use_cache; reflexivity).
  rewrite E. destruct (conn (conn_calls self) sql); reflexivity.
Qed.

(** Every cached table was delivered by the engine for that very text. *)
Definition cache_sound (conn : Engine) (self : SQLExecutor) : Prop :=
  forall sql df,
    _query_cache self !! sql = Some df ->
    exists n ms, (n < conn_calls self)%nat /\ conn n sql = Fetched df ms.

Lemma step_cache_sound conn self c :
  cache_sound conn self -> cache_sound conn (step conn self c).
Proof.
  intros I. destruct c as [sql' uc| |]; cbn [step].
  - intros sql df H.
    pose proof (execute_conn_calls conn self sql' uc) as Hc.
    destruct (execute_cache conn self sql' uc) as [E|(df' & ms & Hn & _ & Hf & _ & E)];
      rewrite E in H.
    + destruct (I sql df H) as (n & ms & Hlt & Hn). exists n, ms. split; [lia|assumption].
    + destruct (decide (sql' = sql)) as [->|Hne].
      * rewrite lookup_insert_eq in H. inversion H; subst.
        exists (conn_calls self), ms. split; [|assumption].
        rewrite (execute_insert_calls conn self sql uc Hn). lia.
      * rewrite lookup_insert_ne in H by assumption.
        destruct (I sql df H) as (n & ms' & Hlt & Hn'). exists n, ms'.
        split; [lia|assumption].
  - intros sql df H. cbn in H. rewrite lookup_empty in H. discriminate.
  - intros sql df H. cbn in H. destruct (I sql df H) as (n & ms & Hlt & Hn).
    exists n, ms. split; [cbn; lia|assumption].
Qed.

(** X8. Every table in the cache of an executor that started fresh is a table that the engine delivered, at some earlier call, for the very text it is cached under. *)
Theorem X_cache_holds_engine_answers
    (conn : Engine) (calls : list Call) (sql : string) (df : DataFrame) :
  _query_cache (run conn Executor.init calls) !! sql = Some df ->
  exists n ms,
    (n < conn_calls (run conn Executor.init calls))%nat
    /\ conn n sql = Fetched df ms.
Proof.
  assert (G : forall self, cache_sound conn self -> cache_sound conn (run conn self calls)).
  { unfold run. induction calls as [|c cs IH]; intros self I; cbn [fold_left];
      [exact I|]. apply IH, step_cache_sound, I. }
  apply (G Executor.init). intros s d H. cbn in H. rewrite lookup_empty in H. discriminate.
Qed.

Import Samples.

Lemma X_cache_entries_persist_witness :
  (execute engine_drift
     (run engine_drift full_executor [Execute "SELECT 0" true; TestConnection])
     "SELECT 1" true).2 = inr df_plain.
Proof.
  refine (proj1 (X_cache_entries_persist engine_drift full_executor
                   [Execute "SELECT 0" true; TestConnection] "SELECT 1" df_plain _ _)).
  - vm_compute. reflexivity.
  - reflexivity.
Defined.

Lemma X_clear_cache_round_trip_witness :
  exists s2,
    execute engine_drift
      (execute engine_drift (clear_cache full_executor) "SELECT 0" true).1 "SELECT 0" true
    = (s2, inr df_plain)
    /\ _last_execution_time_ms s2 = 0%Q.
Proof.
  destruct (X_clear_cache_round_trip engine_drift full_executor
              (execute engine_drift (clear_cache full_executor) "SELECT 0" true).1
              "SELECT 0" df_plain) as (_ & _ & _ & H).
  destruct (H eq_refl) as (_ & s2 & H2 & Ht & _).
  exists s2. split; assumption.
Defined.

Lemma X_cache_holds_engine_answers_witness :
  exists n ms, (n < 50)%nat /\ engine_drift n "SELECT 1" = Fetched df_plain ms.
Proof.
  destruct (X_cache_holds_engine_answers engine_drift
              (map (fun n => Execute ("SELECT " ++ ones n) true) (seq 1 50))
              "SELECT 1" df_plain) as (n & ms & Hlt & Hn).
  - vm_compute. reflexivity.
  - exists n, ms. split; [|exact Hn].
    assert (E : conn_calls (run engine_drift Executor.init
                  (map (fun n => Execute ("SELECT " ++ ones n) true) (seq 1 50))) = 50%nat)
      by (vm_compute; reflexivity).
    rewrite E in Hlt. exact Hlt.
Defined.

End ExecutorExtra.

(** ** More on the orchestrator *)

Module OrchestratorExtra.
Import PyStr Frame Executor Validator Orchestrator OrchestratorOps.
Local Open Scope string_scope.

(** The five ways through [process_query]. *)
Lemma process_query_cases w self user_query conversation_id :
  let out := process_query w self user_query conversation_id in
  (out.2 = GENERAL_ANSWERED
   /\ route w self user_query conversation_id = Router.general
   /\ out.1 = _handle_general_query w self user_query conversation_id)
  \/ (out.2 = TRANSLATION_FAILED
      /\ route w self user_query conversation_id = Router.data
      /\ out.1.1 = self
      /\ exists e,
           translate_with_retry w user_query (_get_history self conversation_id)
           = inl (TranslationError_ e)
           /\ r_error out.1.2 = Some e /\ r_sql out.1.2 = None)
  \/ (out.2 = VALIDATION_BLOCKED
      /\ route w self user_query conversation_id = Router.data
      /\ out.1.1 = self
      /\ exists sql,
           translate_with_retry w user_query (_get_history self conversation_id) = inr sql
           /\ validate_query sql = false
           /\ out.1.2 = blocked_result w user_query sql)
  \/ (out.2 = EXECUTION_FAILED
      /\ route w self user_query conversation_id = Router.data
      /\ exists sql ex e,
           translate_with_retry w user_query (_get_history self conversation_id) = inr sql
           /\ validate_query sql = true
           /\ execute (conn w) (executor self) sql true = (ex, inl (QueryExecutionError_ e))
           /\ out.1.1 = with_executor self ex
           /\ r_error out.1.2 = Some e /\ r_sql out.1.2 = Some sql)
  \/ (out.2 = SUCCESS
      /\ route w self user_query conversation_id = Router.data
      /\ exists sql ex df,
           translate_with_retry w user_query (_get_history self conversation_id) = inr sql
           /\ validate_query sql = true
           /\ execute (conn w) (executor self) sql true = (ex, inr df)
           /\ out.1.1 = _save_to_history (with_executor self ex) conversation_id
                          user_query sql
           /\ r_error out.1.2 = None /\ r_sql out.1.2 = Some sql
           /\ r_data out.1.2 = to_dict_records df
           /\ r_rows_returned out.1.2 = n_rows df
           /\ r_signals out.1.2
              = match extract_signals w df user_query with
                | Some signals => elements signals
                | None => []
                end
           /\ r_hypotheses out.1.2
              = map summarize
                  (take 5 (default []
                     (score_hypotheses w
                        (default ∅ (extract_signals w df user_query)))))).
Proof.
  unfold process_query.
  destruct (route w self user_query conversation_id) eqn:Hr.
  2:{ left. destruct (_handle_general_query w self user_query conversation_id).
      cbn. auto. }
  right.
  destruct (translate_with_retry w user_query (_get_history self conversation_id))
    as [[e]|sql] eqn:Ht.
  { left. cbn. do 3 (split; [reflexivity|]). exists e. auto. }
  right. destruct (validate_query sql) eqn:Hv; cbn [negb].
  2:{ left. cbn. do 3 (split; [reflexivity|]). exists sql. auto. }
  right. destruct (execute (conn w) (executor self) sql true) as [ex [[e]|df]] eqn:He.
  { left. cbn. do 2 (split; [reflexivity|]). exists sql, ex, e. auto 10. }
  right. destruct (extract_signals w df user_query) as [signals|] eqn:Hx; cbn;
    (do 2 (split; [reflexivity|])); exists sql, ex, df; rewrite Hx;
    repeat split; reflexivity || assumption.
Qed.

(** The general path leaves the data track and the executor alone. *)
Lemma general_keeps_data_track w self user_query conversation_id :
  _conversations (_handle_general_query w self user_query conversation_id).1
  = _conversations self.
Proof.
  unfold _handle_general_query.
  destruct (chat_completion w _); [|reflexivity].
  destruct conversation_id as [id|]; [|reflexivity].
  cbn [fst]. destruct (truthy (Some id)); reflexivity.
Qed.

Lemma general_keeps_executor w self user_query conversation_id :
  executor (_handle_general_query w self user_query conversation_id).1 = executor self.
Proof.
  unfold _handle_general_query.
  destruct (chat_completion w _); [|reflexivity].
  destruct conversation_id as [id|]; [|reflexivity].
  cbn [fst]. destruct (truthy (Some id)); reflexivity.
Qed.

(** *** Bounded histories *)

Lemma append_bounded_length {A} (l : list A) (x : A) :
  (length l <= _max_history)%nat ->
  (length (append_bounded _max_history l x) <= _max_history)%nat.
Proof.
  intros H. unfold append_bounded.
  destruct (_max_history <? length (l ++ [x]))%nat eqn:E.
  - rewrite length_tl, length_app. cbn [length]. lia.
  - apply Nat.ltb_ge in E. exact E.
Qed.

Definition histories_bounded (self : InsightXEngine) : Prop :=
  (forall id l, _conversations self !! id = Some l -> (length l <= 100)%nat)
  /\ (forall id l, _general_conversations self !! id = Some l -> (length l <= 100)%nat).

Lemma insert_bounded {A} (m : gmap string (list A)) id x :
  (forall i l, m !! i = Some l -> (length l <= 100)%nat) ->
  forall i l,
    <[id := append_bounded _max_history (default [] (m !! id)) x]> m !! i = Some l ->
    (length l <= 100)%nat.
Proof.
  intros H i l. destruct (decide (id = i)) as [->|N].
  - rewrite lookup_insert_eq. intros E. inversion E; subst.
    apply (append_bounded_length (default [] (m !! i)) x).
    destruct (m !! i) as [l0|] eqn:E0; cbn; [exact (H i l0 E0)|unfold _max_history; lia].
  - rewrite lookup_insert_ne by assumption. apply H.
Qed.

Lemma save_to_history_bounded self conversation_id user_query sql :
  histories_bounded self ->
  histories_bounded (_save_to_history self conversation_id user_query sql).
Proof.
  intros [Hd Hg]. unfold _save_to_history.
  destruct conversation_id as [id|]; [|split; assumption].
  destruct (truthy (Some id)); [|split; assumption].
  split; cbn [_conversations _general_conversations]; [|exact Hg].
  apply insert_bounded, Hd.
Qed.

Lemma handle_general_bounded w self user_query conversation_id :
  histories_bounded self ->
  histories_bounded (_handle_general_query w self user_query conversation_id).1.
Proof.
  intros [Hd Hg]. unfold _handle_general_query.
  destruct (chat_completion w _); [|split; assumption].
  destruct conversation_id as [id|]; [|split; assumption].
  cbn [fst]. destruct (truthy (Some id)); [|split; assumption].
  split; cbn [_conversations _general_conversations]; [exact Hd|].
  apply insert_bounded, Hg.
Qed.

Lemma process_query_bounded w self user_query conversation_id :
  histories_bounded self ->
  histories_bounded (process_query w self user_query conversation_id).1.1.
Proof.
  intros H.
  destruct (process_query_cases w self user_query conversation_id)
    as [(_ & _ & E)|[(_ & _ & E & _)|[(_ & _ & E & _)|[(_ & _ & S)|(_ & _ & S)]]]].
  - rewrite E. apply handle_general_bounded, H.
  - rewrite E. exact H.
  - rewrite E. exact H.
  - destruct S as (sql & ex & e & _ & _ & _ & E & _). rewrite E. exact H.
  - destruct S as (sql & ex & df & _ & _ & _ & E & _). rewrite E.
    apply save_to_history_bounded. exact H.
Qed.

Lemma clear_conversation_bounded self conversation_id :
  histories_bounded self -> histories_bounded (clear_conversation self conversation_id).
Proof.
  intros [Hd Hg]. unfold clear_conversation.
  assert (Z : histories_bounded {| executor := executor self; _conversations := ∅;
                                   _general_conversations := ∅ |}).
  { split; intros id l; cbn; rewrite lookup_empty; discriminate. }
  destruct conversation_id as [id|]; [|exact Z].
  destruct (truthy (Some id)); [|exact Z].
  split; intros i l; cbn; intros E; apply lookup_delete_Some in E; destruct E as [_ E];
    eauto.
Qed.

(** X9. Whatever requests a fresh orchestrator serves, queries and clearings in any order, no conversation ever holds more than 100 turns on its data track or on its general track. *)
Theorem X_history_bounded (requests : list Request) :
  histories_bounded (session OrchestratorOps.init requests).
Proof.
  assert (G : forall self, histories_bounded self -> histories_bounded (session self requests)).
  { unfold session. induction requests as [|r rs IH]; intros self H; cbn [fold_left];
      [exact H|].
    apply IH. destruct r as [w q cid|cid]; cbn [serve].
    - apply process_query_bounded, H.
    - apply clear_conversation_bounded, H. }
  apply G. split; intros id l; cbn; rewrite lookup_empty; discriminate.
Qed.

(** *** Only validated SQL is remembered *)

Definition history_validated (self : InsightXEngine) : Prop :=
  forall id l turn,
    _conversations self !! id = Some l -> In turn l ->
    validate_query (Orchestrator.sql turn) = true.

Lemma append_bounded_In {A} m (l : list A) (x y : A) :
  In y (append_bounded m l x) -> In y l \/ y = x.
Proof.
  unfold append_bounded. intros H.
  assert (K : In y (l ++ [x])%list).
  { destruct (m <? length (l ++ [x])%list)%nat; [|exact H].
    destruct (l ++ [x])%list; [exact H|right; exact H]. }
  apply in_app_or in K. destruct K as [K|[K|[]]]; auto.
Qed.

Lemma process_query_validated w self user_query conversation_id :
  history_validated self ->
  history_validated (process_query w self user_query conversation_id).1.1.
Proof.
  intros H.
  destruct (process_query_cases w self user_query conversation_id)
    as [(_ & _ & E)|[(_ & _ & E & _)|[(_ & _ & E & _)|[(_ & _ & S)|(_ & _ & S)]]]].
  - intros id l turn Hl. rewrite E in Hl.
    rewrite general_keeps_data_track in Hl. exact (H id l turn Hl).
  - rewrite E. exact H.
  - rewrite E. exact H.
  - destruct S as (sql & ex & e & _ & _ & _ & E & _). rewrite E. exact H.
  - destruct S as (sql & ex & df & _ & Hv & _ & E & _). rewrite E.
    unfold _save_to_history. destruct conversation_id as [cid|]; [|exact H].
    destruct (truthy (Some cid)); [|exact H].
    intros id l turn. cbn [_conversations with_executor].
    destruct (decide (cid = id)) as [->|N].
    + rewrite lookup_insert_eq. intros X Hin. inversion X; subst.
      apply append_bounded_In in Hin. destruct Hin as [Hin| ->]; [|exact Hv].
      destruct (_conversations self !! id) as [l0|] eqn:E0; [|destruct Hin].
      exact (H id l0 turn E0 Hin).
    + rewrite lookup_insert_ne by assumption. apply H.
Qed.

(** X10. Every SQL text remembered in a data history passed [validate_query]: statements that were blocked, or never translated, are not among the turns handed to the translator later. *)
Theorem X_history_sql_validated (requests : list Request) (id : string)
    (l : list HistoryTurn) (turn : HistoryTurn) :
  _conversations (session OrchestratorOps.init requests) !! id = Some l ->
  In turn l ->
  validate_query (Orchestrator.sql turn) = true.
Proof.
  assert (G : forall self, history_validated self -> history_validated (session self requests)).
  { unfold session. induction requests as [|r rs IH]; intros self H; cbn [fold_left];
      [exact H|].
    apply IH. destruct r as [w q cid|cid]; cbn [serve].
    - apply process_query_validated, H.
    - unfold clear_conversation.
      assert (Z : history_validated {| executor := executor self; _conversations := ∅;
                                       _general_conversations := ∅ |})
        by (intros i l0 t; cbn; rewrite lookup_empty; discriminate).
      destruct cid as [c|]; [|exact Z]. destruct (truthy (Some c)); [|exact Z].
      intros i l0 t. cbn. intros E. apply lookup_delete_Some in E. destruct E as [_ E].
      exact (H i l0 t E). }
  apply (G OrchestratorOps.init).
  intros i l0 t. cbn. rewrite lookup_empty. discriminate.
Qed.

(** *** The engine sees validated SQL only, once per request at most *)

(** X11. One request sends at most one statement to the executor, and only one that passed [validate_query]; on the general, translation-failed and validation-blocked paths the executor, its statistics and its cache are left as they were. *)
Theorem X_engine_only_validated_sql
    (w : Collaborators) (self : InsightXEngine)
    (user_query : string) (conversation_id : option string) :
  let out := process_query w self user_query conversation_id in
  (out.2 = GENERAL_ANSWERED \/ out.2 = TRANSLATION_FAILED \/ out.2 = VALIDATION_BLOCKED ->
   executor out.1.1 = executor self)
  /\ (conn_calls (executor self) <= conn_calls (executor out.1.1)
      <= S (conn_calls (executor self)))%nat
  /\ (conn_calls (executor out.1.1) <> conn_calls (executor self) ->
      exists sql,
        r_sql out.1.2 = Some sql
        /\ validate_query sql = true
        /\ executor out.1.1 = (execute (conn w) (executor self) sql true).1).
Proof.
  intros out.
  assert (Hex : forall sql,
            (conn_calls (executor self)
             <= conn_calls (execute (conn w) (executor self) sql true).1
             <= S (conn_calls (executor self)))%nat).
  { intros sql. unfold execute. cbn [orb].
    destruct (_query_cache (executor self) !! sql); [cbn; lia|].
    destruct (conn w (conn_calls (executor self)) sql); cbn; lia. }
  assert (Hsave : forall s cid q sql,
            executor (_save_to_history s cid q sql) = executor s).
  { intros s cid q sql. unfold _save_to_history. destruct cid as [id|]; [|reflexivity].
    destruct (truthy (Some id)); reflexivity. }
  destruct (process_query_cases w self user_query conversation_id)
    as [(T & _ & E)|[(T & _ & E & _)|[(T & _ & E & _)|[(T & _ & S)|(T & _ & S)]]]];
    fold out in T, E || fold out in T, S.
  - assert (X : executor out.1.1 = executor self)
      by (rewrite E; apply general_keeps_executor).
    rewrite X. split; [intros _; reflexivity|]. split; [lia|]. intros C. contradiction.
  - rewrite E. split; [intros _; reflexivity|]. split; [lia|]. intros C. contradiction.
  - rewrite E. split; [intros _; reflexivity|]. split; [lia|]. intros C. contradiction.
  - destruct S as (sql & ex & e & _ & Hv & He & E & _ & Hs).
    assert (X : executor out.1.1 = (execute (conn w) (executor self) sql true).1)
      by (rewrite E, He; reflexivity).
    rewrite X. split; [intros [C|[C|C]]; congruence|]. split; [apply Hex|].
    intros _. exists sql. auto.
  - destruct S as (sql & ex & df & _ & Hv & He & E & _ & Hs & _).
    assert (X : executor out.1.1 = (execute (conn w) (executor self) sql true).1)
      by (rewrite E, Hsave, He; reflexivity).
    rewrite X. split; [intros [C|[C|C]]; congruence|]. split; [apply Hex|].
    intros _. exists sql. auto.
Qed.

(** *** Faults of the analysis stages *)

(** X12. Once the statement has been executed, the request succeeds whatever the analysis stages do: a fault of [extract_signals] leaves the signals empty and scores against the empty set, a fault of [score_hypotheses] leaves the hypotheses empty, and when the call made to [generate_insight] (this question, this table, the two best hypotheses) raises [InsightGenerationError] the insight is the fallback summary; when it returns, the insight is its answer. *)
Theorem X_analysis_faults_tolerated
    (w : Collaborators) (self : InsightXEngine)
    (user_query : string) (conversation_id : option string)
    (sql : string) (ex : SQLExecutor) (df : DataFrame) :
  route w self user_query conversation_id = Router.data ->
  translate_with_retry w user_query (_get_history self conversation_id) = inr sql ->
  validate_query sql = true ->
  execute (conn w) (executor self) sql true = (ex, inr df) ->
  let out := process_query w self user_query conversation_id in
  out.2 = SUCCESS
  /\ r_error out.1.2 = None
  /\ r_data out.1.2 = to_dict_records df
  /\ (extract_signals w df user_query = None ->
      r_signals out.1.2 = []
      /\ r_hypotheses out.1.2
         = map summarize (take 5 (default [] (score_hypotheses w ∅))))
  /\ (score_hypotheses w (default ∅ (extract_signals w df user_query)) = None ->
      r_hypotheses out.1.2 = [])
  /\ (forall e,
        generate_insight w user_query df (top_hypotheses w df user_query) = inl e ->
        r_insight out.1.2 = generate_fallback_insight w df)
  /\ (forall insight,
        generate_insight w user_query df (top_hypotheses w df user_query) = inr insight ->
        r_insight out.1.2 = insight).
Proof.
  intros Hr Ht Hv He. unfold process_query, top_hypotheses.
  rewrite Hr, Ht, Hv, He. cbn [negb].
  destruct (extract_signals w df user_query) as [signals|] eqn:Hx; cbn.
  - split; [reflexivity|]. split; [reflexivity|]. split; [reflexivity|].
    split; [discriminate|]. split; [intros ->; reflexivity|].
    split; [intros e F|intros insight F]; rewrite F; reflexivity.
  - split; [reflexivity|]. split; [reflexivity|]. split; [reflexivity|].
    split; [intros _; split; reflexivity|]. split; [intros ->; reflexivity|].
    split; [intros e F|intros insight F]; rewrite F; reflexivity.
Qed.

(** *** Shape of the result record *)

Lemma to_dict_records_length df : length (to_dict_records df) = n_rows df.
Proof. unfold to_dict_records. rewrite length_map, length_seq. reflexivity. Qed.

Lemma handle_general_result w self user_query conversation_id :
  let r := (_handle_general_query w self user_query conversation_id).2 in
  r_error r = None /\ r_sql r = None /\ r_data r = [] /\ r_rows_returned r = 0%nat
  /\ r_hypotheses r = [] /\ r_signals r = [] /\ r_query r = user_query.
Proof.
  unfold _handle_general_query. destruct (chat_completion w _); cbn; repeat split.
Qed.

(** X13. In the record returned by [process_query], the error is [None] exactly on the successful and the general paths, the SQL is [None] exactly on the general and the translation-failed paths, the row count is the number of data rows, at most five hypotheses are listed, and outside the successful path data, signals and hypotheses are empty. *)
Theorem X_result_coherent
    (w : Collaborators) (self : InsightXEngine)
    (user_query : string) (conversation_id : option string) :
  let out := process_query w self user_query conversation_id in
  (r_error out.1.2 = None <-> out.2 = SUCCESS \/ out.2 = GENERAL_ANSWERED)
  /\ (r_sql out.1.2 = None <-> out.2 = GENERAL_ANSWERED \/ out.2 = TRANSLATION_FAILED)
  /\ r_rows_returned out.1.2 = length (r_data out.1.2)
  /\ (length (r_hypotheses out.1.2) <= 5)%nat
  /\ (out.2 <> SUCCESS ->
      r_data out.1.2 = [] /\ r_signals out.1.2 = [] /\ r_hypotheses out.1.2 = []).
Proof.
  intros out.
  destruct (process_query_cases w self user_query conversation_id)
    as [(T & _ & E)|[(T & _ & _ & S)|[(T & _ & _ & S)|[(T & _ & S)|(T & _ & S)]]]];
    fold out in T, E || fold out in T, S; rewrite T.
  - pose proof (handle_general_result w self user_query conversation_id) as R.
    cbn zeta in R. rewrite <- E in R.
    destruct R as (R1 & R2 & R3 & R4 & R5 & R6 & _).
    rewrite R1, R2, R3, R4, R5. cbn. repeat split; auto; try lia; discriminate.
  - destruct S as (e & Ht & He & Hs). rewrite He, Hs.
    unfold out, process_query.
    destruct (route w self user_query conversation_id) eqn:Hr.
    2:{ exfalso. unfold out, process_query in T. rewrite Hr in T.
        destruct (_handle_general_query w self user_query conversation_id).
        discriminate. }
    rewrite Ht. cbn. repeat split; auto; try lia; try discriminate;
      intros [C|C]; discriminate.
  - destruct S as (sql & Ht & Hv & E). rewrite E. cbn.
    repeat split; auto; try lia; try discriminate; intros [C|C]; discriminate.
  - destruct S as (sql & ex & e & Ht & Hv & He & _ & Herr & Hs). rewrite Herr, Hs.
    unfold out, process_query.
    destruct (route w self user_query conversation_id) eqn:Hr.
    2:{ exfalso. unfold out, process_query in T. rewrite Hr in T.
        destruct (_handle_general_query w self user_query conversation_id).
        discriminate. }
    rewrite Ht, Hv, He. cbn. repeat split; auto; try lia; try discriminate;
      intros [C|C]; discriminate.
  - destruct S as (sql & ex & df & _ & _ & _ & _ & Herr & Hs & Hd & Hn & _ & Hh).
    rewrite Herr, Hs, Hd, Hn, Hh, to_dict_records_length, length_map, length_take.
    repeat split; auto; try lia; try discriminate; try contradiction.
    intros [C|C]; discriminate.
Qed.

(** *** The general track *)

(** X14. Only the general path writes the general track: a data request leaves it alone. On a general request everything depends on the completion of the one request sent (system prompt, last 50 turns of the general track, the message): when it fails nothing changes and the answer is the canned greeting; when it succeeds the insight is the stripped answer, recorded under a true conversation id and not recorded without one. *)
Theorem X_general_track
    (w : Collaborators) (self : InsightXEngine)
    (user_query : string) (conversation_id : option string) :
  let out := process_query w self user_query conversation_id in
  let request := general_messages self user_query conversation_id in
  (out.2 <> GENERAL_ANSWERED ->
   _general_conversations out.1.1 = _general_conversations self)
  /\ (out.2 = GENERAL_ANSWERED ->
      chat_completion w request = None ->
      out.1.1 = self /\ r_insight out.1.2 = GENERAL_FALLBACK)
  /\ (forall id text,
        out.2 = GENERAL_ANSWERED -> conversation_id = Some id -> id <> "" ->
        chat_completion w request = Some text ->
        r_insight out.1.2 = strip text
        /\ _general_conversations out.1.1
           = <[id := append_bounded _max_history
                       (default [] (_general_conversations self !! id))
                       {| user := user_query; assistant := strip text |}]>
               (_general_conversations self))
  /\ (forall text,
        out.2 = GENERAL_ANSWERED -> truthy conversation_id = false ->
        chat_completion w request = Some text ->
        out.1.1 = self /\ r_insight out.1.2 = strip text).
Proof.
  intros out request.
  assert (Hsave : forall s cid q sql,
            _general_conversations (_save_to_history s cid q sql)
            = _general_conversations s).
  { intros s cid q sql. unfold _save_to_history. destruct cid as [id|]; [|reflexivity].
    destruct (truthy (Some id)); reflexivity. }
  assert (Hg : _handle_general_query w self user_query conversation_id
               = match chat_completion w request with
                 | Some text =>
                     (match conversation_id with
                      | Some id =>
                          if truthy conversation_id then
                            {| executor := executor self;
                               _conversations := _conversations self;
                               _general_conversations :=
                                 <[id := append_bounded _max_history
                                           (default [] (_general_conversations self !! id))
                                           {| user := user_query; assistant := strip text |}]>
                                   (_general_conversations self) |}
                          else self
                      | None => self
                      end,
                      with_outcome (blank_result user_query) None (strip text) (elapsed w))
                 | None => (self, with_outcome (blank_result user_query) None
                                    GENERAL_FALLBACK (elapsed w))
                 end) by reflexivity.
  destruct (process_query_cases w self user_query conversation_id)
    as [(T & _ & E)|[(T & _ & E & _)|[(T & _ & E & _)|[(T & _ & S)|(T & _ & S)]]]];
    fold out in T, E || fold out in T, S.
  - split; [intros C; contradiction|].
    assert (E1 : out.1.1 = (_handle_general_query w self user_query conversation_id).1)
      by (rewrite E; reflexivity).
    assert (E2 : out.1.2 = (_handle_general_query w self user_query conversation_id).2)
      by (rewrite E; reflexivity).
    rewrite E1, E2, Hg. split; [|split].
    + intros _ F. rewrite F. split; reflexivity.
    + intros id text _ -> Hid F. rewrite F. cbn [fst snd].
      assert (Tr : truthy (Some id) = true) by (destruct id; [contradiction|reflexivity]).
      rewrite Tr. split; reflexivity.
    + intros text _ Tr F. rewrite F. cbn [fst snd]. split; [|reflexivity].
      destruct conversation_id as [id|]; [|reflexivity].
      rewrite Tr. reflexivity.
  - rewrite E, T. split; [reflexivity|]. repeat split; discriminate.
  - rewrite E, T. split; [reflexivity|]. repeat split; discriminate.
  - destruct S as (sql & ex & e & _ & _ & _ & E & _). rewrite E, T.
    split; [reflexivity|]. repeat split; discriminate.
  - destruct S as (sql & ex & df & _ & _ & _ & E & _). rewrite E, T, Hsave.
    split; [reflexivity|]. repeat split; discriminate.
Qed.

(** *** First in, first out *)

(** X15. A successful request appends its turn at the end of the conversation's data history; when the history already holds 100 turns the oldest one is dropped, the others keep their order, and the length stays 100. *)
Theorem X_history_fifo
    (w : Collaborators) (self : InsightXEngine)
    (user_query : string) (id : string) (old : list HistoryTurn) :
  let out := process_query w self user_query (Some id) in
  out.2 = SUCCESS -> id <> "" ->
  default [] (_conversations self !! id) = old ->
  (length old <= 100)%nat ->
  exists sql,
    r_sql out.1.2 = Some sql
    /\ let entry := {| Orchestrator.user_query := user_query; Orchestrator.sql := sql |} in
       ((length old < 100)%nat ->
        _conversations out.1.1 !! id = Some (old ++ [entry])%list)
       /\ ((length old = 100)%nat ->
           _conversations out.1.1 !! id = Some (tail old ++ [entry])%list
           /\ length (tail old ++ [entry])%list = 100%nat).
Proof.
  intros out T Hid Hold Hlen.
  destruct (process_query_cases w self user_query (Some id))
    as [(T' & _)|[(T' & _)|[(T' & _)|[(T' & _)|(_ & _ & S)]]]];
    try (fold out in T'; congruence).
  destruct S as (sql & ex & df & _ & _ & _ & E & _ & Hs & _). fold out in E, Hs.
  exists sql. split; [exact Hs|]. cbn zeta. rewrite E. unfold _save_to_history.
  assert (Tr : truthy (Some id) = true) by (destruct id; [contradiction|reflexivity]).
  rewrite Tr. cbn [_conversations with_executor]. rewrite lookup_insert_eq, Hold.
  unfold append_bounded, _max_history. rewrite length_app. cbn [length].
  split.
  - intros L. assert (X : (100 <? length old + 1)%nat = false) by (apply Nat.ltb_ge; lia).
    rewrite X. reflexivity.
  - intros L. assert (X : (100 <? length old + 1)%nat = true) by (apply Nat.ltb_lt; lia).
    rewrite X. destruct old as [|t old']; [cbn in L; lia|]. cbn [app tail].
    split; [reflexivity|]. rewrite length_app. cbn [length] in *. lia.
Qed.

(** *** Clearing *)

(** X16. [clear_conversation] with a true id removes both tracks of that conversation and nothing else: other conversations and the executor are untouched, the translator gets no history afterwards and routing proceeds as without data history. With [None] or the empty string as id it removes every conversation. *)
Theorem X_clear_conversation (self : InsightXEngine) :
  (forall id,
     id <> "" ->
     let cleared := clear_conversation self (Some id) in
     _conversations cleared !! id = None
     /\ _general_conversations cleared !! id = None
     /\ (forall other, other <> id ->
           _conversations cleared !! other = _conversations self !! other
           /\ _general_conversations cleared !! other
              = _general_conversations self !! other)
     /\ executor cleared = executor self
     /\ _get_history cleared (Some id) = []
     /\ forall w user_query,
          route w cleared user_query (Some id)
          = Router.classify (classifier_completion w user_query false) user_query false)
  /\ (forall conversation_id,
        truthy conversation_id = false ->
        clear_conversation self conversation_id
        = {| executor := executor self; _conversations := ∅;
             _general_conversations := ∅ |}).
Proof.
  split.
  - intros id Hid cleared.
    assert (Tr : truthy (Some id) = true) by (destruct id; [contradiction|reflexivity]).
    assert (E : cleared = {| executor := executor self;
                             _conversations := delete id (_conversations self);
                             _general_conversations :=
                               delete id (_general_conversations self) |}).
    { unfold cleared, clear_conversation. rewrite Tr. reflexivity. }
    rewrite E. cbn [_conversations _general_conversations executor].
    split; [apply lookup_delete_eq|]. split; [apply lookup_delete_eq|].
    split; [intros other N; split; apply lookup_delete_ne; congruence|].
    split; [reflexivity|].
    split.
    + unfold _get_history. rewrite Tr. cbn [_conversations].
      rewrite lookup_delete_eq. reflexivity.
    + intros w q. unfold route, has_data_history. rewrite Tr.
      cbn [_conversations andb]. rewrite lookup_delete_eq. reflexivity.
  - intros cid F. unfold clear_conversation. destruct cid as [id|]; [|reflexivity].
    rewrite F. reflexivity.
Qed.

(** *** Follow-ups after a success *)

(** X17. After a successful request under a true conversation id the conversation has data history, so that any later message of that conversation containing a follow-up indicator is routed to the data pipeline, whatever the classifier would say. *)
Theorem X_followup_after_success
    (w : Collaborators) (self : InsightXEngine)
    (user_query : string) (id : string) :
  let out := process_query w self user_query (Some id) in
  out.2 = SUCCESS -> id <> "" ->
  has_data_history out.1.1 (Some id) = true
  /\ forall w' next_query,
       Router._is_followup (strip (lower next_query)) = true ->
       route w' out.1.1 next_query (Some id) = Router.data.
Proof.
  intros out T Hid.
  assert (H : has_data_history out.1.1 (Some id) = true).
  { destruct (process_query_cases w self user_query (Some id))
      as [(T' & _)|[(T' & _)|[(T' & _)|[(T' & _)|(_ & _ & S)]]]];
      try (fold out in T'; congruence).
    destruct S as (sql & ex & df & _ & _ & _ & E & _). fold out in E.
    rewrite E. unfold has_data_history, _save_to_history.
    assert (Tr : truthy (Some id) = true) by (destruct id; [contradiction|reflexivity]).
    rewrite Tr. cbn [_conversations andb]. rewrite lookup_insert_eq. cbn [default].
    pose proof (OrchestratorFacts.append_bounded_last
                  (default [] (_conversations (with_executor self ex) !! id))
                  {| Orchestrator.user_query := user_query; Orchestrator.sql := sql |}) as L.
    destruct (append_bounded _ _ _); [discriminate|reflexivity]. }
  split; [exact H|].
  intros w' q F. unfold route. rewrite H. unfold Router.classify. rewrite F. reflexivity.
Qed.

(** *** Examples *)

Import Samples.

Lemma X_history_sql_validated_witness : validate_query "SELECT 1" = true.
Proof.
  apply (X_history_sql_validated
           [Query (stub "SELECT 1") "total payments count?" (Some "c1")] "c1"
           [{| Orchestrator.user_query := "total payments count?";
               Orchestrator.sql := "SELECT 1" |}]
           {| Orchestrator.user_query := "total payments count?";
              Orchestrator.sql := "SELECT 1" |}).
  - vm_compute. reflexivity.
  - left. reflexivity.
Defined.

Lemma X_engine_only_validated_sql_witness :
  exists sql,
    r_sql (process_query (stub "SELECT 1") engine0 "total payments count?" None).1.2
    = Some sql
    /\ validate_query sql = true.
Proof.
  destruct (X_engine_only_validated_sql (stub "SELECT 1") engine0
              "total payments count?" None) as (_ & _ & H).
  destruct H as (sql & Hs & Hv & _).
  - vm_compute. discriminate.
  - exists sql. split; assumption.
Defined.

Lemma X_analysis_faults_tolerated_witness :
  let out := process_query (stub_selective "SELECT 1") engine0 "total payments count?" None in
  out.2 = SUCCESS /\ r_insight out.1.2 = "Based on the data:".
Proof.
  destruct (X_analysis_faults_tolerated (stub_selective "SELECT 1") engine0
              "total payments count?" None "SELECT 1"
              (execute (conn (stub_selective "SELECT 1")) (executor engine0) "SELECT 1" true).1
              df_plain eq_refl eq_refl eq_refl eq_refl)
    as (T & _ & _ & _ & _ & Hi & _).
  cbn zeta. split; [exact T|].
  apply (Hi (InsightGenerationError_ "Failed to generate insight: timeout")).
  reflexivity.
Defined.

Lemma X_result_coherent_witness :
  (process_query (stub "DROP TABLE transactions") engine0 "total payments count?" None).2
  <> SUCCESS
  /\ r_data (process_query (stub "DROP TABLE transactions") engine0
               "total payments count?" None).1.2 = [].
Proof.
  assert (N : (process_query (stub "DROP TABLE transactions") engine0
                 "total payments count?" None).2 <> SUCCESS)
    by (vm_compute; discriminate).
  split; [exact N|].
  destruct (X_result_coherent (stub "DROP TABLE transactions") engine0
              "total payments count?" None) as (_ & _ & _ & _ & H).
  exact (proj1 (H N)).
Defined.

Lemma X_general_track_witness :
  (let out := process_query (stub_selective "SELECT 1") engine0 "hi there" (Some "c1") in
   _general_conversations out.1.1
   = {[ "c1" := [{| user := "hi there"; assistant := "re: hi there" |}] ]})
  /\ (let out := process_query (stub_selective "SELECT 1") engine0 "hello" (Some "c1") in
      out.1.1 = engine0 /\ r_insight out.1.2 = GENERAL_FALLBACK).
Proof.
  split.
  - destruct (X_general_track (stub_selective "SELECT 1") engine0 "hi there" (Some "c1"))
      as (_ & _ & H & _).
    destruct (H "c1" " re: hi there") as [_ E];
      [vm_compute; reflexivity | reflexivity | discriminate | vm_compute; reflexivity |].
    cbn zeta. rewrite E. vm_compute. reflexivity.
  - destruct (X_general_track (stub_selective "SELECT 1") engine0 "hello" (Some "c1"))
      as (_ & H & _).
    apply H; vm_compute; reflexivity.
Defined.

Lemma X_history_fifo_witness :
  _conversations
    (process_query (stub "SELECT 1") engine0 "total payments count?" (Some "c1")).1.1
  !! "c1"
  = Some [{| Orchestrator.user_query := "total payments count?";
             Orchestrator.sql := "SELECT 1" |}].
Proof.
  destruct (X_history_fifo (stub "SELECT 1") engine0 "total payments count?" "c1" [])
    as (sql & Hs & Hlt & _);
    [reflexivity | discriminate | reflexivity | cbn; lia |].
  assert (sql = "SELECT 1") as -> by (vm_compute in Hs; congruence).
  apply Hlt. cbn. lia.
Defined.

Lemma X_clear_conversation_witness :
  _get_history
    (clear_conversation
       (process_query (stub "SELECT 1") engine0 "total payments count?" (Some "c1")).1.1
       (Some "c1"))
    (Some "c1") = [].
Proof.
  destruct (X_clear_conversation
              (process_query (stub "SELECT 1") engine0 "total payments count?"
                 (Some "c1")).1.1) as [H _].
  destruct (H "c1") as (_ & _ & _ & _ & G & _); [discriminate|exact G].
Defined.

Lemma X_followup_after_success_witness :
  route (stub_faulty "SELECT 1")
    (process_query (stub "SELECT 1") engine0 "total payments count?" (Some "c1")).1.1
    "and what about those?" (Some "c1")
  = Router.data.
Proof.
  destruct (X_followup_after_success (stub "SELECT 1") engine0
              "total payments count?" "c1") as [_ H];
    [reflexivity | discriminate |].
  apply H. reflexivity.
Defined.

End OrchestratorExtra.

(** ** More on the signal detector *)

Module DetectorExtra.
Import PyStr Frame Detector DetectorSteps.
Local Open Scope string_scope.

Lemma elem_of_add_if cond name x (signals : gset string) :
  x ∈ add_if cond name signals <-> (cond = true /\ x = name) \/ x ∈ signals.
Proof.
  unfold add_if. destruct cond.
  - rewrite elem_of_union, elem_of_singleton. intuition.
  - intuition. discriminate.
Qed.

Lemma extract_signals_nonempty df query_context :
  empty df = false ->
  extract_signals df query_context
  = match status_step df, external_step df with
    | Some status, Some external =>
        Some (signal_set
                (existsb failure_rate_column (Frame.columns df))
                status
                (existsb (failed_count_column df) (Frame.columns df))
                (in_columns df "hour_of_day" && existsb peak_column (Frame.columns df))
                (in_columns df "network_type")
                (in_columns df "device_type" && existsb device_column (Frame.columns df))
                (in_columns df "is_weekend"
                 && existsb (weekend_column df) (Frame.columns df))
                external
                (billing_text query_context)
                (existsb retry_column (Frame.columns df))
                (in_columns df "amount_inr" && in_columns df "fraud_flag"
                 && high_value_risk df)
                (fraud_text query_context)
                ((in_columns df "sender_bank" || in_columns df "receiver_bank")
                 && existsb bank_column (Frame.columns df)))
    | _, _ => None
    end.
Proof.
  intros Hne. unfold extract_signals, status_step, external_step. rewrite Hne.
  destruct (if negb _ && in_columns df "transaction_status" then _ else _);
    [|reflexivity].
  cbn [mbind option_bind].
  destruct (if in_columns df "transaction_type" then _ else _); reflexivity.
Qed.

Lemma add_if_ne cond name x (signals : gset string) :
  name <> x -> (x ∈ add_if cond name signals <-> x ∈ signals).
Proof. intros N. rewrite elem_of_add_if. intuition congruence. Qed.

Lemma add_if_eq cond x (signals : gset string) :
  x ∈ add_if cond x signals <-> cond = true \/ x ∈ signals.
Proof. rewrite elem_of_add_if. intuition. Qed.

Lemma not_in_empty (x : string) : x ∈ (∅ : gset string) <-> False.
Proof. split; [apply not_elem_of_empty|contradiction]. Qed.

(** Membership of a named signal, one [add] after the other. *)
Ltac peel :=
  repeat first
    [ rewrite add_if_eq
    | rewrite add_if_ne by discriminate
    | rewrite not_in_empty ].

Section SignalSet.
Variables fd status fc peak net dev maint ext billing retry hvr fraud bank : bool.
Let S := signal_set fd status fc peak net dev maint ext billing retry hvr fraud bank.

Lemma in_high_failure :
  "HIGH_FAILURE_RATE" ∈ S <-> fd = true \/ status = true \/ fc = true.
Proof.
  unfold S, signal_set. peel. destruct fd, status, fc; cbn; intuition discriminate.
Qed.

Lemma in_external : "EXTERNAL_DEPENDENCY" ∈ S <-> ext = true \/ billing = true.
Proof. unfold S, signal_set. peel. intuition. Qed.

Lemma in_heavy : "HEAVY_VALIDATION" ∈ S <-> ext = true \/ billing = true.
Proof. unfold S, signal_set. peel. intuition. Qed.

Lemma in_fraud : "FRAUD_CONCENTRATION" ∈ S <-> fraud = true.
Proof. unfold S, signal_set. peel. intuition. Qed.

Lemma in_network : "NETWORK_FRAGILITY" ∈ S <-> net = true.
Proof. unfold S, signal_set. peel. intuition. Qed.

Lemma in_retries :
  "HIGH_RETRIES" ∈ S <->
  retry = true
  \/ ((fd = true \/ status = true \/ fc = true) /\ (ext = true \/ billing = true)).
Proof.
  unfold S, signal_set. peel.
  rewrite andb_true_iff, !bool_decide_eq_true. peel.
  destruct fd, status, fc, ext, billing; cbn; intuition discriminate.
Qed.

Lemma in_vocabulary x :
  x ∈ S ->
  In x ["HIGH_FAILURE_RATE"; "PEAK_SENSITIVE"; "NETWORK_FRAGILITY"; "DEVICE_SENSITIVITY";
        "MAINTENANCE_WINDOW_PATTERN"; "EXTERNAL_DEPENDENCY"; "HEAVY_VALIDATION";
        "HIGH_RETRIES"; "HIGH_VALUE_RISK"; "FRAUD_CONCENTRATION"; "BANK_CONCENTRATION"].
Proof.
  unfold S, signal_set. intros H.
  repeat (apply elem_of_add_if in H; destruct H as [[_ ->]|H]; [cbn; tauto|]).
  apply not_elem_of_empty in H. contradiction.
Qed.

End SignalSet.

Lemma extract_signals_cases df query_context signals :
  extract_signals df query_context = Some signals ->
  (empty df = true /\ signals = ∅)
  \/ (empty df = false /\
      exists status external,
        status_step df = Some status /\ external_step df = Some external
        /\ signals
           = signal_set
                (existsb failure_rate_column (Frame.columns df))
                status
                (existsb (failed_count_column df) (Frame.columns df))
                (in_columns df "hour_of_day" && existsb peak_column (Frame.columns df))
                (in_columns df "network_type")
                (in_columns df "device_type" && existsb device_column (Frame.columns df))
                (in_columns df "is_weekend"
                 && existsb (weekend_column df) (Frame.columns df))
                external
                (billing_text query_context)
                (existsb retry_column (Frame.columns df))
                (in_columns df "amount_inr" && in_columns df "fraud_flag"
                 && high_value_risk df)
                (fraud_text query_context)
                ((in_columns df "sender_bank" || in_columns df "receiver_bank")
                 && existsb bank_column (Frame.columns df))).
Proof.
  destruct (empty df) eqn:He.
  - unfold extract_signals. rewrite He. intros E. inversion E. left. auto.
  - rewrite (extract_signals_nonempty df query_context He).
    destruct (status_step df) as [status|]; [|discriminate].
    destruct (external_step df) as [external|]; [|discriminate].
    intros E. inversion E. right. split; [reflexivity|].
    exists status, external. auto.
Qed.

(** X18. EXTERNAL_DEPENDENCY and HEAVY_VALIDATION are always detected together: the table rule and the text rule add the one exactly when they add the other. *)
Theorem X_external_iff_heavy (df : DataFrame) (query_context : string)
    (signals : gset string) :
  extract_signals df query_context = Some signals ->
  ("EXTERNAL_DEPENDENCY" ∈ signals <-> "HEAVY_VALIDATION" ∈ signals).
Proof.
  intros H. destruct (extract_signals_cases df query_context signals H)
    as [[_ ->]|(_ & status & external & _ & _ & ->)].
  - rewrite !not_in_empty. reflexivity.
  - rewrite in_external, in_heavy. reflexivity.
Qed.

(** X19. Whenever HIGH_FAILURE_RATE and EXTERNAL_DEPENDENCY are both detected, HIGH_RETRIES is detected as well (and so is HEAVY_VALIDATION). *)
Theorem X_high_retries_inferred (df : DataFrame) (query_context : string)
    (signals : gset string) :
  extract_signals df query_context = Some signals ->
  "HIGH_FAILURE_RATE" ∈ signals -> "EXTERNAL_DEPENDENCY" ∈ signals ->
  "HIGH_RETRIES" ∈ signals /\ "HEAVY_VALIDATION" ∈ signals.
Proof.
  intros H. destruct (extract_signals_cases df query_context signals H)
    as [[_ ->]|(_ & status & external & _ & _ & ->)].
  - rewrite !not_in_empty. contradiction.
  - rewrite in_high_failure, in_external, in_retries, in_heavy. tauto.
Qed.

(** X20. [extract_signals] returns names of the closed vocabulary of eleven signals only. *)
Theorem X_signal_vocabulary (df : DataFrame) (query_context : string)
    (signals : gset string) (x : string) :
  extract_signals df query_context = Some signals ->
  x ∈ signals ->
  In x ["HIGH_FAILURE_RATE"; "PEAK_SENSITIVE"; "NETWORK_FRAGILITY"; "DEVICE_SENSITIVITY";
        "MAINTENANCE_WINDOW_PATTERN"; "EXTERNAL_DEPENDENCY"; "HEAVY_VALIDATION";
        "HIGH_RETRIES"; "HIGH_VALUE_RISK"; "FRAUD_CONCENTRATION"; "BANK_CONCENTRATION"].
Proof.
  intros H. destruct (extract_signals_cases df query_context signals H)
    as [[_ ->]|(_ & status & external & _ & _ & ->)].
  - intros X. apply not_elem_of_empty in X. contradiction.
  - apply in_vocabulary.
Qed.

(** X21. On a non-empty table, FRAUD_CONCENTRATION is detected exactly when the lower-cased question contains fraud, flag or risk, whatever the table holds, and NETWORK_FRAGILITY exactly when the table has a column named network_type in some letter case, whatever its values. *)
Theorem X_single_test_signals (df : DataFrame) (query_context : string)
    (signals : gset string) :
  empty df = false ->
  extract_signals df query_context = Some signals ->
  ("FRAUD_CONCENTRATION" ∈ signals <->
   contains "fraud" (lower query_context) || contains "flag" (lower query_context)
   || contains "risk" (lower query_context) = true)
  /\ ("NETWORK_FRAGILITY" ∈ signals <-> in_columns df "network_type" = true).
Proof.
  intros Hne H. destruct (extract_signals_cases df query_context signals H)
    as [[He _]|(_ & status & external & _ & _ & ->)]; [congruence|].
  rewrite in_fraud, in_network. split; reflexivity.
Qed.

(** X22. On a table whose status column, if there is one, is numeric, boolean or an object column of text, [extract_signals] raises in two situations only, both on non-empty tables: no failure-rate column fired and a column is named transaction_status up to letter case, but no column bears exactly that label or the one that does is not a column of text; or a column is named transaction_type up to letter case but none bears exactly that label. The question text plays no part. *)
Theorem X_extract_signals_raises (df : DataFrame) (query_context : string) :
  status_column_plain df = true ->
  extract_signals df query_context = None <->
  empty df = false
  /\ ((existsb failure_rate_column (Frame.columns df) = false
       /\ in_columns df "transaction_status" = true
       /\ forall col, getitem df "transaction_status" = Some col -> dtype_of col <> object)
      \/ (in_columns df "transaction_type" = true
          /\ getitem df "transaction_type" = None)).
Proof.
  intros _. destruct (empty df) eqn:He.
  - unfold extract_signals. rewrite He. split; [discriminate|]. intros [C _]. discriminate.
  - rewrite (extract_signals_nonempty df query_context He).
    assert (Hrows : (0 <? n_rows df)%nat = true).
    { unfold empty in He. apply orb_false_iff in He. destruct He as [He _].
      apply Nat.eqb_neq in He. apply Nat.ltb_lt. lia. }
    assert (Hs : status_step df = None <->
                 existsb failure_rate_column (Frame.columns df) = false
                 /\ in_columns df "transaction_status" = true
                 /\ forall col, getitem df "transaction_status" = Some col ->
                                dtype_of col <> object).
    { unfold status_step, status_rate_high, failed_count. rewrite Hrows.
      destruct (existsb failure_rate_column (Frame.columns df)); cbn [negb andb].
      - split; [discriminate|]. intros [C _]. discriminate.
      - destruct (in_columns df "transaction_status").
        + destruct (getitem df "transaction_status") as [col|].
          * destruct (dtype_of col) eqn:Hd; split; try discriminate;
              try (intros _; repeat split; intros c E; inversion E; subst; congruence).
            intros (_ & _ & F). exfalso. exact (F col eq_refl Hd).
          * split; [|reflexivity]. intros _. repeat split. discriminate.
        + split; [discriminate|]. intros (_ & C & _). discriminate. }
    assert (Hx : external_step df = None <->
                 in_columns df "transaction_type" = true
                 /\ getitem df "transaction_type" = None).
    { unfold external_step, external_types.
      destruct (in_columns df "transaction_type").
      - destruct (getitem df "transaction_type"); split; try discriminate; auto.
        intros [_ C]. discriminate.
      - split; [discriminate|]. intros [C _]. discriminate. }
    destruct (status_step df) as [status|].
    + destruct (external_step df) as [external|].
      * split; [discriminate|]. intros [_ [C|C]].
        -- apply Hs in C. discriminate.
        -- apply Hx in C. discriminate.
      * split; [|reflexivity]. intros _. split; [reflexivity|]. right. apply Hx. reflexivity.
    + split; [|reflexivity]. intros _. split; [reflexivity|]. left. apply Hs. reflexivity.
Qed.

(** *** The two scenarios, for every table *)

Lemma foldr_max_ge (n : Q) (ns : list Q) (v : Q) :
  v = n \/ In v ns ->
  (v <= foldr (fun x m => if Qle_bool m x then x else m) n ns)%Q.
Proof.
  induction ns as [|y ys IH]; cbn [foldr]; intros H.
  - destruct H as [->|[]]. apply Qle_refl.
  - destruct (Qle_bool _ y) eqn:E.
    + apply Qle_bool_iff in E. destruct H as [->|[->|H]].
      * eapply Qle_trans; [apply IH; left; reflexivity|exact E].
      * apply Qle_refl.
      * eapply Qle_trans; [apply IH; right; exact H|exact E].
    + destruct H as [->|[->|H]].
      * apply IH. left. reflexivity.
      * apply Qlt_le_weak, Qnot_le_lt. intros C. apply Qle_bool_iff in C. congruence.
      * apply IH. right. exact H.
Qed.

Lemma numbers_In v vals : In (Num v) vals -> In v (numbers vals).
Proof.
  induction vals as [|c cs IH]; [intros []|]. intros [->|H]; cbn [numbers].
  - left. reflexivity.
  - destruct c; [right| |]; auto.
Qed.

Lemma exceeds_series_max vals v bound :
  In (Num v) vals -> (bound < v)%Q -> exceeds (series_max vals) bound = true.
Proof.
  intros Hin Hb. apply numbers_In in Hin. unfold series_max.
  destruct (numbers vals) as [|n ns]; [destruct Hin|].
  cbn [exceeds]. unfold Qlt_bool. apply negb_true_iff.
  destruct (Qle_bool _ bound) eqn:E; [|reflexivity]. exfalso.
  apply Qle_bool_iff in E.
  assert (G : (v <= foldr (fun x m => if Qle_bool m x then x else m) n ns)%Q).
  { apply foldr_max_ge. destruct Hin as [->|H]; auto. }
  apply (Qlt_irrefl bound). eapply Qlt_le_trans; [exact Hb|].
  eapply Qle_trans; [exact G|exact E].
Qed.

Lemma in_columns_getitem df name col :
  getitem df name = Some col -> lower name = name -> in_columns df name = true.
Proof.
  unfold getitem, in_columns. intros H L. apply find_some in H. destruct H as [Hin E].
  apply existsb_exists. exists col. split; [exact Hin|].
  apply String.eqb_eq in E. rewrite E, L. apply String.eqb_refl.
Qed.

(** X23. If a table with rows has a float64, int64 or float32 column whose lower-cased label contains fail and one of rate, pct, percent, and that column holds a value above 5, then HIGH_FAILURE_RATE is detected. *)
Theorem X_failure_rate_detected (df : DataFrame) (query_context : string)
    (signals : gset string) (col : Series) (v : Q) :
  extract_signals df query_context = Some signals ->
  (0 < n_rows df)%nat ->
  In col (Frame.columns df) ->
  contains "fail" (lower (label col)) = true ->
  contains "rate" (lower (label col)) || contains "pct" (lower (label col))
  || contains "percent" (lower (label col)) = true ->
  dtype_of col = float64 \/ dtype_of col = int64 \/ dtype_of col = float32 ->
  In (Num v) (values col) -> (5 < v)%Q ->
  "HIGH_FAILURE_RATE" ∈ signals.
Proof.
  intros H Hrows Hin Hf Hr Hd Hv H5.
  destruct (extract_signals_cases df query_context signals H)
    as [[He _]|(_ & status & external & _ & _ & ->)].
  - exfalso. unfold empty in He. apply orb_true_iff in He. destruct He as [He|He].
    + apply Nat.eqb_eq in He. lia.
    + apply Nat.eqb_eq in He. destruct (Frame.columns df); [destruct Hin|discriminate].
  - apply in_high_failure. left. apply existsb_exists. exists col. split; [exact Hin|].
    unfold failure_rate_column. cbn zeta. rewrite Hf, Hr, orb_true_r.
    rewrite (exceeds_series_max _ v 5 Hv H5).
    destruct Hd as [->|[->| ->]]; reflexivity.
Qed.

(** X24. If the column labelled transaction_type of a table with rows holds the value Bill Payment or Recharge, then EXTERNAL_DEPENDENCY and HEAVY_VALIDATION are detected, and HIGH_RETRIES too as soon as HIGH_FAILURE_RATE is. *)
Theorem X_external_types_detected (df : DataFrame) (query_context : string)
    (signals : gset string) (col : Series) (t : string) :
  extract_signals df query_context = Some signals ->
  (0 < n_rows df)%nat ->
  getitem df "transaction_type" = Some col ->
  In (Str t) (values col) ->
  t = "Bill Payment" \/ t = "Recharge" ->
  "EXTERNAL_DEPENDENCY" ∈ signals /\ "HEAVY_VALIDATION" ∈ signals
  /\ ("HIGH_FAILURE_RATE" ∈ signals -> "HIGH_RETRIES" ∈ signals).
Proof.
  intros H Hrows Hg Hin Ht.
  destruct (extract_signals_cases df query_context signals H)
    as [[He _]|(_ & status & external & _ & Hx & ->)].
  - exfalso. unfold empty in He. apply orb_true_iff in He. destruct He as [He|He].
    + apply Nat.eqb_eq in He. lia.
    + apply Nat.eqb_eq in He. unfold getitem in Hg.
      destruct (Frame.columns df); [discriminate|discriminate].
  - assert (E : external = true).
    { unfold external_step in Hx.
      rewrite (in_columns_getitem df _ col Hg eq_refl) in Hx.
      unfold external_types in Hx. rewrite Hg in Hx. inversion Hx as [X].
      apply existsb_exists. exists (Str t). split; [exact Hin|].
      destruct Ht as [->| ->]; reflexivity. }
    rewrite in_external, in_heavy, in_high_failure, in_retries. subst external.
    repeat split; auto.
Qed.

(** *** Examples *)

Lemma X_external_iff_heavy_witness :
  "HEAVY_VALIDATION" ∈ ({[ "EXTERNAL_DEPENDENCY"; "HEAVY_VALIDATION" ]} : gset string).
Proof.
  apply (X_external_iff_heavy df_types "by type"
           {[ "EXTERNAL_DEPENDENCY"; "HEAVY_VALIDATION" ]}).
  - vm_compute. reflexivity.
  - set_solver.
Defined.

Lemma X_high_retries_inferred_witness :
  "HIGH_RETRIES"
  ∈ ({[ "HIGH_FAILURE_RATE"; "EXTERNAL_DEPENDENCY"; "HEAVY_VALIDATION"; "HIGH_RETRIES" ]}
     : gset string).
Proof.
  refine (proj1 (X_high_retries_inferred df_rates_types "rates by type" _ _ _ _)).
  - vm_compute. reflexivity.
  - set_solver.
  - set_solver.
Defined.

Lemma X_signal_vocabulary_witness :
  In "HIGH_FAILURE_RATE"
     ["HIGH_FAILURE_RATE"; "PEAK_SENSITIVE"; "NETWORK_FRAGILITY"; "DEVICE_SENSITIVITY";
      "MAINTENANCE_WINDOW_PATTERN"; "EXTERNAL_DEPENDENCY"; "HEAVY_VALIDATION";
      "HIGH_RETRIES"; "HIGH_VALUE_RISK"; "FRAUD_CONCENTRATION"; "BANK_CONCENTRATION"].
Proof.
  apply (X_signal_vocabulary df_rates "rates" {[ "HIGH_FAILURE_RATE" ]}).
  - vm_compute. reflexivity.
  - set_solver.
Defined.

Lemma X_single_test_signals_witness :
  "FRAUD_CONCENTRATION" ∉ ({[ "HIGH_FAILURE_RATE" ]} : gset string).
Proof.
  destruct (X_single_test_signals df_rates "rates" {[ "HIGH_FAILURE_RATE" ]})
    as [H _]; [reflexivity | vm_compute; reflexivity |].
  intros C. apply H in C. discriminate.
Defined.

Lemma X_extract_signals_raises_witness :
  extract_signals df_mixed_case "by type" = None
  /\ extract_signals df_status_codes "by status" = None
  /\ extract_signals df_types "by type" <> None.
Proof.
  split; [|split].
  - apply X_extract_signals_raises; [reflexivity|].
    split; [reflexivity|]. right. split; reflexivity.
  - apply X_extract_signals_raises; [reflexivity|].
    split; [reflexivity|]. left. split; [reflexivity|]. split; [reflexivity|].
    intros col E. vm_compute in E. injection E as <-. discriminate.
  - intros C. apply X_extract_signals_raises in C; [|reflexivity].
    destruct C as [_ [(_ & C & _)|(_ & C)]]; vm_compute in C; discriminate.
Defined.

Lemma X_failure_rate_detected_witness :
  "HIGH_FAILURE_RATE" ∈ ({[ "HIGH_FAILURE_RATE" ]} : gset string).
Proof.
  apply (X_failure_rate_detected df_rates "rates" _
           {| label := "failure_rate_pct"; dtype_of := float64;
              values := [Num (B64.lit 21 10); Num (B64.lit 65 10); Num (B64.lit 3 1)] |}
           (B64.lit 65 10)).
  - vm_compute. reflexivity.
  - cbn. lia.
  - left. reflexivity.
  - reflexivity.
  - reflexivity.
  - left. reflexivity.
  - right. left. reflexivity.
  - vm_compute. reflexivity.
Defined.

Lemma X_external_types_detected_witness :
  "EXTERNAL_DEPENDENCY" ∈ ({[ "EXTERNAL_DEPENDENCY"; "HEAVY_VALIDATION" ]} : gset string).
Proof.
  refine (proj1 (X_external_types_detected df_types "by type" _
                   {| label := "transaction_type"; dtype_of := object;
                      values := [Str "P2P"; Str "Bill Payment"] |}
                   "Bill Payment" _ _ _ _ _)).
  - vm_compute. reflexivity.
  - cbn. lia.
  - reflexivity.
  - right. left. reflexivity.
  - left. reflexivity.
Defined.

End DetectorExtra.

(** ** More on the router *)

Module RouterExtra.
Import PyStr Router Orchestrator RouterOps.
Local Open Scope string_scope.

Lemma llm_classify_general completion :
  _llm_classify completion = general <->
  exists content, completion = Some content
    /\ contains "DATA" (upper (strip content)) = false
    /\ contains "GENERAL" (upper (strip content)) = true.
Proof.
  unfold _llm_classify. destruct completion as [content|].
  - destruct (contains "DATA" (upper (strip content))) eqn:D.
    + split; [discriminate|]. intros (c & [= <-] & D' & _). congruence.
    + destruct (contains "GENERAL" (upper (strip content))) eqn:G.
      * split; [eauto|reflexivity].
      * split; [discriminate|]. intros (c & [= <-] & _ & G'). congruence.
  - split; [discriminate|]. intros (c & E & _). discriminate.
Qed.

Lemma keyword_classify_cases query_lower :
  (existsb (fun kw => re_search_word kw query_lower) GENERAL_KEYWORDS = true
   /\ _keyword_classify query_lower = Some general)
  \/ (existsb (fun kw => re_search_word kw query_lower) GENERAL_KEYWORDS = false
      /\ ((2 <= data_score query_lower)%nat
          \/ (data_score query_lower = 1%nat /\ contains "?" query_lower = true))
      /\ _keyword_classify query_lower = Some data)
  \/ (existsb (fun kw => re_search_word kw query_lower) GENERAL_KEYWORDS = false
      /\ (data_score query_lower < 2)%nat
      /\ (data_score query_lower = 1%nat -> contains "?" query_lower = false)
      /\ _keyword_classify query_lower = None).
Proof.
  unfold _keyword_classify.
  destruct (existsb _ GENERAL_KEYWORDS); [left; auto|right].
  destruct (2 <=? data_score query_lower)%nat eqn:E2.
  - left. apply Nat.leb_le in E2. auto.
  - apply Nat.leb_gt in E2.
    destruct (data_score query_lower =? 1)%nat eqn:E1.
    + apply Nat.eqb_eq in E1. destruct (contains "?" query_lower) eqn:Q.
      * left. auto.
      * right. auto.
    + apply Nat.eqb_neq in E1. right. repeat split; auto. intros C. contradiction.
Qed.

(** X25. [classify] answers GENERAL in exactly two situations, and never for a follow-up in a conversation with data history: a GENERAL phrase occurs as whole words in the message (and, with data history, the message is not a question of at most 10 words); or no GENERAL phrase occurs, the count of DATA phrases leaves the keyword step undecided, and the classification service answered a text that contains GENERAL and not DATA. *)
Theorem X_general_verdict_iff (completion : option string) (user_query : string)
    (has_data_history : bool) :
  let query_lower := strip (lower user_query) in
  let phrase := existsb (fun kw => re_search_word kw query_lower) GENERAL_KEYWORDS in
  classify completion user_query has_data_history = general <->
  (has_data_history = true -> _is_followup query_lower = false)
  /\ ((phrase = true
       /\ (has_data_history = true ->
           (10 < length (split query_lower))%nat \/ contains "?" query_lower = false))
      \/ (phrase = false
          /\ (data_score query_lower < 2)%nat
          /\ (data_score query_lower = 1%nat -> contains "?" query_lower = false)
          /\ exists content, completion = Some content
               /\ contains "DATA" (upper (strip content)) = false
               /\ contains "GENERAL" (upper (strip content)) = true)).
Proof.
  cbn zeta. unfold classify.
  set (ql := strip (lower user_query)).
  destruct (has_data_history && _is_followup ql) eqn:F.
  - apply andb_true_iff in F as [-> F]. split; [discriminate|].
    intros [H _]. specialize (H eq_refl). congruence.
  - assert (HF : has_data_history = true -> _is_followup ql = false).
    { intros ->. exact F. }
    destruct (keyword_classify_cases ql)
      as [(G & K)|[(G & S & K)|(G & S2 & S1 & K)]]; rewrite K, G.
    + destruct has_data_history; cbn [andb].
      * destruct (length (split ql) <=? 10)%nat eqn:L; cbn [andb].
        -- apply Nat.leb_le in L. destruct (contains "?" ql) eqn:Q.
           ++ split; [discriminate|].
              intros [_ [[_ H]|[C _]]]; [|discriminate].
              destruct (H eq_refl) as [H'|H']; [lia|discriminate].
           ++ split; [|reflexivity]. intros _. split; [exact HF|]. left. auto.
        -- apply Nat.leb_gt in L. split; [|reflexivity].
           intros _. split; [exact HF|]. left. split; [reflexivity|]. intros _. left. exact L.
      * split; [|reflexivity]. intros _. split; [exact HF|]. left.
        split; [reflexivity|discriminate].
    + cbn [andb]. split; [discriminate|].
      intros [_ [[C _]|(_ & S2 & S1 & _)]]; [discriminate|].
      destruct S as [S|[S Q]]; [lia|]. rewrite (S1 S) in Q. discriminate.
    + rewrite llm_classify_general. split.
      * intros H. split; [exact HF|]. right. auto.
      * intros [_ [[C _]|(_ & _ & _ & H)]]; [discriminate|exact H].
Qed.

Lemma classify_decided completion completion' user_query has_data_history :
  decided_without_classifier user_query has_data_history = true ->
  classify completion user_query has_data_history
  = classify completion' user_query has_data_history.
Proof.
  unfold decided_without_classifier, classify.
  destruct (has_data_history && _is_followup (strip (lower user_query)));
    [reflexivity|].
  destruct (_keyword_classify (strip (lower user_query))); [reflexivity|discriminate].
Qed.

(** X26. When the follow-up test or the keyword step of [classify] settles the verdict, the classification service plays no part: [process_query] returns the same state, result and terminal whatever that service would answer. *)
Theorem X_classifier_not_consulted
    (w : Collaborators) (self : InsightXEngine)
    (user_query : string) (conversation_id : option string)
    (classifier : string -> bool -> option string) :
  decided_without_classifier user_query (has_data_history self conversation_id) = true ->
  process_query (with_classifier w classifier) self user_query conversation_id
  = process_query w self user_query conversation_id.
Proof.
  intros D. unfold process_query, route.
  cbn [classifier_completion with_classifier].
  rewrite (classify_decided
             (classifier user_query (has_data_history self conversation_id))
             (classifier_completion w user_query (has_data_history self conversation_id))
             _ _ D).
  reflexivity.
Qed.

Lemma X_general_verdict_iff_witness :
  classify (Some " general ") "so, anything new" false = general
  /\ classify None "so, anything new" false = data
  /\ classify (Some "DATA") "explain the failure rate by bank" false = general.
Proof.
  split; [|split].
  - apply X_general_verdict_iff. split; [discriminate|]. right.
    split; [reflexivity|]. split; [vm_compute; lia|]. split; [vm_compute; discriminate|].
    exists " general ". split; [reflexivity|]. split; reflexivity.
  - destruct (classify None "so, anything new" false) eqn:E; [reflexivity|].
    apply X_general_verdict_iff in E.
    destruct E as [_ [[C _]|(_ & _ & _ & c & C & _)]]; discriminate.
  - apply X_general_verdict_iff. split; [discriminate|]. left.
    split; [reflexivity|discriminate].
Defined.

Lemma X_classifier_not_consulted_witness :
  process_query (with_classifier (Samples.stub "SELECT 1") (fun _ _ => Some "GENERAL"))
                Samples.engine0 "total payments count?" None
  = process_query (Samples.stub "SELECT 1") Samples.engine0 "total payments count?" None.
Proof.
  apply X_classifier_not_consulted. vm_compute. reflexivity.
Defined.

End RouterExtra.

(** ** The translator *)

Module TranslatorExtra.
Import PyStr Validator ValidatorFacts Orchestrator Translator.
Local Open Scope string_scope.

Ltac each_char c := destruct c as [[] [] [] [] [] [] [] []].

Lemma upper_char_idem c : upper_char (upper_char c) = upper_char c.
Proof. each_char c; reflexivity. Qed.

Lemma is_word_upper_char c : is_word (upper_char c) = is_word c.
Proof. each_char c; reflexivity. Qed.

Lemma is_word_not_space c : is_word c = true -> is_space c = false.
Proof. each_char c; (reflexivity || discriminate). Qed.

Lemma is_space_not_word c : is_space c = true -> is_word c = false.
Proof. each_char c; (reflexivity || discriminate). Qed.

Lemma is_word_not_semicolon c : is_word c = true -> Ascii.eqb c ";" = false.
Proof. each_char c; (reflexivity || discriminate). Qed.

Lemma eqb_ci_word a b : eqb_ci a b = true -> is_word b = is_word a.
Proof.
  unfold eqb_ci. intros H. apply Ascii.eqb_eq in H.
  rewrite <- (is_word_upper_char a), <- (is_word_upper_char b), H. reflexivity.
Qed.

Lemma app_cons x a b : String x a ++ b = String x (a ++ b).
Proof. reflexivity. Qed.

Lemma app_nil b : "" ++ b = b.
Proof. reflexivity. Qed.

Lemma app_snoc cur c s : (cur ++ String c "") ++ s = cur ++ String c s.
Proof.
  induction cur as [|x cur IH]; [reflexivity|].
  rewrite !app_cons. f_equal. exact IH.
Qed.

Lemma app_empty cur : cur ++ "" = cur.
Proof. induction cur as [|x cur IH]; [reflexivity|]. rewrite app_cons. f_equal. exact IH. Qed.

Lemma app_assoc_s a b c : (a ++ b) ++ c = a ++ (b ++ c).
Proof. induction a as [|x a IH]; [reflexivity|]. rewrite !app_cons. f_equal. exact IH. Qed.

Lemma length_upper t : String.length (upper t) = String.length t.
Proof. induction t as [|c t IH]; simpl; [reflexivity|]. rewrite IH. reflexivity. Qed.

Lemma prefix_ci_upper t rest : prefix_ci (upper t) (t ++ rest) = true.
Proof.
  induction t as [|c t IH]; simpl; [reflexivity|].
  unfold eqb_ci. rewrite upper_char_idem, Ascii.eqb_refl. exact IH.
Qed.

Lemma take_chars_app t rest : take_chars (String.length t) (t ++ rest) = t.
Proof. induction t as [|c t IH]; simpl; [destruct rest; reflexivity|]. rewrite IH. reflexivity. Qed.

Lemma drop_app t rest : drop (String.length t) (t ++ rest) = rest.
Proof. induction t as [|c t IH]; simpl; [reflexivity|]. exact IH. Qed.

Lemma head_upper t : is_word_opt (head_char (upper t)) = is_word_opt (head_char t).
Proof. destruct t as [|c t]; simpl; [reflexivity|]. apply is_word_upper_char. Qed.

Lemma last_upper t : forall b b',
  is_word_opt b = is_word_opt b' ->
  is_word_opt (last_char b (upper t)) = is_word_opt (last_char b' t).
Proof.
  induction t as [|c t IH]; simpl; intros b b' H; [exact H|].
  apply IH. simpl. apply is_word_upper_char.
Qed.

Lemma last_char_snoc cur c : forall b, last_char b (cur ++ String c "") = Some c.
Proof. induction cur as [|x cur IH]; simpl; intros b; [reflexivity|]. apply IH. Qed.

(** A keyword that begins and ends with a word character. *)
Definition wordy (kw : string) : Prop :=
  is_word_opt (head_char kw) = true /\ forall b, is_word_opt (last_char b kw) = true.

Lemma token_match b t rest :
  wordy (upper t) -> is_word_opt b = false -> is_word_opt (head_char rest) = false ->
  word_match_here_ci b (upper t) (t ++ rest) = true.
Proof.
  intros [Hh Hl] Hb Hr. unfold word_match_here_ci.
  rewrite prefix_ci_upper, length_upper, take_chars_app, drop_app.
  rewrite head_upper in Hh.
  assert (Hl' : is_word_opt (last_char b t) = true).
  { rewrite <- (last_upper t b b eq_refl). apply Hl. }
  assert (Hh' : is_word_opt (head_char (t ++ rest)) = true).
  { destruct t; [discriminate|exact Hh]. }
  unfold word_boundary. rewrite Hb, Hr, Hl', Hh'. reflexivity.
Qed.

Lemma search_here b kws kw s :
  In kw kws -> word_match_here_ci b kw s = true -> word_search_ci_from b kws s = true.
Proof.
  intros Hin Hm.
  assert (E : existsb (fun kw => word_match_here_ci b kw s) kws = true)
    by (apply existsb_exists; exists kw; auto).
  destruct s; simpl; rewrite E; reflexivity.
Qed.

Lemma search_skip kws pre : forall b rest,
  word_search_ci_from (last_char b pre) kws rest = true ->
  word_search_ci_from b kws (pre ++ rest) = true.
Proof.
  induction pre as [|c pre IH]; intros b rest H; [exact H|].
  rewrite app_cons. cbn [word_search_ci_from]. rewrite (IH _ _ H). apply orb_true_r.
Qed.

(** A white-space delimited token whose upper-case form is a keyword is
    found by the case-insensitive word search. *)
Lemma split_from_search kws t :
  In (upper t) kws -> wordy (upper t) ->
  forall s cur b, is_word_opt b = false -> In t (split_from cur s) ->
  word_search_ci_from b kws (cur ++ s) = true.
Proof.
  intros Hkw Hw. induction s as [|c s IH]; intros cur b Hb Hin; simpl in Hin.
  - unfold flush in Hin. destruct (is_empty cur); [contradiction|].
    destruct Hin as [<-|[]].
    apply (search_here _ _ (upper cur)); [assumption|].
    apply token_match; auto.
  - destruct (is_space c) eqn:Hc.
    + apply in_app_or in Hin as [Hin|Hin].
      * unfold flush in Hin. destruct (is_empty cur); [contradiction|].
        destruct Hin as [<-|[]].
        apply (search_here _ _ (upper cur)); [assumption|].
        apply token_match; auto. simpl. apply is_space_not_word. exact Hc.
      * rewrite <- app_snoc. apply search_skip. rewrite last_char_snoc.
        apply (IH "" (Some c)); [|exact Hin].
        simpl. apply is_space_not_word. exact Hc.
    + rewrite <- app_snoc. apply IH; assumption.
Qed.

Lemma dangerous_pattern kw :
  In kw DANGEROUS_KEYWORDS -> In kw DANGEROUS_PATTERNS /\ wordy kw.
Proof.
  unfold DANGEROUS_KEYWORDS. simpl. intros H.
  repeat (destruct H as [<-|H];
          [split; [unfold DANGEROUS_PATTERNS; simpl; tauto
                  | split; [reflexivity | intros b; reflexivity]]|]).
  contradiction.
Qed.

(** Whatever [validate_query] rejects for a destructive token, the
    translator's pattern finds too. *)
Lemma dangerous_token_found sql kw :
  In kw DANGEROUS_KEYWORDS -> In kw (split (strip (upper sql))) ->
  re_search_words_ci DANGEROUS_PATTERNS sql = true.
Proof.
  rewrite split_strip, split_upper. intros Hk Hin.
  apply in_map_iff in Hin as (t & Ht & Hin). subst kw.
  destruct (dangerous_pattern _ Hk) as [Hp Hw].
  exact (split_from_search _ t Hp Hw sql "" None eq_refl Hin).
Qed.

Lemma validate_sql_cases sql :
  _validate_sql sql = true ->
  re_search_words_ci DANGEROUS_PATTERNS sql = false
  /\ (startswith (strip (upper sql)) "SELECT" = true
      \/ startswith (strip (upper sql)) "WITH" = true)
  /\ contains "transactions" (lower sql) = true.
Proof.
  unfold _validate_sql.
  destruct (is_empty sql); [discriminate|].
  destruct (re_search_words_ci DANGEROUS_PATTERNS sql); [discriminate|].
  destruct (startswith (strip (upper sql)) "SELECT") eqn:E1;
    destruct (startswith (strip (upper sql)) "WITH") eqn:E2; simpl;
    try discriminate;
    (destruct (contains "transactions" (lower sql)); simpl; [|discriminate]);
    intros _; auto.
Qed.

(** The translator's own validation is at least as strict as the data
    manager's. *)
Lemma validate_sql_validate_query sql :
  _validate_sql sql = true -> validate_query sql = true.
Proof.
  intros H. apply validate_sql_cases in H. destruct H as (Hd & Hs & _).
  apply validate_query_spec. split; [|exact Hs].
  intros kw Hk Hin. rewrite (dangerous_token_found sql kw Hk Hin) in Hd. discriminate.
Qed.

(** *** Appending the LIMIT clause *)

Lemma limit_clause :
  String "010" ("LIMIT " ++ pretty 10000%Z) = String "010" "LIMIT 10000".
Proof. vm_compute. reflexivity. Qed.

Lemma split_from_app_space c b : is_space c = true ->
  forall a cur, split_from cur (a ++ String c b) = (split_from cur a ++ split_from "" b)%list.
Proof.
  intros Hc. induction a as [|x a IH]; intros cur; simpl.
  - rewrite Hc. reflexivity.
  - destruct (is_space x).
    + rewrite IH, app_assoc. reflexivity.
    + apply IH.
Qed.

Lemma prefix_app p : forall x y, String.prefix p x = true -> String.prefix p (x ++ y) = true.
Proof.
  induction p as [|a p IH]; intros x y H; [destruct (x ++ y); reflexivity|].
  destruct x as [|b x]; [discriminate|]. rewrite app_cons. simpl in *.
  destruct (ascii_dec a b); [|discriminate]. apply IH. exact H.
Qed.

Lemma contains_app_l sub : forall s t, contains sub s = true -> contains sub (s ++ t) = true.
Proof.
  induction s as [|c s IH]; intros t H.
  - simpl in H. rewrite orb_false_r in H.
    destruct sub; [|discriminate]. destruct t; reflexivity.
  - cbn [contains] in H. apply orb_true_iff in H as [H|H].
    + rewrite app_cons. cbn [contains]. rewrite <- app_cons, (prefix_app _ _ t H). reflexivity.
    + rewrite app_cons. cbn [contains]. rewrite (IH t H). apply orb_true_r.
Qed.

Lemma contains_app_r sub t : contains sub t = true -> forall s, contains sub (s ++ t) = true.
Proof.
  intros H. induction s as [|c s IH]; [exact H|].
  rewrite app_cons. cbn [contains]. rewrite IH. apply orb_true_r.
Qed.

Lemma lower_app a b : lower (a ++ b) = lower a ++ lower b.
Proof. induction a as [|c a IH]; simpl; [reflexivity|]. rewrite IH. reflexivity. Qed.

Lemma rstrip_app_keep b : is_empty (rstrip b) = false ->
  forall a, rstrip (a ++ b) = a ++ rstrip b.
Proof.
  intros Hb. induction a as [|c a IH]; [reflexivity|].
  rewrite app_cons. cbn [rstrip]. rewrite IH.
  destruct (a ++ rstrip b) eqn:E.
  - destruct a; [|discriminate]. rewrite app_nil in E. rewrite E in Hb. discriminate.
  - cbn [is_empty]. rewrite andb_false_r, app_cons, E. reflexivity.
Qed.

Lemma rstrip_split a : exists w, a = rstrip a ++ w.
Proof.
  induction a as [|c a [w IH]]; [exists ""; reflexivity|].
  simpl. destruct (is_space c && is_empty (rstrip a)) eqn:E.
  - exists (String c a). reflexivity.
  - exists w. rewrite app_cons, <- IH. reflexivity.
Qed.

Lemma lstrip_app_keep a b : is_empty (lstrip a) = false -> lstrip (a ++ b) = lstrip a ++ b.
Proof.
  induction a as [|c a IH]; [discriminate|].
  simpl. destruct (is_space c); [exact IH|reflexivity].
Qed.

Lemma strip_prefix_app p sql tail :
  is_empty p = false -> is_empty (rstrip tail) = false ->
  String.prefix p (strip sql) = true ->
  String.prefix p (strip (sql ++ tail)) = true.
Proof.
  intros Hp Ht H. unfold strip in *.
  rewrite (rstrip_app_keep _ Ht).
  destruct (rstrip_split sql) as [w Hw].
  assert (Hne : is_empty (lstrip (rstrip sql)) = false).
  { destruct (lstrip (rstrip sql)); [|reflexivity]. destruct p; discriminate. }
  rewrite Hw, app_assoc_s, (lstrip_app_keep _ _ Hne).
  apply prefix_app. exact H.
Qed.

Lemma ensure_limit_validate_query sql :
  validate_query sql = true -> validate_query (_ensure_limit sql 10000%Z) = true.
Proof.
  intros H. unfold _ensure_limit.
  destruct (negb (contains "LIMIT" (upper sql))); [|exact H].
  rewrite limit_clause.
  apply validate_query_spec in H. destruct H as [Hno Hs].
  apply validate_query_spec. split.
  - intros kw Hk Hin.
    rewrite split_strip, split_upper in Hin. unfold split in Hin.
    rewrite (split_from_app_space _ _ (eq_refl : is_space "010" = true)) in Hin.
    rewrite map_app in Hin. apply in_app_or in Hin as [Hin|Hin].
    + apply (Hno kw Hk). rewrite split_strip, split_upper. unfold split. exact Hin.
    + revert Hk. unfold DANGEROUS_KEYWORDS. simpl in Hin. simpl.
      destruct Hin as [<-|[<-|[]]]; intros Hk;
        repeat (destruct Hk as [Hk|Hk]; [discriminate|]); contradiction.
  - rewrite upper_app. unfold startswith in *.
    destruct Hs as [Hs|Hs]; [left|right];
      (apply strip_prefix_app; [reflexivity|reflexivity|exact Hs]).
Qed.

Lemma ensure_limit_has_limit sql max_rows :
  contains "LIMIT" (upper (_ensure_limit sql max_rows)) = true.
Proof.
  unfold _ensure_limit.
  destruct (contains "LIMIT" (upper sql)) eqn:E; simpl; [exact E|].
  rewrite upper_app. apply contains_app_r. reflexivity.
Qed.

Lemma ensure_limit_keeps sub sql max_rows :
  contains sub (lower sql) = true ->
  contains sub (lower (_ensure_limit sql max_rows)) = true.
Proof.
  intros H. unfold _ensure_limit.
  destruct (negb (contains "LIMIT" (upper sql))); [|exact H].
  rewrite lower_app. apply contains_app_l. exact H.
Qed.

Lemma translate_safe chat self call user_query history sql :
  translate chat self call user_query history = inr sql ->
  validate_query sql = true
  /\ contains "LIMIT" (upper sql) = true
  /\ contains "transactions" (lower sql) = true.
Proof.
  unfold translate.
  destruct (chat call _) as [e|content]; [discriminate|].
  destruct (_validate_sql (_clean_sql (strip content))) eqn:Ev; simpl; [|discriminate].
  intros [= <-].
  split; [|split].
  - apply ensure_limit_validate_query, validate_sql_validate_query, Ev.
  - apply ensure_limit_has_limit.
  - apply ensure_limit_keeps. apply validate_sql_cases in Ev. tauto.
Qed.

(** *** The retry loop *)

Lemma retry_loop_spec chat self user_query history total : forall attempts call last,
  let attempt k := translate chat self (call + k) user_query history in
  let out := retry_loop chat self call user_query history attempts total last in
  (exists k sql,
     k < attempts /\ attempt k = inr sql
     /\ (forall j, j < k -> exists e, attempt j = inl e)
     /\ out = (call + k + 1, inr sql))
  \/ ((forall j, j < attempts -> exists e, attempt j = inl e)
      /\ exists e,
           out = (call + attempts,
                  inl (TranslationError_
                         ("Translation failed after " ++ pretty total
                          ++ " attempts. Last error: " ++ e)))
           /\ match attempts with
              | O => e = last
              | S a => attempt a = inl (TranslationError_ e)
              end).
Proof.
  induction attempts as [|a IH]; intros call last; cbn zeta.
  - right. split; [intros j Hj; lia|].
    exists last. split; [|reflexivity]. simpl. rewrite Nat.add_0_r. reflexivity.
  - cbn [retry_loop].
    destruct (translate chat self call user_query history) as [[e]|sql] eqn:E.
    + specialize (IH (S call) e). cbn zeta in IH.
      destruct IH as [(k & sql & Hk & Hs & Hf & Ho)|(Hf & e' & Ho & Hl)].
      * left. exists (S k), sql. split; [lia|].
        replace (call + S k) with (S call + k) by lia.
        split; [exact Hs|]. split; [|rewrite Ho; f_equal; lia].
        intros j Hj. destruct j as [|j].
        -- rewrite Nat.add_0_r, E. eauto.
        -- replace (call + S j) with (S call + j) by lia. apply Hf. lia.
      * right. split.
        -- intros j Hj. destruct j as [|j].
           ++ rewrite Nat.add_0_r, E. eauto.
           ++ replace (call + S j) with (S call + j) by lia. apply Hf. lia.
        -- exists e'. split; [rewrite Ho; f_equal; lia|].
           destruct a as [|a'].
           ++ subst e'. rewrite Nat.add_0_r. exact E.
           ++ replace (call + S a') with (S call + a') by lia. exact Hl.
    + left. exists 0, sql. rewrite Nat.add_0_r.
      split; [lia|]. split; [exact E|]. split; [intros j Hj; lia|].
      f_equal. lia.
Qed.

Lemma retry_loop_from_translate chat self user_query history total sql :
  forall attempts call last,
  (retry_loop chat self call user_query history attempts total last).2 = inr sql ->
  exists k, translate chat self (call + k) user_query history = inr sql.
Proof.
  intros attempts call last H.
  destruct (retry_loop_spec chat self user_query history total attempts call last)
    as [(k & sql' & _ & Hs & _ & Ho)|(_ & e & Ho & _)]; cbn zeta in *.
  - rewrite Ho in H. simpl in H. injection H as ->. eauto.
  - rewrite Ho in H. discriminate.
Qed.

Lemma retry_safe chat self first_call user_query max_retries history sql :
  (translate_with_retry chat self first_call user_query max_retries history).2 = inr sql ->
  validate_query sql = true
  /\ contains "LIMIT" (upper sql) = true
  /\ contains "transactions" (lower sql) = true.
Proof.
  intros H. apply retry_loop_from_translate in H as [k Hk].
  exact (translate_safe _ _ _ _ _ _ Hk).
Qed.

(** X27. Every statement [translate_with_retry] returns passes the data manager's [validate_query], contains LIMIT (in any letter case) and names the transactions table (in any letter case). *)
Theorem X_translated_sql_safe chat self first_call user_query max_retries history sql :
  (translate_with_retry chat self first_call user_query max_retries history).2 = inr sql ->
  validate_query sql = true
  /\ contains "LIMIT" (upper sql) = true
  /\ contains "transactions" (lower sql) = true.
Proof. apply retry_safe. Qed.

(** X28. With the translation step played by [SQLTranslator.translate_with_retry], as the engine wires it, [process_query] never ends on the validation-blocked terminal: the translator rejects beforehand everything [validate_query] would block. *)
Theorem X_translator_never_blocked w chat tr first_call self user_query conversation_id :
  (process_query (with_translator w chat tr first_call) self user_query conversation_id).2
  <> VALIDATION_BLOCKED.
Proof.
  unfold process_query.
  destruct (route _ self user_query conversation_id).
  2:{ destruct (_handle_general_query _ self user_query conversation_id). discriminate. }
  cbn [Orchestrator.translate_with_retry with_translator].
  destruct ((translate_with_retry chat tr first_call user_query 2%Z
               (_get_history self conversation_id)).2) as [[e]|sql] eqn:E;
    [discriminate|].
  apply retry_safe in E. destruct E as [E _]. rewrite E. cbn [negb].
  destruct (Executor.execute _ _ sql true) as [ex [[e]|df]]; [discriminate|].
  destruct (extract_signals _ df user_query); discriminate.
Qed.

(** X29. [translate_with_retry] calls [translate] until the first success and at most [max_retries + 1] times: it returns the statement of the first successful attempt and makes no further request, or, when every attempt fails, raises an error that reports [max_retries + 1] and the message of the last failure (the text None when a negative [max_retries] leaves no attempt at all). *)
Theorem X_retry_budget chat self first_call user_query (max_retries : Z) history :
  let attempts := Z.to_nat (max_retries + 1) in
  let attempt k := translate chat self (first_call + k) user_query history in
  let out := translate_with_retry chat self first_call user_query max_retries history in
  (exists k sql,
     k < attempts /\ attempt k = inr sql
     /\ (forall j, j < k -> exists e, attempt j = inl e)
     /\ out = (first_call + k + 1, inr sql))
  \/ ((forall j, j < attempts -> exists e, attempt j = inl e)
      /\ exists e,
           out = (first_call + attempts,
                  inl (TranslationError_
                         ("Translation failed after " ++ pretty (max_retries + 1)%Z
                          ++ " attempts. Last error: " ++ e)))
           /\ match attempts with
              | O => e = "None"
              | S last => attempt last = inl (TranslationError_ e)
              end).
Proof.
  cbn zeta. unfold translate_with_retry.
  exact (retry_loop_spec chat self user_query history (max_retries + 1)%Z
           (Z.to_nat (max_retries + 1)) first_call "None").
Qed.

(** *** Cleaning the reply *)

Lemma rstrip_idem s : rstrip (rstrip s) = rstrip s.
Proof.
  induction s as [|c s IH]; [reflexivity|].
  cbn [rstrip]. destruct (is_space c && is_empty (rstrip s)) eqn:E; [reflexivity|].
  cbn [rstrip]. rewrite IH, E. reflexivity.
Qed.

Lemma rstrip_lstrip_fixed y : rstrip y = y -> rstrip (lstrip y) = lstrip y.
Proof.
  induction y as [|c y IH]; intros H; [reflexivity|].
  cbn [lstrip]. destruct (is_space c); [|exact H].
  apply IH. cbn [rstrip] in H.
  destruct (is_space c && is_empty (rstrip y)); [discriminate|].
  injection H as H. exact H.
Qed.

Lemma lstrip_idem y : lstrip (lstrip y) = lstrip y.
Proof.
  induction y as [|c y IH]; [reflexivity|].
  cbn [lstrip]. destruct (is_space c) eqn:E; [exact IH|].
  cbn [lstrip]. rewrite E. reflexivity.
Qed.

Lemma strip_idem s : strip (strip s) = strip s.
Proof.
  unfold strip. rewrite (rstrip_lstrip_fixed _ (rstrip_idem s)). apply lstrip_idem.
Qed.

(** A keyword made of word characters only. *)
Definition all_word (kw : string) : Prop :=
  forall c, In c (list_ascii_of_string kw) -> is_word c = true.

Lemma all_word_tail a kw : all_word (String a kw) -> is_word a = true /\ all_word kw.
Proof.
  intros H. split; [apply H; left; reflexivity|].
  intros c Hc. apply H. right. exact Hc.
Qed.

Lemma prefix_ci_nil s : prefix_ci "" s = true.
Proof. destruct s; reflexivity. Qed.

Lemma rstrip_char_prefix kw : all_word kw -> forall r,
  prefix_ci kw r = true -> prefix_ci kw (rstrip_char ";" r) = true.
Proof.
  induction kw as [|a kw IH]; intros Hw r H; [apply prefix_ci_nil|].
  destruct r as [|x r]; [discriminate|].
  apply all_word_tail in Hw as [Ha Hw].
  cbn [prefix_ci] in H. apply andb_true_iff in H as [Hx H].
  assert (Wx : is_word x = true) by (rewrite (eqb_ci_word _ _ Hx); exact Ha).
  cbn [rstrip_char]. rewrite (is_word_not_semicolon _ Wx). cbn [andb prefix_ci].
  rewrite Hx, (IH Hw r H). reflexivity.
Qed.

Lemma rstrip_prefix kw : all_word kw -> forall r,
  prefix_ci kw r = true -> prefix_ci kw (rstrip r) = true.
Proof.
  induction kw as [|a kw IH]; intros Hw r H; [apply prefix_ci_nil|].
  destruct r as [|x r]; [discriminate|].
  apply all_word_tail in Hw as [Ha Hw].
  cbn [prefix_ci] in H. apply andb_true_iff in H as [Hx H].
  assert (Wx : is_word x = true) by (rewrite (eqb_ci_word _ _ Hx); exact Ha).
  cbn [rstrip]. rewrite (is_word_not_space _ Wx). cbn [andb prefix_ci].
  rewrite Hx, (IH Hw r H). reflexivity.
Qed.

Lemma lstrip_prefix kw : all_word kw -> forall r,
  prefix_ci kw r = true -> prefix_ci kw (lstrip r) = true.
Proof.
  intros Hw r H. destruct kw as [|a kw]; [apply prefix_ci_nil|].
  destruct r as [|x r]; [discriminate|].
  apply all_word_tail in Hw as [Ha Hw].
  assert (Hx : eqb_ci a x = true).
  { cbn [prefix_ci] in H. apply andb_true_iff in H as [Hx _]. exact Hx. }
  assert (Wx : is_word x = true) by (rewrite (eqb_ci_word _ _ Hx); exact Ha).
  cbn [lstrip]. rewrite (is_word_not_space _ Wx). exact H.
Qed.

Lemma prefix_ci_startswith kw : upper kw = kw -> forall r,
  prefix_ci kw r = true -> startswith (upper r) kw = true.
Proof.
  unfold startswith.
  induction kw as [|a kw IH]; intros Hu r H; [destruct (upper r); reflexivity|].
  destruct r as [|x r]; [discriminate|].
  cbn [upper] in Hu. injection Hu as Ha Hu.
  cbn [prefix_ci] in H. apply andb_true_iff in H as [Hx H].
  unfold eqb_ci in Hx. apply Ascii.eqb_eq in Hx. rewrite Ha in Hx.
  cbn [upper String.prefix]. rewrite <- Hx.
  destruct (ascii_dec a a) as [_|N]; [|contradiction].
  apply IH; assumption.
Qed.

Lemma from_first_match_some kws : forall s b r,
  from_first_match b kws s = Some r ->
  exists b' kw, In kw kws /\ word_match_here_ci b' kw r = true.
Proof.
  induction s as [|c s IH]; intros b r H; cbn [from_first_match] in H.
  - destruct (existsb _ kws) eqn:E; [|discriminate]. injection H as <-.
    apply existsb_exists in E as (kw & Hk & Hm). eauto.
  - destruct (existsb _ kws) eqn:E.
    + injection H as <-. apply existsb_exists in E as (kw & Hk & Hm). eauto.
    + exact (IH _ _ H).
Qed.

Lemma from_first_match_found kws : forall s b,
  word_search_ci_from b kws s = true -> exists r, from_first_match b kws s = Some r.
Proof.
  induction s as [|c s IH]; intros b H; cbn [word_search_ci_from from_first_match] in *.
  - rewrite orb_false_r in H. rewrite H. eauto.
  - destruct (existsb _ kws); [eauto|]. apply IH. exact H.
Qed.

Lemma statement_words kw : In kw ["SELECT"; "WITH"] -> all_word kw /\ upper kw = kw.
Proof.
  intros [<-|[<-|[]]]; (split; [|reflexivity]); intros c Hc; simpl in Hc;
    repeat (destruct Hc as [<-|Hc]; [reflexivity|]); contradiction.
Qed.

(** X30. [_clean_sql] returns a text without leading or trailing white space, and when an ASCII reply, its code fences removed, contains SELECT or WITH as a whole word in any letter case, the cleaned text begins with that word: what precedes the statement is dropped. *)
Theorem X_clean_sql_statement raw :
  strip (_clean_sql raw) = _clean_sql raw
  /\ (is_ascii_text raw = true ->
      re_search_words_ci ["SELECT"; "WITH"]
        (re_sub_lit_ws "```" (re_sub_lit_ws "```sql" raw)) = true ->
      startswith (upper (_clean_sql raw)) "SELECT" = true
      \/ startswith (upper (_clean_sql raw)) "WITH" = true).
Proof.
  unfold _clean_sql. split; [apply strip_idem|].
  intros _ H. apply from_first_match_found in H as [r Hr].
  unfold re_search_words_ci in *. rewrite Hr.
  apply from_first_match_some in Hr as (b & kw & Hk & Hm).
  destruct (statement_words kw Hk) as [Hw Hu].
  unfold word_match_here_ci in Hm.
  apply andb_true_iff in Hm as [Hm _]. apply andb_true_iff in Hm as [Hm _].
  assert (P : startswith (upper (strip (rstrip_char ";" r))) kw = true).
  { apply (prefix_ci_startswith kw Hu). unfold strip.
    apply (lstrip_prefix kw Hw), (rstrip_prefix kw Hw), (rstrip_char_prefix kw Hw), Hm. }
  destruct Hk as [<-|[<-|[]]]; [left|right]; exact P.
Qed.

Lemma X_clean_sql_statement_witness :
  startswith (upper (_clean_sql "Sure! Here it is: select bank from transactions;")) "SELECT" = true
  \/ startswith (upper (_clean_sql "Sure! Here it is: select bank from transactions;")) "WITH" = true.
Proof.
  apply (X_clean_sql_statement "Sure! Here it is: select bank from transactions;").
  - vm_compute. reflexivity.
  - vm_compute. reflexivity.
Defined.

Lemma X_translated_sql_safe_witness :
  validate_query ("SELECT bank FROM transactions;" ++ String "010" "LIMIT 10000") = true
  /\ contains "LIMIT" (upper ("SELECT bank FROM transactions;" ++ String "010" "LIMIT 10000")) = true
  /\ contains "transactions" (lower ("SELECT bank FROM transactions;" ++ String "010" "LIMIT 10000")) = true.
Proof.
  apply (X_translated_sql_safe chat_second_try translator0 0 "banks?" 2%Z []).
  vm_compute. reflexivity.
Defined.

End TranslatorExtra.
